(** * The migration applicator of the container entrypoint and the
      standalone migration runner

    Two programs apply SQL migrations in this repository:

    - [docker-entrypoint.sh] (a bash script): waits for PostgreSQL, then
      walks [/app/migrations/*.sql], consults the ledger
      [/app/data/.migration_status] with [grep], runs [psql -f] on every
      file the ledger does not list, records it with [echo >>] or
      [sed -i], and finally [exec]s the application;
    - [run-migration.ts]: [runUnreadMessageMigration], which sends one
      hard-coded migration file to the server between [BEGIN] and
      [COMMIT].

    Both are embedded below as executable functions over an explicit
    world (database, status file, clock), returning the events they
    emit.  The external tools are modelled by what the scripts rely on:
    [grep] and [sed] by a matcher for the basic regular expressions that
    file names can spell, [psql] by its documented exit status, the
    server by a function [exec] that either performs a statement or
    rejects it and a function [answers] that tells which of the other
    queries it accepts.

    Two more pieces of the repository are embedded after them:
    [multi-instance-deploy.sh], the interactive script that creates and
    manages instances (its validators, prompts, port search, retries,
    files and commands), and the [bypass] function of the proxy rule for
    one-segment paths in [vite.config.ts]. *)

From stdpp Require Import gmap strings list sorting pretty.
From Stdlib Require Import ZArith Ascii.

#[local] Set Warnings "-clear-no-such-hyp".

(** ** Basic regular expressions, as [grep] and [sed] read them

    The entrypoint splices a file name, as it is, into a pattern:
    [grep -q "^${migration_file}:applied:"].  So the name is read as a
    basic regular expression (BRE).  The fragment modelled here is the
    one spelled by names without an opening bracket, a backslash or a
    newline: a dot matches any character, a star repeats the preceding
    item (and is an ordinary character at the very start of the
    expression), a caret in first position anchors the match at the
    start of the line, a dollar anchors it at the end of the line when
    it is the last character of the expression and, as GNU [grep] and
    [sed] have it, also when a closing parenthesis or a bar and at least
    one more character follow it; every other character stands for
    itself.  Bytes are compared as in the C locale, which is the locale
    of the image ([node:20-slim] sets none). *)
Module Bre.

(** [End] is the end of the line: it takes no character. *)
Inductive atom : Type :=
| Lit (c : ascii)
| Any
| End.

Record piece : Type := Piece { what : atom; starred : bool }.

Record pattern : Type := Pattern { anchored : bool; body : list piece }.

(** The names the fragment covers. *)
Definition special (c : ascii) : bool :=
  (Ascii.eqb c "[" || Ascii.eqb c "\" || Ascii.eqb c "010")%char.

Fixpoint supported (s : string) : bool :=
  match s with
  | EmptyString => true
  | String c s' => negb (special c) && supported s'
  end.

Definition atom_of (c : ascii) : atom :=
  if Ascii.eqb c "."%char then Any else Lit c.

(** What stands after a dollar that anchors: nothing, or a closing
    parenthesis or a bar with something after it. *)
Definition closes (rest : string) : bool :=
  match rest with
  | EmptyString => true
  | String c (String _ _) => (Ascii.eqb c ")" || Ascii.eqb c "|")%char
  | String _ EmptyString => false
  end.

(** [pieces acc s] reads [s] left to right; [acc] holds the items read
    so far, last one first, so that a star can mark the item before
    it.  A star with nothing before it is an ordinary character; a
    star after a starred item changes nothing for [grep] (for [sed] see
    [posix] below). *)
Fixpoint pieces (acc : list piece) (s : string) : list piece :=
  match s with
  | EmptyString => rev acc
  | String c s' =>
      if Ascii.eqb c "*"%char then
        match acc with
        | [] => pieces [Piece (Lit c) false] s'
        | p :: acc' => pieces (Piece (what p) true :: acc') s'
        end
      else if Ascii.eqb c "$"%char && closes s'
      then pieces (Piece End false :: acc) s'
      else pieces (Piece (atom_of c) false :: acc) s'
  end.

Definition compile (s : string) : pattern :=
  match s with
  | String "^"%char s' => Pattern true (pieces [] s')
  | _ => Pattern false (pieces [] s)
  end.

Definition atom_matches (a : atom) (c : ascii) : bool :=
  match a with
  | Any => true
  | Lit d => Ascii.eqb d c
  | End => false
  end.

Definition longer (a b : option nat) : option nat :=
  match a, b with
  | Some x, Some y => Some (Nat.max x y)
  | Some x, None => Some x
  | None, _ => b
  end.

(** [star a rest s]: the item [a] repeated any number of times, then
    [rest]; the longest way wins. *)
Fixpoint star (a : atom) (rest : string -> option nat) (s : string)
  : option nat :=
  longer
    match s with
    | String c s' => if atom_matches a c then S <$> star a rest s' else None
    | EmptyString => None
    end
    (rest s).

(** [longest re s]: the length of the longest prefix of [s] that [re]
    matches, if any.  POSIX matching takes the longest match at the
    leftmost position. *)
Fixpoint longest (re : list piece) (s : string) : option nat :=
  match re with
  | [] => Some 0
  | Piece End false :: re' =>
      match s with
      | EmptyString => longest re' s
      | String _ _ => None
      end
  | Piece a false :: re' =>
      match s with
      | String c s' =>
          if atom_matches a c then S <$> longest re' s' else None
      | EmptyString => None
      end
  | Piece a true :: re' => star a (longest re') s
  end.

(** The leftmost match: where it starts and how long it is. *)
Fixpoint leftmost (re : list piece) (from : nat) (s : string)
  : option (nat * nat) :=
  match longest re s with
  | Some n => Some (from, n)
  | None =>
      match s with
      | String _ s' => leftmost re (S from) s'
      | EmptyString => None
      end
  end.

Definition find (p : pattern) (line : string) : option (nat * nat) :=
  if anchored p then pair 0 <$> longest (body p) line
  else leftmost (body p) 0 line.

(** Does the line contain a match? *)
Definition selects (p : pattern) (line : string) : bool :=
  bool_decide (is_Some (find p line)).

(** [sed] compiles its expressions as POSIX has them, and refuses a
    star that follows a starred item ("Invalid preceding regular
    expression") where [grep] reads one more repetition.  [twice before
    s] tells whether [s] holds such a star; [before] is what was read
    last: nothing, an item ([Some false]) or a starred item
    ([Some true]). *)
Fixpoint twice (before : option bool) (s : string) : bool :=
  match s with
  | EmptyString => false
  | String c s' =>
      if Ascii.eqb c "*"%char then
        match before with
        | None => twice (Some false) s'
        | Some false => twice (Some true) s'
        | Some true => true
        end
      else twice (Some false) s'
  end.

Definition posix (s : string) : bool :=
  match s with
  | String "^"%char s' => negb (twice None s')
  | _ => negb (twice None s)
  end.

End Bre.

(** [grep -q PATTERN FILE] exits with status 0 when some line of the
    file contains a match; [true] stands for status 0. *)
Definition grep_q (pattern : string) (file : list string) : bool :=
  existsb (Bre.selects (Bre.compile pattern)) file.

(** The replacement of [sed]'s [s] command: an ampersand stands for the
    matched text. *)
Fixpoint expand (replacement matched : string) : string :=
  match replacement with
  | EmptyString => EmptyString
  | String c r =>
      if Ascii.eqb c "&"%char then matched +:+ expand r matched
      else String c (expand r matched)
  end.

(** Dropping the first [n] characters. *)
Fixpoint string_drop (n : nat) (s : string) : string :=
  match n, s with
  | S n', String _ s' => string_drop n' s'
  | _, _ => s
  end.

(** [s/PATTERN/REPLACEMENT/] on one line: the leftmost longest match is
    replaced, once; a line without a match is left as it is. *)
Definition sed_s (pattern replacement line : string) : string :=
  match Bre.find (Bre.compile pattern) line with
  | Some (i, n) =>
      String.substring 0 i line
      +:+ expand replacement (String.substring i n line)
      +:+ string_drop (i + n) line
  | None => line
  end.

(** [sed -i "s/PATTERN/REPLACEMENT/" FILE]: the lines of the file after
    it, and its exit status.  An expression that [sed] refuses leaves
    the file as it is; the status is 1 then. *)
Definition sed_i (pattern replacement : string) (file : list string)
  : list string * Z :=
  if Bre.posix pattern then (sed_s pattern replacement <$> file, 0%Z)
  else (file, 1%Z).

(** ** The status file

    [/app/data/.migration_status], as its lines; [None] when the file
    does not exist. *)
Abbreviation status_file := (option (list string)).

Definition header : string := "# Migration Status - Auto-generated".

(** [is_migration_applied]: without a status file the answer is "no";
    else it is [grep]'s. *)
Definition is_migration_applied (migration_file : string) (st : status_file)
  : bool :=
  match st with
  | Some lines => grep_q ("^" +:+ migration_file +:+ ":applied:") lines
  | None => false
  end.

(** The lines [mark_migration_applied] works on: those of the file, or
    the header it writes into a new file. *)
Definition ledger (st : status_file) : list string :=
  match st with
  | Some lines => lines
  | None => [header]
  end.

(** Does the character occur in the string? *)
Fixpoint occurs (c : ascii) (s : string) : bool :=
  match s with
  | EmptyString => false
  | String a s' => Ascii.eqb c a || occurs c s'
  end.

(** The lines of the status file; none when there is no file. *)
Definition lines_of (st : status_file) : list string := default [] st.

(** Does the line begin with a match of [NAME:]?  This is what the
    [grep] of [mark_migration_applied] asks of each line. *)
Definition begins_record (name line : string) : bool :=
  Bre.selects (Bre.compile ("^" +:+ name +:+ ":")) line.

(** Does the line begin with a match of [NAME:applied:]?  This is what
    the [grep] of [is_migration_applied] asks of each line. *)
Definition recognises (name line : string) : bool :=
  Bre.selects (Bre.compile ("^" +:+ name +:+ ":applied:")) line.

(** The line that [mark_migration_applied] writes. *)
Definition record (name timestamp : string) : string :=
  name +:+ ":applied:" +:+ timestamp.

(** [mark_migration_applied]: the file is created with its header if it
    is not there; then "update or add": if a line begins with a match
    of [NAME:], [sed -i] rewrites the file, else the record is appended
    with [echo >>].  The result is the file after it and the exit
    status of [sed], if [sed] was called: the script runs under
    [set -e], and ends there when that status is not 0. *)
Definition mark_migration_applied (migration_file timestamp : string)
  (st : status_file) : status_file * option Z :=
  let lines := ledger st in
  if grep_q ("^" +:+ migration_file +:+ ":") lines
  then
    let '(lines', rc) :=
      sed_i ("^" +:+ migration_file +:+ ":.*")
            (record migration_file timestamp) lines in
    (Some lines', Some rc)
  else (Some (lines ++ [record migration_file timestamp]), None).

(** *** The records, as "update or add" means them

    The lines of a migration are the lines that begin with its name and
    a colon.  Marking a migration replaces its lines by its new record,
    and adds the record at the end when it has no line. *)
Definition line_of (name line : string) : bool :=
  String.prefix (name +:+ ":") line.

Definition update_or_add (name timestamp : string) (lines : list string)
  : list string :=
  if existsb (line_of name) lines
  then (fun line => if line_of name line then record name timestamp else line)
         <$> lines
  else lines ++ [record name timestamp].

(** *** Names that keep apart

    The entrypoint tells migrations apart by matching their names, as
    expressions, against the lines of the status file.  The names of a
    list keep apart, for the readings of a clock, when the expression of
    each of them matches its own records and no record of another. *)
Definition separate (date : nat -> string) (names : list string) : Prop :=
  forall n m k, n ∈ names -> m ∈ names ->
    recognises m (record n (date k)) = bool_decide (m = n)
    /\ begins_record m (record n (date k)) = bool_decide (m = n).

(** A status file is clean for them when every line that begins like a
    record of one of them is a record of it. *)
Definition clean (names : list string) (st : status_file) : Prop :=
  forall line m, line ∈ lines_of st -> m ∈ names ->
    begins_record m line = true -> recognises m line = true.

(** ** The server and the files

    What a statement does to the database is the server's business: the
    programs only see whether it was performed or rejected.  So is
    whether the server accepts the other queries of the runner, named
    by their text: [BEGIN], [COMMIT] (of a transaction that leads to the
    given database; constraints can be deferred to it), [ROLLBACK], and
    the four look-ups in the catalogue, [columns], [indexes],
    [functions] and [triggers]; a server that has dropped the session
    accepts none. *)
Class Server : Type := {
  database : Type;
  statement : Type;
  exec : statement -> database -> option database;
  answers : string -> database -> bool
}.

Section Programs.
Context {srv : Server}.

(** An entry of the migrations directory: whether it is a regular file
    ([[ -f ]]), whether it can be read, and the statements it holds. *)
Record entry : Type := Entry {
  regular : bool;
  readable : bool;
  script : list statement
}.

(** What the programs read and cannot change: the answers of
    [pg_isready] (one per call), the readings of [date] (one per call),
    whether the server opens a session on the database the environment
    names, and the migrations directory ([None]: no such directory). *)
Record environment : Type := Environment {
  pg_isready : nat -> bool;
  date : nat -> string;
  connects : bool;
  migrations : option (gmap string entry)
}.

(** What the programs change: the database, the status file, and how
    many times the clock was read. *)
Record world : Type := World {
  db : database;
  status : status_file;
  clock_reads : nat
}.

(** The lines the programs write to the terminal, with [echo] or
    [console.error]. *)
Inductive message : Type :=
| WaitingForPostgres
| Unavailable
| PostgresIsUp
| Checking
| Applying (name : string)
| UsingDatabase
| Marked (name : string)
| AppliedSuccessfully (name : string)
| MigrationFailed (name : string)
| ConnectionDetails
| AlreadyApplied (name : string)
| AllProcessed
| NoMigrationsDirectory
| Starting
| FileNotFound
| RunnerFailed
| ScriptFailed.

Inductive query : Type :=
| BEGIN
| COMMIT
| ROLLBACK
| SCRIPT (statements : list statement)
| SELECT (what : string).

(** Everything the programs do that can be seen from outside, in the
    order they do it. *)
Inductive event : Type :=
| Probe (up : bool)
| Sleep (seconds : nat)
| Echo (line : message)
| Psql (name : string) (returned : Z)
| Sed (name : string) (returned : Z)
| Query (q : query) (accepted : bool).

(** *** The file-name pattern [*.sql]

    The star of a shell pattern matches any string, but not a leading
    dot.  The expansion is sorted (byte order, in the C locale); when no
    name matches, the pattern itself is the only word. *)
Fixpoint ends_with (suffix s : string) : bool :=
  String.eqb s suffix
  || match s with
     | String _ s' => ends_with suffix s'
     | EmptyString => false
     end.

Definition star_sql (name : string) : bool :=
  match name with
  | String "."%char _ => false
  | _ => ends_with ".sql" name
  end.

Definition matching_names (dir : gmap string entry) : list string :=
  merge_sort String.le (filter (fun n => star_sql n = true) (map_to_list dir).*1).

Definition glob_star_sql (dir : gmap string entry) : list string :=
  match matching_names dir with
  | [] => ["*.sql"]
  | names => names
  end.

(** The matcher above speaks for [grep] and [sed] on the names of the
    fragment; a run is within the model when the names the loop goes
    through are. *)
Definition modelled (env : environment) : bool :=
  match migrations env with
  | Some dir => forallb Bre.supported (matching_names dir)
  | None => true
  end.

(** [[ -f "$migration_file" ]] *)
Definition is_file (dir : gmap string entry) (name : string) : bool :=
  match dir !! name with
  | Some file => regular file
  | None => false
  end.

(** What the loop is meant to apply, and to skip, given the status file
    it starts with. *)
Definition pending (dir : gmap string entry) (st : status_file)
  (name : string) : bool :=
  is_file dir name && negb (is_migration_applied name st).

Definition recorded (dir : gmap string entry) (st : status_file)
  (name : string) : bool :=
  is_file dir name && is_migration_applied name st.

(** *** [psql -f FILE]

    Without [ON_ERROR_STOP] and without [--single-transaction], which
    the entrypoint does not pass: every statement is sent on its own and
    commits on its own, a rejected statement is reported and the next
    one is sent, and the exit status is 0.  The status is 2 when no
    session could be opened and 1 when the file could not be read. *)
Fixpoint autocommit (statements : list statement) (d : database) : database :=
  match statements with
  | [] => d
  | s :: rest =>
      autocommit rest (match exec s d with
                       | Some d' => d'
                       | None => d
                       end)
  end.

Definition psql_f (env : environment) (file : entry) (d : database)
  : Z * database :=
  if negb (connects env) then (2%Z, d)
  else if negb (readable file) then (1%Z, d)
  else (0%Z, autocommit (script file) d).

(** *** The migration loop of the entrypoint

    One turn of [for migration_file in "$MIGRATIONS_DIR"/*.sql]: the
    events, the world after it, and the exit status if the script
    exits: with 1 after the report of a failing [psql], and, the script
    running under [set -e], with the status of a failing [sed] right
    after it.  The volume is taken to be writable. *)
Definition turn (env : environment) (dir : gmap string entry)
  (migration_name : string) (w : world) : list event * world * option Z :=
  match dir !! migration_name with
  | Some file =>
      if regular file then
        if negb (is_migration_applied migration_name (status w)) then
          let '(rc, d) := psql_f env file (db w) in
          if (rc =? 0)%Z then
            let timestamp := date env (clock_reads w) in
            let '(st, sed) :=
              mark_migration_applied migration_name timestamp (status w) in
            let w' := World d st (S (clock_reads w)) in
            match sed with
            | Some code =>
                if (code =? 0)%Z then
                  ([Echo (Applying migration_name); Echo UsingDatabase;
                    Psql migration_name rc; Sed migration_name code;
                    Echo (Marked migration_name);
                    Echo (AppliedSuccessfully migration_name)], w', None)
                else
                  ([Echo (Applying migration_name); Echo UsingDatabase;
                    Psql migration_name rc; Sed migration_name code],
                   w', Some code)
            | None =>
                ([Echo (Applying migration_name); Echo UsingDatabase;
                  Psql migration_name rc;
                  Echo (Marked migration_name);
                  Echo (AppliedSuccessfully migration_name)], w', None)
            end
          else
            ([Echo (Applying migration_name); Echo UsingDatabase;
              Psql migration_name rc;
              Echo (MigrationFailed migration_name); Echo ConnectionDetails],
             World d (status w) (clock_reads w),
             Some 1%Z)
        else ([Echo (AlreadyApplied migration_name)], w, None)
      else ([], w, None)
  | None => ([], w, None)
  end.

Fixpoint for_each (env : environment) (dir : gmap string entry)
  (names : list string) (w : world) : list event * world * option Z :=
  match names with
  | [] => ([], w, None)
  | migration_name :: rest =>
      match turn env dir migration_name w with
      | (evs, w', Some code) => (evs, w', Some code)
      | (evs, w', None) =>
          let '(evs', w'', code) := for_each env dir rest w' in
          (evs ++ evs', w'', code)
      end
  end.

(** [if [ -d "$MIGRATIONS_DIR" ]; then ... else ... fi] *)
Definition run_migrations (env : environment) (w : world)
  : list event * world * option Z :=
  match migrations env with
  | Some dir =>
      match for_each env dir (glob_star_sql dir) w with
      | (evs, w', None) => (Echo Checking :: evs ++ [Echo AllProcessed], w', None)
      | (evs, w', Some code) => (Echo Checking :: evs, w', Some code)
      end
  | None => ([Echo Checking; Echo NoMigrationsDirectory], w, None)
  end.

(** [until pg_isready ...; do echo ...; sleep 2; done], for at most
    [fuel] calls of [pg_isready], starting with call number [k].  The
    boolean tells whether the loop was left. *)
Fixpoint until_pg_isready (env : environment) (fuel k : nat)
  : list event * bool :=
  match fuel with
  | 0 => ([], false)
  | S fuel' =>
      if pg_isready env k then ([Probe true], true)
      else
        let '(evs, up) := until_pg_isready env fuel' (S k) in
        (Probe false :: Echo Unavailable :: Sleep 2 :: evs, up)
  end.

(** One turn of the wait loop that finds the server down, and [n] of
    them in a row. *)
Definition waiting_round : list event :=
  [Probe false; Echo Unavailable; Sleep 2].

Definition rounds (n : nat) : list event :=
  mjoin (replicate n waiting_round).

(** How a run of the entrypoint ends: still in the wait loop when the
    fuel ran out, exited with a status, or replaced by the application
    ([exec "$@"]), whose exit status is then the container's. *)
Inductive ending : Type :=
| StillWaiting
| Exited (code : Z)
| StartedApplication.

Definition entrypoint (env : environment) (fuel : nat) (w : world)
  : list event * world * ending :=
  match until_pg_isready env fuel 0 with
  | (evs, false) => (Echo WaitingForPostgres :: evs, w, StillWaiting)
  | (evs, true) =>
      match run_migrations env w with
      | (evs', w', Some code) =>
          (Echo WaitingForPostgres :: evs ++ Echo PostgresIsUp :: evs',
           w', Exited code)
      | (evs', w', None) =>
          (Echo WaitingForPostgres :: evs ++ Echo PostgresIsUp :: evs'
             ++ [Echo Starting],
           w', StartedApplication)
      end
  end.

(** The report of a run, read off its output. *)
Definition appliedNames (evs : list event) : list string :=
  omap (fun e => match e with
                 | Echo (AppliedSuccessfully n) => Some n
                 | _ => None
                 end) evs.

Definition skippedNames (evs : list event) : list string :=
  omap (fun e => match e with
                 | Echo (AlreadyApplied n) => Some n
                 | _ => None
                 end) evs.

(** The files handed to [psql], in order. *)
Definition executed (evs : list event) : list string :=
  omap (fun e => match e with
                 | Psql n _ => Some n
                 | _ => None
                 end) evs.

(** The names the loop dealt with, applied, failed or skipped, in
    order. *)
Definition handled (evs : list event) : list string :=
  omap (fun e => match e with
                 | Echo (Applying n) => Some n
                 | Echo (AlreadyApplied n) => Some n
                 | _ => None
                 end) evs.

(** *** The standalone runner, [runUnreadMessageMigration]

    The state of the client's session: no transaction open, a
    transaction open on a working copy of the database, or a
    transaction that a rejected statement has aborted. *)
Inductive transaction : Type :=
| Idle
| Active (working : database)
| Aborted.

Record session : Type := Session { committed : database; txn : transaction }.

Fixpoint in_order (statements : list statement) (d : database)
  : option database :=
  match statements with
  | [] => Some d
  | s :: rest =>
      match exec s d with
      | Some d' => in_order rest d'
      | None => None
      end
  end.

(** The database a query of the session sees. *)
Definition seen (s : session) : database :=
  match txn s with
  | Active d => d
  | _ => committed s
  end.

(** [client.query(q)]: the session after it and whether the promise
    resolved.  Statements sent in one query string are performed in
    order up to the first one the server rejects.  A [COMMIT] that the
    server rejects undoes the transaction; in an aborted transaction
    the server takes no query but the end of the transaction. *)
Definition client_query (q : query) (s : session) : session * bool :=
  match q, txn s with
  | BEGIN, Idle =>
      if answers "BEGIN" (seen s)
      then (Session (committed s) (Active (committed s)), true)
      else (s, false)
  | BEGIN, _ => (s, answers "BEGIN" (seen s))
  | COMMIT, Active d =>
      if answers "COMMIT" d then (Session d Idle, true)
      else (Session (committed s) Idle, false)
  | COMMIT, _ => (Session (committed s) Idle, answers "COMMIT" (seen s))
  | ROLLBACK, _ => (Session (committed s) Idle, answers "ROLLBACK" (seen s))
  | SCRIPT ss, Idle =>
      match in_order ss (committed s) with
      | Some d => (Session d Idle, true)
      | None => (s, false)
      end
  | SCRIPT ss, Active d =>
      match in_order ss d with
      | Some d' => (Session (committed s) (Active d'), true)
      | None => (Session (committed s) Aborted, false)
      end
  | SCRIPT _, Aborted => (s, false)
  | SELECT _, Aborted => (s, false)
  | SELECT what, _ => (s, answers what (seen s))
  end.

(** The body of a [try] block made of awaited queries: they are sent in
    order until one is rejected. *)
Fixpoint send (qs : list query) (s : session) : list event * session * bool :=
  match qs with
  | [] => ([], s, true)
  | q :: rest =>
      match client_query q s with
      | (s', true) =>
          let '(evs, s'', ok) := send rest s' in
          (Query q true :: evs, s'', ok)
      | (s', false) => ([Query q false], s', false)
      end
  end.

Definition unread_migration : string := "003-add-unread-message-tracking.sql".

Definition verification : list query :=
  [SELECT "columns"; SELECT "indexes"; SELECT "functions"; SELECT "triggers"].

(** The events, the world when the process is gone, and the exit
    status of the process.  A query that is rejected in the [try] block
    leads to the [catch] block, which sends [ROLLBACK] and reports; when
    [ROLLBACK] is rejected too, the report is that of the caller. *)
Definition runUnreadMessageMigration (env : environment) (w : world)
  : list event * world * Z :=
  if negb (connects env) then ([Echo ScriptFailed], w, 1%Z)
  else
    match migrations env ≫= (fun dir => dir !! unread_migration) with
    | None => ([Echo FileNotFound], w, 1%Z)
    | Some file =>
        let s := Session (db w) Idle in
        let '(evs, s', ok) :=
          if regular file && readable file
          then send (BEGIN :: SCRIPT (script file) :: COMMIT :: verification) s
          else ([], s, false) in
        if ok then (evs, World (committed s') (status w) (clock_reads w), 0%Z)
        else
          let '(evs', s'', undone) := send [ROLLBACK] s' in
          (evs ++ evs'
             ++ [Echo (if undone then RunnerFailed else ScriptFailed)],
           World (committed s'') (status w) (clock_reads w), 1%Z)
    end.

End Programs.

Arguments entry {_}.
Arguments environment {_}.
Arguments world {_}.
Arguments event {_}.
Arguments query {_}.
Arguments session {_}.
Arguments transaction {_}.

(** ** A sample server and sample directories

    The database is the list of the objects that exist.  [CREATE] is
    rejected when the object exists, [DROP] when it does not; [ADD]
    (think of an [INSERT]) is always performed, and so are the other
    queries. *)
Module Sample.

Inductive sql : Type :=
| CREATE (object : string)
| DROP (object : string)
| ADD (row : string).

Definition perform (s : sql) (d : list string) : option (list string) :=
  match s with
  | CREATE x => if bool_decide (x ∈ d) then None else Some (x :: d)
  | DROP x =>
      if bool_decide (x ∈ d) then Some (filter (fun y => y ≠ x) d) else None
  | ADD x => Some (x :: d)
  end.

Definition server : Server :=
  {| database := list string; statement := sql; exec := perform;
     answers := fun _ _ => true |}.

#[local] Existing Instance server.

Definition at_once (k : nat) : bool := true.

Definition never (k : nat) : bool := false.

Definition third_time (k : nat) : bool := bool_decide (k = 2).

Definition wall_clock (k : nat) : string :=
  match k with
  | 0 => "2024-05-01 10:00:00"
  | 1 => "2024-05-01 10:00:01"
  | 2 => "2024-05-01 10:00:02"
  | _ => "2024-05-01 10:00:03"
  end.

Definition file (statements : list sql) : entry := Entry true true statements.

Definition container (dir : option (gmap string entry)) : environment :=
  Environment at_once wall_clock true dir.

(** A fresh volume and an empty database. *)
Definition fresh : world := World ([] : list string) None 0.

(** Two names that differ where one of them has a dot. *)
Definition dotted : gmap string entry :=
  list_to_map [("a-b.sql", file [CREATE "ab"]); ("a.b.sql", file [CREATE "a_b"])].

(** A name with a star. *)
Definition starred_name : gmap string entry :=
  list_to_map [("a*.sql", file [ADD "row"])].

(** Three migrations; the second statement of the second one is
    rejected, because the table exists by then. *)
Definition three : gmap string entry :=
  list_to_map
    [("001-users.sql", file [CREATE "users"]);
     ("002-orders.sql", file [CREATE "orders"; CREATE "users"; CREATE "items"]);
     ("003-index.sql", file [CREATE "index"])].

(** The same three with the second one fixed. *)
Definition three_fixed : gmap string entry :=
  list_to_map
    [("001-users.sql", file [CREATE "users"]);
     ("002-orders.sql", file [CREATE "orders"; CREATE "items"]);
     ("003-index.sql", file [CREATE "index"])].

(** A single migration whose second statement is rejected. *)
Definition faulty : gmap string entry :=
  list_to_map [("001-init.sql", file [CREATE "a"; CREATE "a"; CREATE "b"])].

(** A name that is the beginning of another one, up to a colon. *)
Definition colon_first : gmap string entry :=
  list_to_map [("x.sql:y.sql", file [ADD "y"])].

Definition colon_both : gmap string entry :=
  list_to_map [("x.sql", file [ADD "x"]); ("x.sql:y.sql", file [ADD "y"])].

(** The runner's migration, with a statement that is always
    performed. *)
Definition unread : gmap string entry :=
  list_to_map [(unread_migration, file [ADD "read_at"])].

(** The runner's migration, with a statement the server rejects after
    one it performs. *)
Definition unread_faulty : gmap string entry :=
  list_to_map [(unread_migration, file [CREATE "a"; CREATE "a"; CREATE "b"])].

(** Three files on a fresh volume, two of which differ by a dot. *)
Definition bootstrap : gmap string entry :=
  list_to_map
    [("01-base.sql", file [CREATE "base"]);
     ("01.base.sql", file [CREATE "more"]);
     ("02-rest.sql", file [CREATE "rest"])].

(** A server that never answers. *)
Definition unreachable (dir : option (gmap string entry)) : environment :=
  Environment never wall_clock true dir.

End Sample.

(** ** Further sample environments *)
Module Faults.
#[local] Existing Instance Sample.server.
(** A server that answers [pg_isready] but opens no session on the
    database the environment names. *)
Definition refusing (dir : option (gmap string entry)) : environment :=
  Environment Sample.at_once Sample.wall_clock false dir.

(** A name with a star after a starred item, and a name whose record
    the expression of the first one selects. *)
Definition doubled_first : gmap string entry :=
  list_to_map [("a!sql:b.sql", Sample.file [Sample.ADD "b"])].

Definition doubled_both : gmap string entry :=
  list_to_map [("a!sql:b.sql", Sample.file [Sample.ADD "b"]);
               ("a**.sql", Sample.file [Sample.ADD "a"])].

(** A name with a dollar before a closing parenthesis. *)
Definition dollar : gmap string entry :=
  list_to_map [("a$).sql", Sample.file [Sample.ADD "a"])].

(** The sample server, but for the last look-up of the runner, which it
    rejects. *)
Definition wary : Server :=
  {| database := list string; statement := Sample.sql;
     exec := Sample.perform;
     answers := fun q _ => negb (String.eqb q "triggers") |}.

(** The same, but that it rejects [COMMIT]. *)
Definition strict : Server :=
  {| database := list string; statement := Sample.sql;
     exec := Sample.perform;
     answers := fun q _ => negb (String.eqb q "COMMIT") |}.

(** The runner's migration on such a server. *)
Definition unread_on (srv : Server) (statements : list (@statement srv))
  : @environment srv :=
  @Environment srv Sample.at_once Sample.wall_clock true
    (Some (list_to_map
             [(unread_migration, @Entry srv true true statements)])).
End Faults.

(** ** Plain text in a pattern

    A pattern without a dot, a star, a dollar or a leading caret is read
    by [grep] as the text it is: its items are its characters, and a
    line holds a match when it contains the text. *)
Fixpoint contains (text line : string) : bool :=
  String.prefix text line
  || match line with
     | EmptyString => false
     | String _ line' => contains text line'
     end.

Definition plain (c : ascii) : bool :=
  negb (Ascii.eqb c "." || Ascii.eqb c "*" || Ascii.eqb c "$")%char.

Fixpoint literal (s : string) : list Bre.piece :=
  match s with
  | EmptyString => []
  | String c s' => Bre.Piece (Bre.Lit c) false :: literal s'
  end.

(** ** Extended regular expressions, as the [=~] of bash reads them

    The deployment script checks what the operator types with bash's
    [=~], whose right-hand side is a POSIX extended regular expression.
    The expressions of the script are all anchored at both ends, so that
    what matters is whether the whole string is in the language of the
    expression.  A bracket expression is modelled by the set of
    characters it denotes (for the ranges [a-z], [A-Z] and [0-9]: the
    ASCII letters and digits, as in the C locale); matching is by
    derivatives. *)
Module Ere.

Inductive re : Type :=
| Void
| Eps
| Class (f : ascii -> bool)
| Seq (r1 r2 : re)
| Alt (r1 r2 : re)
| Star (r : re).

(** [r+] and [r{2,}] *)
Definition Plus (r : re) : re := Seq r (Star r).

Definition AtLeast2 (r : re) : re := Seq r (Seq r (Star r)).

Fixpoint nullable (r : re) : bool :=
  match r with
  | Void => false
  | Eps => true
  | Class _ => false
  | Seq r1 r2 => nullable r1 && nullable r2
  | Alt r1 r2 => nullable r1 || nullable r2
  | Star _ => true
  end.

Fixpoint deriv (c : ascii) (r : re) : re :=
  match r with
  | Void => Void
  | Eps => Void
  | Class f => if f c then Eps else Void
  | Seq r1 r2 =>
      if nullable r1 then Alt (Seq (deriv c r1) r2) (deriv c r2)
      else Seq (deriv c r1) r2
  | Alt r1 r2 => Alt (deriv c r1) (deriv c r2)
  | Star r => Seq (deriv c r) (Star r)
  end.

(** Is the whole of [s] in the language of [r]?  This is
    ["$s" =~ ^r$]. *)
Fixpoint matches (r : re) (s : string) : bool :=
  match s with
  | EmptyString => nullable r
  | String c s' => matches (deriv c r) s'
  end.

End Ere.

(** ** The deployment script, [multi-instance-deploy.sh] *)
Module Deploy.

(** *** Characters and strings *)

Definition between (lo hi c : ascii) : bool :=
  (N_of_ascii lo <=? N_of_ascii c)%N && (N_of_ascii c <=? N_of_ascii hi)%N.

Definition lower (c : ascii) : bool := between "a" "z" c.

Definition upper (c : ascii) : bool := between "A" "Z" c.

Definition digit (c : ascii) : bool := between "0" "9" c.

Definition alpha (c : ascii) : bool := lower c || upper c.

Definition alnum (c : ascii) : bool := alpha c || digit c.

(** Is the character one of those of [set]? *)
Definition one_of (set : string) (c : ascii) : bool := occurs c set.

Fixpoint all_of (f : ascii -> bool) (s : string) : bool :=
  match s with
  | EmptyString => true
  | String c s' => f c && all_of f s'
  end.

Fixpoint count_char (c : ascii) (s : string) : nat :=
  match s with
  | EmptyString => 0
  | String a s' => (if Ascii.eqb c a then 1 else 0) + count_char c s'
  end.

Definition is_empty (s : string) : bool :=
  match s with
  | EmptyString => true
  | String _ _ => false
  end.

(** *** [read -r VAR]

    With the default [IFS] and one variable, [read] takes a line and
    removes the spaces and tabs at both ends.  It fails at the end of
    the input, and since the script runs under [set -e] and calls it as
    a plain command, the script then exits with status 1.  The input is
    given as its complete lines. *)
Definition blank (c : ascii) : bool :=
  (Ascii.eqb c " " || Ascii.eqb c "009")%char.

Fixpoint trim_left (s : string) : string :=
  match s with
  | EmptyString => EmptyString
  | String c s' => if blank c then trim_left s' else s
  end.

Fixpoint trim_right (s : string) : string :=
  match s with
  | EmptyString => EmptyString
  | String c s' =>
      match trim_right s' with
      | EmptyString => if blank c then EmptyString else String c EmptyString
      | t => String c t
      end
  end.

Definition read_r (line : string) : string := trim_right (trim_left line).

(** *** What the script writes to the terminal *)
Inductive notice : Type :=
| NameShape
| NameLength
| NameExists (name : string)
| InvalidEmail
| InvalidPort
| Installing
| NoPackageJson
| Attempt (number : nat)
| Installed
| AttemptFailed (number : nat)
| GaveUp
| Asking (prompt default : string)
| Header
| CheckingPrerequisites
| MissingDependencies (names : list string)
| DockerNotRunning
| PrerequisitesMet
| VerifyingFiles
| MissingFiles (names : list string)
| EmptyBuild
| FilesPresent
| DeployQuestion
| CancelledByUser
| Results
| Completed
| Configuring
| NoLongerAvailable (port : string)
| Summary
| UsingNetwork
| CreatingNetwork
| TryingDefault
| TryingCleanup
| NoNetwork
| NetworkCreated
| Deploying (name : string)
| BuildingImage
| NoDockerfile
| NoNodeModules
| BuildFailed
| ImageBuilt
| StartingServices
| StartFailed
| ServicesStarted
| WaitingForServices
| ServicesHealthy
| Dot
| MayStillBeStarting
| RunningMigrations
| MigrationsCompleted
| MigrationMayHaveFailed
| Listing
| NoInstances
| TableHeader
| ShowingStatus
| InstanceIs (name : string)
| ShowingLogs
| PressCtrlC
| StoppingAll
| Stopping (name : string)
| AllStopped
| CleanWarning
| ToBeRemovedAre
| ToBeRemoved (name : string)
| AreYouSure
| CleanupCancelled
| RemovingAll
| Removing (name : string)
| AllRemoved.

Inductive verdict : Type :=
| Accepted
| Rejected (why : notice).

(** *** The validators *)

(** [^[a-zA-Z0-9][a-zA-Z0-9_-]*$] *)
Definition instance_name_re : Ere.re :=
  Ere.Seq (Ere.Class alnum)
          (Ere.Star (Ere.Class (fun c => alnum c || one_of "_-" c))).

(** [^[a-zA-Z0-9._%+-]+@[a-zA-Z0-9.-]+\.[a-zA-Z]{2,}$] *)
Definition local_part (c : ascii) : bool := alnum c || one_of "._%+-" c.

Definition domain_part (c : ascii) : bool := alnum c || one_of ".-" c.

Definition email_re : Ere.re :=
  Ere.Seq (Ere.Plus (Ere.Class local_part))
    (Ere.Seq (Ere.Class (Ascii.eqb "@"))
       (Ere.Seq (Ere.Plus (Ere.Class domain_part))
          (Ere.Seq (Ere.Class (Ascii.eqb "."))
             (Ere.AtLeast2 (Ere.Class alpha))))).

(** [^[0-9]+$] *)
Definition port_re : Ere.re := Ere.Plus (Ere.Class digit).

(** [^[Nn]$] *)
Definition no_re : Ere.re := Ere.Class (one_of "Nn").

(** The entries of [$INSTANCES_DIR]: for each name, whether it is a
    directory; [None] when [$INSTANCES_DIR] itself is not there. *)
Abbreviation instances := (option (gmap string bool)).

(** The test [-d "$INSTANCES_DIR/$name"], for a name that is a single
    path component *)
Definition is_directory (inst : instances) (name : string) : bool :=
  match inst ≫= (fun entries => entries !! name) with
  | Some d => d
  | None => false
  end.

Definition validate_instance_name (inst : instances) (name : string)
  : verdict :=
  if negb (Ere.matches instance_name_re name) then Rejected NameShape
  else if (String.length name <? 3) || (30 <? String.length name)
  then Rejected NameLength
  else if is_directory inst name then Rejected (NameExists name)
  else Accepted.

Definition validate_email (email : string) : verdict :=
  if negb (Ere.matches email_re email) then Rejected InvalidEmail
  else Accepted.

(** The tests [-lt] and [-gt] of the [test] builtin, on a string of
    digits and a number: the string is read as a decimal number,
    leading zeros or not; when the number does not fit a signed 64-bit
    integer, the builtin complains ("integer expression expected") and
    its status is 2, which is neither "yes" nor an error that stops the
    script, since the test is part of a condition. *)
Definition INTMAX_MAX : N := 9223372036854775807.

Fixpoint decimal_from (acc : N) (s : string) : option N :=
  match s with
  | EmptyString => Some acc
  | String c s' =>
      if digit c then decimal_from (10 * acc + (N_of_ascii c - 48)) s'
      else None
  end.

Definition decimal (s : string) : option N :=
  match s with
  | EmptyString => None
  | _ => decimal_from 0 s
  end.

Definition test_lt (s : string) (n : N) : Z :=
  match decimal s with
  | Some v => if (v <=? INTMAX_MAX)%N then (if (v <? n)%N then 0 else 1) else 2
  | None => 2
  end.

Definition test_gt (s : string) (n : N) : Z :=
  match decimal s with
  | Some v => if (v <=? INTMAX_MAX)%N then (if (n <? v)%N then 0 else 1) else 2
  | None => 2
  end.

Definition validate_port (port : string) : verdict :=
  if negb (Ere.matches port_re port)
     || (test_lt port 1024 =? 0)%Z
     || (test_gt port 65535 =? 0)%Z
  then Rejected InvalidPort
  else Accepted.

(** *** [prompt_with_default]

    How a prompt ends: the text is stored in the variable; or the text
    holds a single quote, and what [eval] is given is no longer an
    assignment of that text but shell code the operator has typed; or
    the input ended. *)
Inductive answer : Type :=
| Stored (value : string)
| Evaluated (code : string)
| EndOfInput.

Definition quote_free (s : string) : bool :=
  negb (occurs "'"%char s).

(** What a line of input stands for: itself, trimmed by [read], or the
    default when it is empty and there is a default. *)
Definition supplied (default line : string) : string :=
  if is_empty (read_r line) && negb (is_empty default) then default
  else read_r line.

Fixpoint prompt_with_default (prompt default var_name : string)
  (validator : option (string -> verdict)) (stdin : list string)
  : list notice * answer * list string :=
  match stdin with
  | [] => ([Asking prompt default], EndOfInput, [])
  | line :: rest =>
      let input := supplied default line in
      match validator ≫= (fun v => match v input with
                                   | Rejected why => Some why
                                   | Accepted => None
                                   end) with
      | Some why =>
          let '(out, a, rest') :=
            prompt_with_default prompt default var_name validator rest in
          (Asking prompt default :: why :: out, a, rest')
      | None =>
          ([Asking prompt default],
           if quote_free input then Stored input
           else Evaluated (var_name +:+ "='" +:+ input +:+ "'"),
           rest)
      end
  end.

(** [confirm_deployment]: the deployment goes on unless the answer is
    [n] or [N].  The result is the status with which the script exits,
    if it does: 0 after "Deployment cancelled by user.", and 1 from
    [set -e] when [read] finds the input at its end. *)
Definition confirm_deployment (stdin : list string) : option Z * list string :=
  match stdin with
  | [] => (Some 1%Z, [])
  | line :: rest =>
      (if Ere.matches no_re (read_r line) then Some 0%Z else None, rest)
  end.

(** *** The defaults computed from the instance name *)
Fixpoint map_chars (f : ascii -> ascii) (s : string) : string :=
  match s with
  | EmptyString => EmptyString
  | String c s' => String (f c) (map_chars f s')
  end.

(** [tr '-' '_'] and [tr '[:upper:]' '[:lower:]'] *)
Definition dash_to_underscore (c : ascii) : ascii :=
  if Ascii.eqb c "-" then "_"%char else c.

Definition to_lower (c : ascii) : ascii :=
  if upper c then ascii_of_N (N_of_ascii c + 32) else c.

Definition default_db_name (instance_name : string) : string :=
  map_chars to_lower (map_chars dash_to_underscore instance_name) +:+ "_db".

Definition default_admin_email (instance_name : string) : string :=
  "admin@" +:+ instance_name +:+ ".com".

(** *** The generated secrets

    [tr -d "=+/" | cut -c1-N] on the line that [openssl rand -base64]
    prints. *)
Fixpoint tr_d (set : string) (s : string) : string :=
  match s with
  | EmptyString => EmptyString
  | String c s' => if one_of set c then tr_d set s' else String c (tr_d set s')
  end.

Definition cut_c1 (n : nat) (s : string) : string := String.substring 0 n s.

Definition generate_password (random_base64 : string) : string :=
  cut_c1 16 (tr_d "=+/" random_base64).

Definition generate_session_secret (random_base64 : string) : string :=
  cut_c1 32 (tr_d "=+/" random_base64).

(** *** Ports

    What [netstat -tuln], [docker ps --format "table {{.Ports}}"] and
    [ss -tuln] print, line by line; a command that is not installed
    prints nothing. *)
Record sockets : Type := Sockets {
  netstat_tuln : list string;
  docker_ps_ports : list string;
  ss_tuln : list string
}.

Definition is_port_available (sys : sockets) (port : string) : bool :=
  negb (grep_q (":" +:+ port +:+ " ") (netstat_tuln sys))
  && negb (grep_q (":" +:+ port +:+ "->") (docker_ps_ports sys))
  && negb (grep_q (":" +:+ port +:+ " ") (ss_tuln sys)).

(** [for ((port=start_port; port<=max_port; port++))]: [count] is the
    number of ports from [port] to [max_port]; the state of the system
    is looked at anew for every port, [sys k] being what the [k]-th look
    finds. *)
Fixpoint find_from (sys : nat -> sockets) (k count : nat) (port : N)
  : option N :=
  match count with
  | 0 => None
  | S count' =>
      if is_port_available (sys k) (pretty port) then Some port
      else find_from sys (S k) count' (N.succ port)
  end.

Definition find_available_port (sys : nat -> sockets) (start_port max_port : N)
  : option N :=
  find_from sys 0 (N.to_nat (N.succ max_port - start_port)) start_port.

(** [print_error]: [echo -e "${RED}[ERROR]${NC} $1"] *)
Definition ESC : ascii := "027"%char.

Definition print_error (text : string) : string :=
  String ESC "[0;31m[ERROR]" +:+ String ESC "[0m " +:+ text.

(** [$(find_available_port $MIN $MAX)]: what the function writes, which
    is the port it found or, when it found none, its error message;
    [local suggested=$(...)] does not look at its status. *)
Definition suggested_port (sys : nat -> sockets) (start_port max_port : N)
  : string :=
  match find_available_port sys start_port max_port with
  | Some port => pretty port
  | None =>
      print_error ("No available ports found in range " +:+ pretty start_port
                   +:+ "-" +:+ pretty max_port)
  end.

Definition MIN_APP_PORT : N := 9000.
Definition MAX_APP_PORT : N := 9999.
Definition MIN_DB_PORT : N := 5432.
Definition MAX_DB_PORT : N := 5532.

(** *** The values that [collect_instance_config] gathers *)
Record config : Type := Config {
  INSTANCE_NAME : string;
  DATABASE_NAME : string;
  COMPANY_NAME : string;
  ADMIN_EMAIL : string;
  ADMIN_USERNAME : string;
  ADMIN_FULL_NAME : string;
  ADMIN_PASSWORD : string;
  APP_PORT : string;
  DB_PORT : string;
  SESSION_SECRET : string;
  ENCRYPTION_KEY : string;
  DB_PASSWORD : string
}.

(** *** What the script does besides writing to the terminal

    [Compose dirs c rc] is a call of [docker-compose] on the compose
    files of the instances [dirs], with the status it returned;
    [Cleanup] is [cleanup_docker_resources], every command of which is
    followed by [|| true] or is part of a condition, so that it always
    ends well; [LocalOutsideFunction] is the complaint of [local];
    [WriteInstance c created] is [create_instance_files]: the directory
    of the instance with its [.env] file, written from [c] at the date
    [created], its [docker-compose.yml] and its [manage.sh]. *)
Inductive compose_command : Type :=
| Ps
| Down
| DownAll
| LogsF
| Build
| UpD
| ExecMigrate.

Inductive network_option : Type :=
| WithSubnet
| Plain.

Inductive effect : Type :=
| Say (what : notice)
| NpmInstall (succeeded : bool)
| Pause (seconds : nat)
| Compose (dirs : list string) (c : compose_command) (returned : Z)
| HealthProbe (healthy : bool)
| Cleanup
| NetworkCreate (how : network_option) (succeeded : bool)
| NetworkPrune
| RemoveTree (dir : string)
| RemoveInstancesDir
| LocalOutsideFunction
| Row (name app_port db_port : string) (running : bool) (url : string)
| WriteInstance (c : config) (created : string).

(** What a list of effects holds: the calls of [npm install] with
    their outcome, the seconds slept, the looks at the health of the
    services; and whether an effect is a call of [docker-compose] or the
    removal of files. *)
Definition npm_calls (evs : list effect) : list bool :=
  omap (fun e => match e with NpmInstall ok => Some ok | _ => None end) evs.

Definition pauses (evs : list effect) : list nat :=
  omap (fun e => match e with Pause n => Some n | _ => None end) evs.

Definition probes (evs : list effect) : list bool :=
  omap (fun e => match e with HealthProbe ok => Some ok | _ => None end) evs.

Definition acts (e : effect) : bool :=
  match e with
  | Compose _ _ _ | RemoveTree _ | RemoveInstancesDir => true
  | _ => false
  end.

Definition written (evs : list effect) : list config :=
  omap (fun e => match e with WriteInstance c _ => Some c | _ => None end) evs.

Definition cancelled (evs : list effect) : bool :=
  existsb (fun e => match e with Say CancelledByUser => true | _ => false end)
          evs.

(** *** [install_dependencies]

    [npm n] tells whether the [n]-th call of [npm install] succeeds.
    [remaining] is the number of turns that the condition
    [$attempt -le $max_attempts] still allows.  The result is the status
    with which the script exits, if it does. *)
Definition max_attempts : nat := 3.

Fixpoint install_attempts (npm : nat -> bool) (remaining attempt : nat)
  : list effect * option Z :=
  match remaining with
  | 0 => ([], None)
  | S remaining' =>
      if npm attempt
      then ([Say (Attempt attempt); NpmInstall true; Say Installed], None)
      else if attempt =? max_attempts
      then ([Say (Attempt attempt); NpmInstall false;
             Say (AttemptFailed attempt); Say GaveUp], Some 1%Z)
      else
        let '(evs, code) := install_attempts npm remaining' (S attempt) in
        (Say (Attempt attempt) :: NpmInstall false
           :: Say (AttemptFailed attempt) :: Pause 5 :: evs, code)
  end.

Definition install_dependencies (package_json : bool) (npm : nat -> bool)
  : list effect * option Z :=
  if negb package_json then ([Say Installing; Say NoPackageJson], Some 1%Z)
  else
    let '(evs, code) := install_attempts npm max_attempts 1 in
    (Say Installing :: evs, code).

(** *** [deploy_instance]

    What Docker answers: whether the shared network exists and whether
    it can be created (with the subnet, without it, without it after a
    prune), whether [Dockerfile.simple] and [node_modules] are there,
    the status of [docker-compose build], [up -d] and [exec ... migrate],
    and whether the [k]-th look at [docker-compose ps] shows
    "Up (healthy)". *)
Record docker : Type := Docker {
  network_exists : bool;
  create_with_subnet : bool;
  create_plain : bool;
  create_after_prune : bool;
  dockerfile_simple : bool;
  node_modules : bool;
  build : Z;
  up : Z;
  healthy : nat -> bool;
  migrate : Z
}.

(** [create_shared_network]; [Some 1] is its [return 1]. *)
Definition create_shared_network (d : docker) : list effect * option Z :=
  if network_exists d then ([Say UsingNetwork], None)
  else if create_with_subnet d
  then ([Say CreatingNetwork; NetworkCreate WithSubnet true;
         Say NetworkCreated], None)
  else if create_plain d
  then ([Say CreatingNetwork; NetworkCreate WithSubnet false;
         Say TryingDefault; NetworkCreate Plain true; Say NetworkCreated],
        None)
  else if create_after_prune d
  then ([Say CreatingNetwork; NetworkCreate WithSubnet false;
         Say TryingDefault; NetworkCreate Plain false; Say TryingCleanup;
         NetworkPrune; NetworkCreate Plain true; Say NetworkCreated], None)
  else ([Say CreatingNetwork; NetworkCreate WithSubnet false;
         Say TryingDefault; NetworkCreate Plain false; Say TryingCleanup;
         NetworkPrune; NetworkCreate Plain false; Say NoNetwork], Some 1%Z).

(** The wait for the services, a loop that goes on while
    [$wait_time -lt $max_wait], with [sleep 5] and [wait_time+=5] in a
    turn that finds the services not healthy.  [turns] bounds the number of turns; [max_wait] of them
    are always enough, since [wait_time] grows in each. *)
Definition max_wait : nat := 2.

Fixpoint wait_for_services (d : docker) (turns k wait_time : nat)
  : list effect * nat :=
  match turns with
  | 0 => ([], wait_time)
  | S turns' =>
      if wait_time <? max_wait then
        if healthy d k then ([HealthProbe true; Say ServicesHealthy], wait_time)
        else
          let '(evs, t) := wait_for_services d turns' (S k) (wait_time + 5) in
          (HealthProbe false :: Say Dot :: Pause 5 :: evs, t)
      else ([], wait_time)
  end.

(** [deploy_instance], for the instance [name].  The result is the
    status with which the script exits, if it does: [deploy_instance]
    is called by [main] as a plain command under [set -e], so its
    [return 1] ends the script. *)
Definition deploy_instance (d : docker) (name : string)
  : list effect * option Z :=
  let '(net, failed) := create_shared_network d in
  let start := Say (Deploying name) :: Cleanup :: net in
  match failed with
  | Some code => (start, Some code)
  | None =>
      if negb (dockerfile_simple d)
      then (start ++ [Say BuildingImage; Say NoDockerfile], Some 1%Z)
      else if negb (node_modules d)
      then (start ++ [Say BuildingImage; Say NoNodeModules], Some 1%Z)
      else if negb (build d =? 0)%Z
      then (start ++ [Say BuildingImage; Compose [name] Build (build d);
                      Say BuildFailed], Some 1%Z)
      else if negb (up d =? 0)%Z
      then (start ++ [Say BuildingImage; Compose [name] Build (build d);
                      Say ImageBuilt; Say StartingServices;
                      Compose [name] UpD (up d); Say StartFailed], Some 1%Z)
      else
        let '(waiting, wait_time) := wait_for_services d max_wait 0 0 in
        (start ++ [Say BuildingImage; Compose [name] Build (build d);
                   Say ImageBuilt; Say StartingServices;
                   Compose [name] UpD (up d); Say ServicesStarted;
                   Say WaitingForServices]
           ++ waiting
           ++ (if max_wait <=? wait_time then [Say MayStillBeStarting] else [])
           ++ [Say RunningMigrations; Pause 10;
               Compose [name] ExecMigrate (migrate d);
               Say (if (migrate d =? 0)%Z then MigrationsCompleted
                    else MigrationMayHaveFailed)],
         None)
  end.

(** *** [collect_instance_config]

    The function asks one question after the other; each prompt reads
    from the same input and can end the script ([exit], or a [read] at
    the end of the input under [set -e]) or hand text to [eval].  A
    script that reads lines and writes notices is a function from the
    lines left to read to the notices written, the result or the way
    the script ended, and the lines still left. *)
Inductive halt : Type :=
| Exit (code : Z)
| Eval (code : string).

Definition script (A : Type) : Type :=
  list string -> list notice * (A + halt) * list string.

#[export] Instance script_ret : MRet script :=
  fun A (a : A) stdin => ([], inl a, stdin).

#[export] Instance script_bind : MBind script :=
  fun A B (f : A -> script B) (m : script A) stdin =>
    match m stdin with
    | (out, inl a, rest) =>
        let '(out', r, rest') := f a rest in (out ++ out', r, rest')
    | (out, inr h, rest) => (out, inr h, rest)
    end.

Definition say (n : notice) : script unit :=
  fun stdin => ([n], inl tt, stdin).

Definition exit {A : Type} (code : Z) : script A :=
  fun stdin => ([], inr (Exit code), stdin).

(** One call of [prompt_with_default] *)
Definition ask (prompt default var_name : string)
  (validator : option (string -> verdict)) : script string :=
  fun stdin =>
    match prompt_with_default prompt default var_name validator stdin with
    | (out, Stored value, rest) => (out, inl value, rest)
    | (out, Evaluated code, rest) => (out, inr (Eval code), rest)
    | (out, EndOfInput, rest) => (out, inr (Exit 1%Z), rest)
    end.

(** What the function finds around it: the instances directory, what
    [openssl] prints at each call, and the sockets in use when the two
    ports are searched and when each chosen port is checked again. *)
Record surroundings : Type := Surroundings {
  existing : instances;
  rand_base64_16 : nat -> string;
  rand_base64_32 : string;
  rand_hex_32 : string;
  while_searching_app : nat -> sockets;
  while_searching_db : nat -> sockets;
  when_checking_app : sockets;
  when_checking_db : sockets
}.

Definition collect_instance_config (e : surroundings) : script config :=
  _ ← say Configuring;
  instance_name ←
    ask "Instance name (3-30 chars, alphanumeric, hyphens, underscores)" ""
        "INSTANCE_NAME" (Some (validate_instance_name (existing e)));
  database_name ←
    ask "Database name" (default_db_name instance_name) "DATABASE_NAME" None;
  company_name ←
    ask "Company/Organization name" "My Company" "COMPANY_NAME" None;
  admin_email ←
    ask "Admin email address" (default_admin_email instance_name)
        "ADMIN_EMAIL" (Some validate_email);
  admin_username ← ask "Admin username" admin_email "ADMIN_USERNAME" None;
  admin_full_name ← ask "Admin full name" "Super Admin" "ADMIN_FULL_NAME" None;
  admin_password ←
    ask "Admin password" (generate_password (rand_base64_16 e 0))
        "ADMIN_PASSWORD" None;
  app_port ←
    ask "Application port"
        (suggested_port (while_searching_app e) MIN_APP_PORT MAX_APP_PORT)
        "APP_PORT" (Some validate_port);
  db_port ←
    ask "Database port"
        (suggested_port (while_searching_db e) MIN_DB_PORT MAX_DB_PORT)
        "DB_PORT" (Some validate_port);
  if negb (is_port_available (when_checking_app e) app_port)
  then _ ← say (NoLongerAvailable app_port); exit 1%Z
  else if negb (is_port_available (when_checking_db e) db_port)
  then _ ← say (NoLongerAvailable db_port); exit 1%Z
  else
    _ ← say Summary;
    mret (Config instance_name database_name company_name admin_email
            admin_username admin_full_name admin_password app_port db_port
            (generate_session_secret (rand_base64_32 e)) (rand_hex_32 e)
            (generate_password (rand_base64_16 e 1))).

(** *** [check_prerequisites] and [verify_deployment_files]

    Which commands are there ([command -v], and [docker compose
    version] for the plugin), and whether the Docker daemon answers
    [docker info]. *)
Record tools : Type := Tools {
  docker_command : bool;
  docker_compose_command : bool;
  docker_compose_plugin : bool;
  openssl_command : bool;
  node_command : bool;
  npm_command : bool;
  docker_info : bool
}.

Definition missing_deps (t : tools) : list string :=
  (if docker_command t then [] else ["Docker"])
  ++ (if negb (docker_compose_command t) && negb (docker_compose_plugin t)
      then ["Docker Compose"] else [])
  ++ (if openssl_command t then [] else ["OpenSSL"])
  ++ (if node_command t then [] else ["Node.js"])
  ++ (if npm_command t then [] else ["npm"]).

Definition check_prerequisites (t : tools) : list effect * option Z :=
  match missing_deps t with
  | [] =>
      if docker_info t
      then ([Say CheckingPrerequisites; Say PrerequisitesMet], None)
      else ([Say CheckingPrerequisites; Say DockerNotRunning], Some 1%Z)
  | names =>
      ([Say CheckingPrerequisites; Say (MissingDependencies names)], Some 1%Z)
  end.

Definition required_files : list string :=
  ["dist/index.js"; "package.json"; "start.js"; "migrations";
   "scripts/migrate.js"].

(** [present f] is the test [-e f]; [index_js_has_size] is the test
    [-s dist/index.js]. *)
Definition verify_deployment_files (present : string -> bool)
  (index_js_has_size : bool) : list effect * option Z :=
  match filter (fun f => present f = false) required_files with
  | [] =>
      if index_js_has_size
      then ([Say VerifyingFiles; Say FilesPresent], None)
      else ([Say VerifyingFiles; Say EmptyBuild], Some 1%Z)
  | names => ([Say VerifyingFiles; Say (MissingFiles names)], Some 1%Z)
  end.

(** *** [main]

    One step after the other; a step that ends the script ends
    [main]. *)
Definition and_then (step : list effect * option Z)
  (rest : list effect * halt) : list effect * halt :=
  match step with
  | (evs, Some code) => (evs, Exit code)
  | (evs, None) => (evs ++ rest.1, rest.2)
  end.

Record machine : Type := Machine {
  commands : tools;
  present : string -> bool;
  index_js_has_size : bool;
  package_json_is_file : bool;
  npm_install : nat -> bool;
  around : surroundings;
  docker_answers : docker;
  now : string
}.

(** The result is [Exit 0] when [main] comes to its end: the script
    has nothing more to do then. *)
Definition main (m : machine) (stdin : list string) : list effect * halt :=
  and_then ([Say Header], None)
  (and_then (check_prerequisites (commands m))
  (and_then (verify_deployment_files (present m) (index_js_has_size m))
  (and_then (install_dependencies (package_json_is_file m) (npm_install m))
     match collect_instance_config (around m) stdin with
     | (out, inr h, _) => (Say <$> out, h)
     | (out, inl c, rest) =>
         and_then (Say <$> out, None)
         (and_then
            (Say DeployQuestion
               :: (if bool_decide ((confirm_deployment rest).1 = Some 0%Z)
                   then [Say CancelledByUser] else []),
             (confirm_deployment rest).1)
         (and_then ([WriteInstance c (now m)], None)
         (and_then (deploy_instance (docker_answers m) (INSTANCE_NAME c))
            ([Say Results; Say Completed], Exit 0%Z))))
     end))).

(** *** The [.env] file of an instance

    What [create_instance_files] writes, line by line, from the values
    gathered (each of them a single line), and what [list_instances]
    reads back from it with [grep "^KEY=" | cut -d'=' -f2]. *)
Definition dot_env (c : config) (created : string) : list string :=
  [ "";
    "DATABASE_URL=postgresql://powerchat:" +:+ DB_PASSWORD c +:+ "@postgres-"
      +:+ INSTANCE_NAME c +:+ ":5432/" +:+ DATABASE_NAME c;
    "POSTGRES_DB=" +:+ DATABASE_NAME c;
    "POSTGRES_USER=powerchat";
    "POSTGRES_PASSWORD=" +:+ DB_PASSWORD c;
    "PGSSLMODE=disable";
    "";
    "NODE_ENV=production";
    "PORT=9000";
    "APP_PORT=" +:+ APP_PORT c;
    "DB_PORT=" +:+ DB_PORT c;
    "";
    "SESSION_SECRET=" +:+ SESSION_SECRET c;
    "ENCRYPTION_KEY=" +:+ ENCRYPTION_KEY c;
    "FORCE_INSECURE_COOKIE=true";
    "";
    "ADMIN_EMAIL=" +:+ ADMIN_EMAIL c;
    "ADMIN_USERNAME=" +:+ ADMIN_USERNAME c;
    "ADMIN_FULL_NAME=" +:+ ADMIN_FULL_NAME c;
    "ADMIN_PASSWORD=" +:+ ADMIN_PASSWORD c;
    "";
    "COMPANY_NAME=" +:+ COMPANY_NAME c;
    "";
    "ENABLE_RUNTIME_PROTECTION=true";
    "ENABLE_CLIENT_PROTECTION=true";
    "ENABLE_CONSOLE_PROTECTION=false";
    "DISABLE_CSP=true";
    "";
    "LOG_LEVEL=INFO";
    "";
    "INSTANCE_NAME=" +:+ INSTANCE_NAME c;
    "CREATED_DATE=" +:+ created ].

(** [grep PATTERN FILE]: the lines that hold a match. *)
Definition grep (pattern : string) (file : list string) : list string :=
  filter (fun line => Bre.selects (Bre.compile pattern) line = true) file.

(** [cut -d'=' -f2]: a line without the delimiter is printed whole; of
    another one, what stands between the first delimiter and the
    second. *)
Fixpoint up_to (d : ascii) (s : string) : string :=
  match s with
  | EmptyString => EmptyString
  | String c s' => if Ascii.eqb c d then EmptyString else String c (up_to d s')
  end.

Fixpoint after (d : ascii) (s : string) : string :=
  match s with
  | EmptyString => EmptyString
  | String c s' => if Ascii.eqb c d then s' else after d s'
  end.

Definition cut_f2 (d : ascii) (line : string) : string :=
  if occurs d line then up_to d (after d line) else line.

(** [$(...)]: the output without its trailing newlines. *)
Fixpoint unlines (lines : list string) : string :=
  match lines with
  | [] => EmptyString
  | line :: rest => line +:+ String "010" (unlines rest)
  end.

Fixpoint strip_newlines (s : string) : string :=
  match s with
  | EmptyString => EmptyString
  | String c s' =>
      match strip_newlines s' with
      | EmptyString =>
          if Ascii.eqb c "010" then EmptyString else String c EmptyString
      | t => String c t
      end
  end.

Definition captured (output : list string) : string :=
  strip_newlines (unlines output).

(** [$(grep "^KEY=" "$env_file" | cut -d'=' -f2)] *)
Definition read_back (key : string) (env_file : list string) : string :=
  captured (cut_f2 "=" <$> grep ("^" +:+ key +:+ "=") env_file).

(** *** The commands on all instances

    What is on the machine: the entries of [$INSTANCES_DIR], the [.env]
    file of an entry if it has one, what [docker-compose ps] prints for
    it, and the status of a call of [docker-compose]. *)
Record host : Type := Host {
  entries : instances;
  env_file : string -> option (list string);
  ps_output : string -> list string;
  compose : list string -> compose_command -> Z
}.

(** "No instances": [$INSTANCES_DIR] is not a directory, or [ls -A]
    prints nothing for it (what [$(...)] keeps of its output is
    empty). *)
Definition no_instances (inst : instances) : bool :=
  match inst with
  | None => true
  | Some dir =>
      is_empty (captured (merge_sort String.le (map_to_list dir).*1))
  end.

(** ["$INSTANCES_DIR"/*]: the names that do not begin with a dot,
    sorted; the pattern itself when there is none. *)
Definition visible (name : string) : bool :=
  match name with
  | String "."%char _ => false
  | _ => true
  end.

Definition glob_star (inst : instances) : list string :=
  match merge_sort String.le
          (filter (fun n => visible n = true)
                  (map_to_list (default ∅ inst)).*1) with
  | [] => ["*"]
  | names => names
  end.

(** [list_instances] *)
Definition row (h : host) (name : string) : list effect :=
  if is_directory (entries h) name then
    match env_file h name with
    | Some env =>
        let app_port := read_back "APP_PORT" env in
        let db_port := read_back "DB_PORT" env in
        [Row name app_port db_port (grep_q "Up" (ps_output h name))
             ("http://localhost:" +:+ app_port)]
    | None => []
    end
  else [].

Definition list_instances (h : host) : list effect :=
  if no_instances (entries h) then [Say Listing; Say NoInstances]
  else Say Listing :: Say TableHeader
         :: (glob_star (entries h) ≫= row h).

(** [local] works in a function only.  At the top level of a script
    bash complains ("local: can only be used in a function") and the
    status of the command is 1, which under [set -e] ends the script.
    The branches of the [case] at the end of the script are at the top
    level. *)
Definition local_builtin (in_function : bool) : Z :=
  if in_function then 0%Z else 1%Z.

Definition top_level : bool := false.

(** The loop of the branch ["status"] *)
Fixpoint status_each (h : host) (names : list string)
  : list effect * option Z :=
  match names with
  | [] => ([], None)
  | name :: rest =>
      if is_directory (entries h) name then
        if (local_builtin top_level =? 0)%Z then
          let rc := compose h [name] Ps in
          if (rc =? 0)%Z then
            let '(evs, code) := status_each h rest in
            (Say (InstanceIs name) :: Compose [name] Ps rc :: evs, code)
          else ([Say (InstanceIs name); Compose [name] Ps rc], Some rc)
        else ([LocalOutsideFunction], Some (local_builtin top_level))
      else status_each h rest
  end.

Definition status_command (h : host) : list effect * Z :=
  if no_instances (entries h) then ([Say ShowingStatus; Say NoInstances], 0%Z)
  else
    match status_each h (glob_star (entries h)) with
    | (evs, Some code) => (Say ShowingStatus :: evs, code)
    | (evs, None) => (Say ShowingStatus :: evs, 0%Z)
    end.

(** The branch ["logs"] *)
Definition logs_command (h : host) : list effect * Z :=
  if no_instances (entries h) then ([Say ShowingLogs; Say NoInstances], 0%Z)
  else if (local_builtin top_level =? 0)%Z then
    let dirs := filter (fun n => is_directory (entries h) n = true)
                       (glob_star (entries h)) in
    match dirs with
    | [] => ([Say ShowingLogs; Say PressCtrlC], 0%Z)
    | _ =>
        ([Say ShowingLogs; Say PressCtrlC; Compose dirs LogsF (compose h dirs LogsF)],
         compose h dirs LogsF)
    end
  else ([Say ShowingLogs; Say PressCtrlC; LocalOutsideFunction],
        local_builtin top_level).

(** The loop of the branch ["stop"] *)
Fixpoint stop_each (h : host) (names : list string)
  : list effect * option Z :=
  match names with
  | [] => ([], None)
  | name :: rest =>
      if is_directory (entries h) name then
        if (local_builtin top_level =? 0)%Z then
          let rc := compose h [name] Down in
          if (rc =? 0)%Z then
            let '(evs, code) := stop_each h rest in
            (Say (Stopping name) :: Compose [name] Down rc :: evs, code)
          else ([Say (Stopping name); Compose [name] Down rc], Some rc)
        else ([LocalOutsideFunction], Some (local_builtin top_level))
      else stop_each h rest
  end.

Definition stop_command (h : host) : list effect * Z :=
  if no_instances (entries h) then ([Say StoppingAll; Say NoInstances], 0%Z)
  else
    match stop_each h (glob_star (entries h)) with
    | (evs, Some code) => (Say StoppingAll :: evs, code)
    | (evs, None) => (Say StoppingAll :: evs ++ [Say AllStopped], 0%Z)
    end.

(** The two loops of the branch ["clean"]: the one that lists the
    instances and the one that removes them. *)
Fixpoint announce_each (h : host) (names : list string)
  : list effect * option Z :=
  match names with
  | [] => ([], None)
  | name :: rest =>
      if is_directory (entries h) name then
        if (local_builtin top_level =? 0)%Z then
          let '(evs, code) := announce_each h rest in
          (Say (ToBeRemoved name) :: evs, code)
        else ([LocalOutsideFunction], Some (local_builtin top_level))
      else announce_each h rest
  end.

Fixpoint remove_each (h : host) (names : list string)
  : list effect * option Z :=
  match names with
  | [] => ([], None)
  | name :: rest =>
      if is_directory (entries h) name then
        if (local_builtin top_level =? 0)%Z then
          let '(evs, code) := remove_each h rest in
          (Say (Removing name)
             :: Compose [name] DownAll (compose h [name] DownAll)
             :: RemoveTree name :: evs, code)
        else ([LocalOutsideFunction], Some (local_builtin top_level))
      else remove_each h rest
  end.

(** What is left of the entries when the directories among [names] are
    gone. *)
Definition without (names : list string) (inst : instances) : instances :=
  (fun dir => filter (fun e => negb (bool_decide (e.1 ∈ names) && e.2) = true) dir)
    <$> inst.

Definition clean_command (h : host) (stdin : list string) : list effect * Z :=
  if no_instances (entries h) then ([Say CleanWarning; Say NoInstances], 0%Z)
  else
    match announce_each h (glob_star (entries h)) with
    | (evs, Some code) => (Say CleanWarning :: Say ToBeRemovedAre :: evs, code)
    | (evs, None) =>
        let said := Say CleanWarning :: Say ToBeRemovedAre :: evs
                      ++ [Say AreYouSure] in
        match stdin with
        | [] => (said, 1%Z)
        | line :: _ =>
            if negb (String.eqb (read_r line) "DELETE ALL")
            then (said ++ [Say CleanupCancelled], 0%Z)
            else
              match remove_each h (glob_star (entries h)) with
              | (evs', Some code) => (said ++ Say RemovingAll :: evs', code)
              | (evs', None) =>
                  (said ++ Say RemovingAll :: evs'
                     ++ (if no_instances
                              (without (glob_star (entries h)) (entries h))
                            && bool_decide (is_Some (entries h))
                         then [RemoveInstancesDir] else [])
                     ++ [Say AllRemoved], 0%Z)
              end
        end
    end.

End Deploy.

(** ** The development server's rule for one-segment paths,
       [vite.config.ts]

    The proxy rule ['^/[a-zA-Z0-9-]+$'] sends a request to the backend
    unless its [bypass] function answers with a path; [None] stands for
    [null]. *)
Module Vite.

(** [String.prototype.startsWith] and [String.prototype.includes] *)
Definition startsWith (s prefix : string) : bool := String.prefix prefix s.

Definition includes (s needle : string) : bool := contains needle s.

Definition appRoutes : list string :=
  ["/auth"; "/login"; "/register"; "/dashboard"; "/admin"; "/settings";
   "/profile"; "/logout"; "/inbox"; "/flows"; "/contacts"; "/calendar";
   "/analytics"; "/campaigns"; "/pipeline"; "/pages"; "/users"; "/billing";
   "/integrations"; "/reports"; "/templates"; "/webhooks"].

(** [req.headers.host] and [req.url] may be missing. *)
Definition bypass (headers_host url : option string) : option string :=
  let host := default EmptyString headers_host in
  let path := default EmptyString url in
  let isSubdomain :=
    includes host ".localhost" && negb (startsWith host "localhost:") in
  let isAppRoute :=
    existsb (String.eqb path) appRoutes
    || existsb (fun route => startsWith path (route +:+ "/")) appRoutes in
  if isSubdomain && negb isAppRoute then None else Some "/index.html".

(** The paths the rule applies to: [^/[a-zA-Z0-9-]+$] *)
Definition rule : Ere.re :=
  Ere.Seq (Ere.Class (Ascii.eqb "/"))
          (Ere.Plus (Ere.Class (fun c => Deploy.alnum c || Ascii.eqb c "-"))).

End Vite.

(** ** A sample machine *)
Module Acme.

(** Port 8080 is listened on, port 9000 is published by a container. *)
Definition busy : Deploy.sockets :=
  Deploy.Sockets
    ["Proto Recv-Q Send-Q Local Address           Foreign Address         State";
     "tcp        0      0 0.0.0.0:8080            0.0.0.0:*               LISTEN"]
    ["PORTS"; "0.0.0.0:9000->9000/tcp"]
    [].

Definition settings : Deploy.config :=
  Deploy.Config "acme" "acme_db" "Acme Ltd" "admin@acme.com" "admin@acme.com"
    "Super Admin" "s3cretPassw0rd" "9001" "5433"
    "0123456789abcdef0123456789abcdef" "00ff" "dbPassw0rd".

(** Nothing listens, no instance exists yet. *)
Definition idle : Deploy.sockets := Deploy.Sockets [] [] [].

Definition around : Deploy.surroundings :=
  Deploy.Surroundings None
    (fun _ => "q83vEjRnZ5mLw0+/Tk1yUA==")
    "3q2+7wABAgMEBQYHCAkKCwwNDg8QERITFBUWFxgZGhs="
    "00ff"
    (fun _ => idle) (fun _ => idle) idle idle.

(** A machine with everything the script asks for: the tools, the
    build, an [npm install] that succeeds at once and a Docker that does
    as it is told. *)
Definition laptop : Deploy.machine :=
  Deploy.Machine
    (Deploy.Tools true true false true true true true)
    (fun _ => true) true true (fun _ => true)
    around
    (Deploy.Docker true false false false true true 0 0 (fun _ => true) 0)
    "Mon Jan  1 00:00:00 UTC 2024".

End Acme.

(** * Properties *)

(** ** The matcher *)

Lemma append_cons (c : ascii) (s t : string) :
  String c s +:+ t = String c (s +:+ t).
Proof. reflexivity. Qed.

Lemma append_empty (t : string) : EmptyString +:+ t = t.
Proof. reflexivity. Qed.

(** Whether a dollar anchors depends on the next two characters at
    most. *)
Lemma closes_colon (s tail : string) :
  Bre.closes (s +:+ String ":" tail) = Bre.closes (s +:+ ":").
Proof. destruct s as [|c [|d s]]; [by destruct tail|done..]. Qed.

(** The expression [NAME:.*] of the [sed] command is the expression
    [NAME:] of the [grep] before it, followed by a starred dot. *)
Lemma pieces_dot_star (s : string) (acc : list Bre.piece) :
  Bre.pieces acc (s +:+ ":.*")
  = Bre.pieces acc (s +:+ ":") ++ [Bre.Piece Bre.Any true].
Proof.
  revert acc. induction s as [|c s IH]; intros acc.
  - reflexivity.
  - rewrite !append_cons. simpl. rewrite (closes_colon s ".*").
    destruct (Ascii.eqb c "*"); [destruct acc|]; [apply IH..|].
    destruct (Ascii.eqb c "$" && Bre.closes (s +:+ ":")); apply IH.
Qed.

Lemma longer_same (n : nat) : Bre.longer (Some n) (Some n) = Some n.
Proof. simpl. f_equal. lia. Qed.

(** A trailing [.*] swallows the rest of the line: the longest match is
    the whole line as soon as there is a match at all. *)
Lemma longest_dot_star (re : list Bre.piece) (s : string) :
  Bre.longest (re ++ [Bre.Piece Bre.Any true]) s
  = match Bre.longest re s with
    | Some _ => Some (String.length s)
    | None => None
    end.
Proof.
  revert s. induction re as [|[a [|]] re IH]; intros s.
  - simpl. induction s as [|c s IHs]; [reflexivity|].
    simpl in *. rewrite IHs. reflexivity.
  - assert (Bre.longest ((Bre.Piece a true :: re) ++ [Bre.Piece Bre.Any true]) s
            = Bre.star a (Bre.longest (re ++ [Bre.Piece Bre.Any true])) s)
      as -> by by destruct a.
    assert (Bre.longest (Bre.Piece a true :: re) s
            = Bre.star a (Bre.longest re) s) as -> by by destruct a.
    induction s as [|c s IHs]; simpl.
    + rewrite IH. simpl. destruct (Bre.longest re ""); reflexivity.
    + rewrite IHs, IH. simpl.
      destruct (Bre.atom_matches a c); simpl.
      * destruct (Bre.star a (Bre.longest re) s) as [n|]; simpl;
          destruct (Bre.longest re (String c s)) as [m|]; simpl;
          try reflexivity; f_equal; lia.
      * destruct (Bre.longest re (String c s)); reflexivity.
  - destruct a as [d| |]; simpl.
    + destruct s as [|c s]; [reflexivity|].
      rewrite IH. destruct (Ascii.eqb d c); [|reflexivity].
      destruct (Bre.longest re s); reflexivity.
    + destruct s as [|c s]; [reflexivity|].
      rewrite IH. destruct (Bre.longest re s); reflexivity.
    + destruct s as [|c s]; [|reflexivity]. by rewrite IH.
Qed.

Lemma substring_all (s : string) : String.substring 0 (String.length s) s = s.
Proof. induction s as [|c s IH]; simpl; [reflexivity|]. by rewrite IH. Qed.

Lemma string_drop_all (s : string) : string_drop (String.length s) s = EmptyString.
Proof. induction s as [|c s IH]; simpl; [reflexivity|]. exact IH. Qed.

Lemma substring_none (s : string) : String.substring 0 0 s = EmptyString.
Proof. destruct s; reflexivity. Qed.

Lemma append_empty_r (s : string) : s +:+ EmptyString = s.
Proof. induction s as [|c s IH]; [reflexivity|]. rewrite append_cons. by rewrite IH. Qed.

(** What the [sed] command of [mark_migration_applied] does to a line. *)
Lemma sed_rewrites_whole_line (name replacement line : string) :
  sed_s ("^" +:+ name +:+ ":.*") replacement line
  = if begins_record name line then expand replacement line else line.
Proof.
  unfold sed_s, begins_record, Bre.selects.
  rewrite !append_cons, !append_empty. unfold Bre.compile, Bre.find. simpl.
  rewrite pieces_dot_star, longest_dot_star.
  destruct (Bre.longest (Bre.pieces [] (name +:+ ":")) line) as [n|]; simpl.
  - rewrite substring_none, substring_all, string_drop_all.
    rewrite append_empty, append_empty_r. reflexivity.
  - reflexivity.
Qed.

(** ** The status file *)

Lemma grep_q_begins (name : string) (lines : list string) :
  grep_q ("^" +:+ name +:+ ":") lines = existsb (begins_record name) lines.
Proof. reflexivity. Qed.

Lemma existsb_false_lookup {A} (f : A -> bool) (l : list A) (i : nat) (x : A) :
  existsb f l = false -> l !! i = Some x -> f x = false.
Proof.
  revert i. induction l as [|y l IH]; intros i Hex Hi; [done|].
  simpl in Hex. apply orb_false_iff in Hex as [Hy Hl].
  destruct i as [|i]; simpl in Hi; [by simplify_eq|]. by eapply IH.
Qed.

(** [sed -i] with the expression that [mark_migration_applied] makes of
    a name. *)
Lemma sed_i_record (name replacement : string) (lines : list string) :
  sed_i ("^" +:+ name +:+ ":.*") replacement lines
  = if Bre.posix ("^" +:+ name +:+ ":.*")
    then ((fun line => if begins_record name line
                       then expand replacement line else line) <$> lines, 0%Z)
    else (lines, 1%Z).
Proof.
  unfold sed_i. destruct (Bre.posix _); [|done]. f_equal.
  apply list_fmap_ext. intros i line _. apply sed_rewrites_whole_line.
Qed.

(** The three ways [mark_migration_applied] can go: the record is
    added, the lines that [^NAME:] matches are rewritten, or [sed]
    refuses the expression and the file stays as it is. *)
Lemma mark_unfold (name ts : string) (st : status_file) :
  mark_migration_applied name ts st
  = if existsb (begins_record name) (ledger st)
    then if Bre.posix ("^" +:+ name +:+ ":.*")
         then (Some ((fun line => if begins_record name line
                                  then expand (record name ts) line
                                  else line) <$> ledger st), Some 0%Z)
         else (Some (ledger st), Some 1%Z)
    else (Some (ledger st ++ [record name ts]), None).
Proof.
  unfold mark_migration_applied. rewrite grep_q_begins, sed_i_record.
  destruct (existsb _ _); [|done]. by destruct (Bre.posix _).
Qed.

(** [mark_migration_applied] always leaves a status file. *)
Lemma mark_creates (name ts : string) (st : status_file) :
  is_Some (mark_migration_applied name ts st).1.
Proof.
  rewrite mark_unfold.
  destruct (existsb _ _); [destruct (Bre.posix _)|]; simpl; eauto.
Qed.

(** The status of [sed], when it was called, is 0 or 1. *)
Lemma mark_status (name ts : string) (st : status_file) :
  let sed := (mark_migration_applied name ts st).2 in
  sed = None \/ sed = Some 0%Z \/ sed = Some 1%Z.
Proof.
  rewrite mark_unfold.
  destruct (existsb _ _); [destruct (Bre.posix _)|]; simpl; auto.
Qed.

(** It keeps every line at its place, rewritten if [^NAME:] matches it
    and [sed] takes the expression. *)
Lemma mark_lookup (name ts : string) (lines : list string) (i : nat)
  (line : string) :
  lines !! i = Some line ->
  lines_of (mark_migration_applied name ts (Some lines)).1 !! i
  = Some (if begins_record name line && Bre.posix ("^" +:+ name +:+ ":.*")
          then expand (record name ts) line
          else line).
Proof.
  intros Hi. rewrite mark_unfold. cbn [ledger].
  destruct (existsb (begins_record name) lines) eqn:Hex.
  - destruct (Bre.posix _); simpl.
    + rewrite list_lookup_fmap, Hi. simpl. by rewrite andb_true_r.
    + by rewrite andb_false_r.
  - rewrite (existsb_false_lookup _ _ _ _ Hex Hi). simpl.
    by apply lookup_app_l_Some.
Qed.

Lemma lines_of_Some (lines : list string) : lines_of (Some lines) = lines.
Proof. reflexivity. Qed.

(** It never makes the file shorter. *)
Lemma mark_length (name ts : string) (st : status_file) :
  length (lines_of st)
  <= length (lines_of (mark_migration_applied name ts st).1).
Proof.
  rewrite mark_unfold.
  destruct (existsb _ _); [destruct (Bre.posix _)|]; simpl;
    rewrite ?length_fmap, ?length_app; destruct st; simpl; lia.
Qed.

(** ** The migration loop *)

Section Turn.
Context {srv : Server}.
Implicit Types (env : environment) (dir : gmap string entry) (w : world).

(** The five ways a turn of the loop can go. *)
Lemma turn_inv env dir name w evs w' code :
  turn env dir name w = (evs, w', code) ->
  (evs = [] /\ w' = w /\ code = None /\ is_file dir name = false)
  \/ (evs = [Echo (AlreadyApplied name)] /\ w' = w /\ code = None
      /\ is_migration_applied name (status w) = true
      /\ is_file dir name = true)
  \/ (exists file d sed,
        dir !! name = Some file /\ regular file = true
        /\ is_migration_applied name (status w) = false
        /\ psql_f env file (db w) = (0%Z, d)
        /\ (mark_migration_applied name (date env (clock_reads w))
              (status w)).2 = sed
        /\ (sed = None \/ sed = Some 0%Z)
        /\ evs = [Echo (Applying name); Echo UsingDatabase; Psql name 0]
                 ++ match sed with
                    | Some rc => [Sed name rc]
                    | None => []
                    end
                 ++ [Echo (Marked name); Echo (AppliedSuccessfully name)]
        /\ w' = World d
                  (mark_migration_applied name (date env (clock_reads w))
                     (status w)).1
                  (S (clock_reads w))
        /\ code = None)
  \/ (exists file rc d,
        dir !! name = Some file /\ regular file = true
        /\ is_migration_applied name (status w) = false
        /\ psql_f env file (db w) = (rc, d) /\ rc <> 0%Z
        /\ evs = [Echo (Applying name); Echo UsingDatabase; Psql name rc;
                  Echo (MigrationFailed name); Echo ConnectionDetails]
        /\ w' = World d (status w) (clock_reads w)
        /\ code = Some 1%Z)
  \/ (exists file d,
        dir !! name = Some file /\ regular file = true
        /\ is_migration_applied name (status w) = false
        /\ psql_f env file (db w) = (0%Z, d)
        /\ mark_migration_applied name (date env (clock_reads w)) (status w)
           = (Some (ledger (status w)), Some 1%Z)
        /\ existsb (begins_record name) (ledger (status w)) = true
        /\ Bre.posix ("^" +:+ name +:+ ":.*") = false
        /\ evs = [Echo (Applying name); Echo UsingDatabase; Psql name 0;
                  Sed name 1]
        /\ w' = World d (Some (ledger (status w))) (S (clock_reads w))
        /\ code = Some 1%Z).
Proof.
  unfold turn, is_file. intros Hturn.
  destruct (dir !! name) as [file|] eqn:Hfile;
    [|injection Hturn as <- <- <-; by left].
  destruct (regular file) eqn:Hreg;
    [|injection Hturn as <- <- <-; by left].
  destruct (is_migration_applied name (status w)) eqn:Happ;
    cbn [negb] in Hturn;
    [injection Hturn as <- <- <-; by right; left|].
  destruct (psql_f env file (db w)) as [rc d] eqn:Hpsql.
  destruct (rc =? 0)%Z eqn:Hrc.
  - apply Z.eqb_eq in Hrc as ->.
    pose proof (mark_unfold name (date env (clock_reads w)) (status w))
      as Hmark.
    destruct (mark_migration_applied _ _ _) as [st sed] eqn:Hm.
    destruct (existsb _ _) eqn:Hex; [destruct (Bre.posix _) eqn:Hposix|];
      injection Hmark as -> ->; simpl in Hturn;
      injection Hturn as <- <- <-.
    + right; right; left. exists file, d, (Some 0%Z).
      split_and!; try done. by right.
    + do 4 right. by exists file, d.
    + right; right; left. exists file, d, None.
      split_and!; try done. by left.
  - apply Z.eqb_neq in Hrc. injection Hturn as <- <- <-.
    right; right; right; left. by exists file, rc, d.
Qed.
End Turn.

(** The cases of a turn, in the order of [turn_inv]: no file, already
    applied, applied, [psql] failed, [sed] failed. *)
Ltac turn_cases H :=
  apply turn_inv in H
    as [(-> & -> & -> & Hfile)
       |[(-> & -> & -> & Happ & Hfile)
        |[(file & d & sed & Hin & Hreg & Happ & Hpsql & Hsed & Hok
           & -> & -> & ->)
         |[(file & rc & d & Hin & Hreg & Happ & Hpsql & Hrc & -> & -> & ->)
          |(file & d & Hin & Hreg & Happ & Hpsql & Hmark & Hex & Hposix
            & -> & -> & ->)]]]].

Section Loop.
Context {srv : Server}.
Implicit Types (env : environment) (dir : gmap string entry) (w : world).

Lemma for_each_nil env dir w : for_each env dir [] w = ([], w, None).
Proof. reflexivity. Qed.

Lemma for_each_cons env dir name rest w :
  for_each env dir (name :: rest) w
  = match turn env dir name w with
    | (evs, w', Some code) => (evs, w', Some code)
    | (evs, w', None) =>
        (evs ++ (for_each env dir rest w').1.1,
         (for_each env dir rest w').1.2,
         (for_each env dir rest w').2)
    end.
Proof.
  simpl. destruct (turn env dir name w) as [[evs w'] [code|]]; [done|].
  by destruct (for_each env dir rest w') as [[??]?].
Qed.

Lemma appliedNames_app (evs evs' : list event) :
  appliedNames (evs ++ evs') = appliedNames evs ++ appliedNames evs'.
Proof. apply omap_app. Qed.

(** A line of the status file stays where it is and as it is through the
    loop, unless the expression of an applied name matches it. *)
Lemma for_each_keeps_line env dir names w i line :
  lines_of (status w) !! i = Some line ->
  (forall n, n ∈ appliedNames (for_each env dir names w).1.1 ->
             begins_record n line = false) ->
  lines_of (status (for_each env dir names w).1.2) !! i = Some line.
Proof.
  revert w. induction names as [|name rest IH]; intros w Hi Hnone; [done|].
  rewrite for_each_cons in Hnone |- *.
  destruct (turn env dir name w) as [[evs w'] code] eqn:Hturn.
  turn_cases Hturn; simpl in *; try done.
  - by apply IH.
  - by apply IH.
  - rewrite appliedNames_app in Hnone.
    assert (appliedNames
              (match sed with Some rc => [Sed name rc] | None => [] end
               ++ [Echo (Marked name); Echo (AppliedSuccessfully name)])
            = [name]) as Hname by by destruct sed.
    apply IH.
    + simpl. destruct (status w) as [lines|] eqn:Hst; [|done]. simpl in Hi.
      rewrite (mark_lookup _ _ _ _ _ Hi).
      rewrite Hnone; [done|]. rewrite Hname. set_solver.
    + intros n Hn. apply Hnone. rewrite Hname. set_solver.
  - by destruct (status w).
Qed.

(** The loop never makes the status file shorter. *)
Lemma for_each_length env dir names w :
  length (lines_of (status w))
  <= length (lines_of (status (for_each env dir names w).1.2)).
Proof.
  revert w. induction names as [|name rest IH]; intros w; [done|].
  rewrite for_each_cons.
  destruct (turn env dir name w) as [[evs w'] code] eqn:Hturn.
  turn_cases Hturn; simpl; try done.
  - etrans; [|apply IH]. simpl. apply mark_length.
  - destruct (status w); simpl; lia.
Qed.

(** *** The wait loop *)

Lemma rounds_S (n : nat) : rounds (S n) = waiting_round ++ rounds n.
Proof. reflexivity. Qed.

Lemma until_pg_isready_spec env fuel k :
  match until_pg_isready env fuel k with
  | (evs, true) =>
      exists n, n < fuel /\ pg_isready env (k + n) = true
        /\ (forall j, j < n -> pg_isready env (k + j) = false)
        /\ evs = rounds n ++ [Probe true]
  | (evs, false) =>
      (forall j, j < fuel -> pg_isready env (k + j) = false)
      /\ evs = rounds fuel
  end.
Proof.
  revert k. induction fuel as [|fuel IH]; intros k; simpl.
  - split; [lia|done].
  - destruct (pg_isready env k) eqn:Hk.
    + exists 0. rewrite Nat.add_0_r. split_and!; [lia|done|lia|done].
    + specialize (IH (S k)).
      destruct (until_pg_isready env fuel (S k)) as [evs [|]].
      * destruct IH as (n & Hn & Hup & Hdown & ->).
        exists (S n). split_and!; [lia|by rewrite Nat.add_succ_r| |done].
        intros [|j] Hj; [by rewrite Nat.add_0_r|].
        rewrite Nat.add_succ_r. apply Hdown. lia.
      * destruct IH as [Hdown ->]. split; [|done].
        intros [|j] Hj; [by rewrite Nat.add_0_r|].
        rewrite Nat.add_succ_r. apply Hdown. lia.
Qed.

Lemma executed_rounds (n : nat) : executed (rounds n) = [].
Proof. induction n as [|n IH]; [done|]. by rewrite rounds_S. Qed.

Lemma executed_app (evs evs' : list event) :
  executed (evs ++ evs') = executed evs ++ executed evs'.
Proof. apply omap_app. Qed.

Lemma handled_app (evs evs' : list event) :
  handled (evs ++ evs') = handled evs ++ handled evs'.
Proof. apply omap_app. Qed.

Lemma handled_rounds (n : nat) : handled (rounds n) = [].
Proof. induction n as [|n IH]; [done|]. by rewrite rounds_S. Qed.

(** The entrypoint, by cases on the wait loop. *)
Lemma entrypoint_unfold env fuel w :
  match until_pg_isready env fuel 0 with
  | (evs, false) =>
      entrypoint env fuel w = (Echo WaitingForPostgres :: evs, w, StillWaiting)
  | (evs, true) =>
      entrypoint env fuel w
      = (Echo WaitingForPostgres :: evs ++ Echo PostgresIsUp
           :: (run_migrations env w).1.1
           ++ match (run_migrations env w).2 with
              | Some _ => []
              | None => [Echo Starting]
              end,
         (run_migrations env w).1.2,
         match (run_migrations env w).2 with
         | Some code => Exited code
         | None => StartedApplication
         end)
  end.
Proof.
  unfold entrypoint.
  destruct (until_pg_isready env fuel 0) as [evs [|]]; [|done].
  destruct (run_migrations env w) as [[evs' w'] [code|]]; simpl; [|done].
  by rewrite app_nil_r.
Qed.

Lemma run_migrations_unfold env w :
  run_migrations env w
  = match migrations env with
    | Some dir =>
        let r := for_each env dir (glob_star_sql dir) w in
        (Echo Checking :: r.1.1
           ++ match r.2 with Some _ => [] | None => [Echo AllProcessed] end,
         r.1.2, r.2)
    | None => ([Echo Checking; Echo NoMigrationsDirectory], w, None)
    end.
Proof.
  unfold run_migrations. destruct (migrations env) as [dir|]; [|done].
  destruct (for_each env dir (glob_star_sql dir) w) as [[evs w'] [code|]];
    simpl; [|done].
  by rewrite app_nil_r.
Qed.

(** What a turn that applies a migration has to show of [psql] and
    [sed]. *)
Lemma applied_turn_events (name : string) (sed : option Z) (e : event) :
  sed = None \/ sed = Some 0%Z ->
  e ∈ [Echo (Applying name); Echo UsingDatabase; Psql name 0]
      ++ match sed with Some rc => [Sed name rc] | None => [] end
      ++ [Echo (Marked name); Echo (AppliedSuccessfully name)] ->
  (forall n rc, e = Psql n rc -> rc = 0%Z)
  /\ (forall n rc, e = Sed n rc -> rc = 0%Z).
Proof.
  intros [-> | ->] He; simpl in He;
    repeat (apply elem_of_cons in He as [->|He];
            [split; intros n rc ?; by simplify_eq|]);
    by apply elem_of_nil in He.
Qed.

(** The exit status of the loop tells whether [psql] or [sed] failed. *)
Lemma for_each_exit env dir names w :
  match (for_each env dir names w).2 with
  | None =>
      (forall n rc, Psql n rc ∈ (for_each env dir names w).1.1 -> rc = 0%Z)
      /\ (forall n rc, Sed n rc ∈ (for_each env dir names w).1.1 -> rc = 0%Z)
  | Some code =>
      code = 1%Z
      /\ ((exists n rc, Psql n rc ∈ (for_each env dir names w).1.1 /\ rc <> 0%Z)
          \/ (exists n rc,
                Sed n rc ∈ (for_each env dir names w).1.1 /\ rc <> 0%Z))
  end.
Proof.
  revert w. induction names as [|name rest IH]; intros w.
  { simpl. split; intros n rc Hin; by apply elem_of_nil in Hin. }
  rewrite for_each_cons.
  destruct (turn env dir name w) as [[evs w'] code] eqn:Hturn.
  specialize (IH w').
  turn_cases Hturn; cbn [fst snd].
  - done.
  - destruct (for_each env dir rest w).2 as [code|].
    + destruct IH as (-> & [(n & rc & Hn & Hne)|(n & rc & Hn & Hne)]);
        (split; [done|]); [left|right]; exists n, rc; (split; [|done]);
        set_solver.
    + destruct IH as [IHp IHs].
      split; intros n rc Hn; [apply (IHp n)|apply (IHs n)]; set_solver.
  - pose proof (applied_turn_events name sed) as Hturn.
    destruct (for_each env dir rest _).2 as [code|].
    + destruct IH as (-> & [(n & rc & Hn & Hne)|(n & rc & Hn & Hne)]);
        (split; [done|]); [left|right]; exists n, rc; (split; [|done]);
        apply elem_of_app; by right.
    + destruct IH as [IHp IHs].
      split; intros n rc [Hn|Hn]%elem_of_app;
        [by apply (proj1 (Hturn _ Hok Hn) n)|by apply (IHp n)
        |by apply (proj2 (Hturn _ Hok Hn) n)|by apply (IHs n)].
  - split; [done|]. left. exists name, rc. split; [|done]. set_solver.
  - split; [done|]. right. exists name, 1%Z. split; [|done]. set_solver.
Qed.

(** A [sed] that fails has refused the expression made of the name. *)
Lemma for_each_sed env dir names w m returned :
  Sed m returned ∈ (for_each env dir names w).1.1 -> returned <> 0%Z ->
  returned = 1%Z /\ Bre.posix ("^" +:+ m +:+ ":.*") = false.
Proof.
  revert w. induction names as [|name rest IH]; intros w.
  { simpl. by intros ?%elem_of_nil. }
  rewrite for_each_cons.
  destruct (turn env dir name w) as [[evs w'] code] eqn:Hturn.
  specialize (IH w').
  turn_cases Hturn; cbn [fst snd].
  - done.
  - intros [?|Hm]%elem_of_cons; [done|]. by apply IH.
  - intros [Hm|Hm]%elem_of_app; [|by apply IH]. intros Hne.
    by destruct (proj2 (applied_turn_events name sed _ Hok Hm) m returned).
  - intros Hm. repeat (apply elem_of_cons in Hm as [?|Hm]; [done|]).
    by apply elem_of_nil in Hm.
  - intros Hm.
    repeat (apply elem_of_cons in Hm as [Hm|Hm]; [by simplify_eq|]).
    by apply elem_of_nil in Hm.
Qed.

Lemma run_migrations_sed env w n rc :
  Sed n rc ∈ (run_migrations env w).1.1 -> rc <> 0%Z ->
  rc = 1%Z /\ Bre.posix ("^" +:+ n +:+ ":.*") = false.
Proof.
  rewrite run_migrations_unfold.
  destruct (migrations env) as [dir|]; simpl.
  - intros [?|Hin]%elem_of_cons; [done|].
    apply elem_of_app in Hin as [Hin|Hin]; [by eapply for_each_sed|].
    destruct (for_each env dir (glob_star_sql dir) w).2;
      [by apply elem_of_nil in Hin|by apply list_elem_of_singleton in Hin].
  - intros Hin. repeat (apply elem_of_cons in Hin as [?|Hin]; [done|]).
    by apply elem_of_nil in Hin.
Qed.
End Loop.

(** ** The entrypoint and the runner *)

Section Entrypoint.
Context {srv : Server}.
Implicit Types (env : environment) (dir : gmap string entry) (w : world).

Lemma run_migrations_exit env w :
  match (run_migrations env w).2 with
  | None =>
      (forall n rc, Psql n rc ∈ (run_migrations env w).1.1 -> rc = 0%Z)
      /\ (forall n rc, Sed n rc ∈ (run_migrations env w).1.1 -> rc = 0%Z)
  | Some code =>
      code = 1%Z
      /\ ((exists n rc, Psql n rc ∈ (run_migrations env w).1.1 /\ rc <> 0%Z)
          \/ (exists n rc, Sed n rc ∈ (run_migrations env w).1.1 /\ rc <> 0%Z))
  end.
Proof.
  rewrite run_migrations_unfold.
  destruct (migrations env) as [dir|]; simpl.
  - pose proof (for_each_exit env dir (glob_star_sql dir) w) as Hexit.
    destruct (for_each env dir (glob_star_sql dir) w).2 as [code|].
    + destruct Hexit as (-> & [(n & rc & Hn & Hne)|(n & rc & Hn & Hne)]);
        (split; [done|]); [left|right]; exists n, rc; (split; [|done]);
        rewrite app_nil_r; by apply elem_of_cons; right.
    + destruct Hexit as [Hp Hs].
      split; intros n rc Hin; [apply (Hp n)|apply (Hs n)];
        (apply elem_of_cons in Hin as [?|Hin]; [done|]);
        (apply elem_of_app in Hin as [?|Hin]; [done|]);
        by apply list_elem_of_singleton in Hin.
  - split; intros n rc Hin;
      repeat (apply elem_of_cons in Hin as [?|Hin]; [done|]);
      by apply elem_of_nil in Hin.
Qed.

(** The wait loop calls neither [psql] nor [sed]. *)
Lemma not_elem_of_rounds n (e : event) :
  (exists name rc, e = Psql name rc \/ e = Sed name rc) -> e ∉ rounds n.
Proof.
  intros (name & rc & He).
  induction n as [|n IH]; [by apply not_elem_of_nil|].
  rewrite rounds_S. intros Hin.
  repeat (apply elem_of_cons in Hin as [->|Hin]; [by destruct He|]). done.
Qed.

(** The entrypoint is still in its wait loop after [fuel] attempts
    exactly when all of them failed. *)
Lemma leaves_wait_loop env fuel w :
  ((entrypoint env fuel w).2 = StillWaiting
   <-> forall k, k < fuel -> pg_isready env k = false)
  /\ ((entrypoint env fuel w).2 <> StillWaiting ->
      exists k, k < fuel /\ pg_isready env k = true).
Proof.
  pose proof (entrypoint_unfold env fuel w) as Hrun.
  pose proof (until_pg_isready_spec env fuel 0) as Hwait.
  destruct (until_pg_isready env fuel 0) as [evs [|]]; rewrite Hrun; simpl.
  - destruct Hwait as (n & Hn & Hup & _). split.
    + split; [by destruct (run_migrations env w).2|].
      intros Hall. rewrite Hall in Hup; [done|lia].
    + intros _. by exists n.
  - destruct Hwait as [Hdown _]. by split.
Qed.

(** C9. While [pg_isready] fails the entrypoint stays in its wait loop,
    whatever the number of attempts it is given: it is still waiting
    after [fuel] attempts exactly when all of them failed, and then it
    has done nothing but probe and sleep two seconds, [fuel] times over,
    and the world is untouched.  It leaves the loop only at the first
    attempt that finds the server up, after as many two-second sleeps as
    there were failed attempts, and everything it hands to [psql] comes
    after that successful probe. *)
Theorem wait_for_postgres env fuel w :
  let r := entrypoint env fuel w in
  (r.2 = StillWaiting <-> forall k, k < fuel -> pg_isready env k = false)
  /\ (r.2 = StillWaiting ->
      r.1.1 = Echo WaitingForPostgres :: rounds fuel /\ r.1.2 = w)
  /\ (r.2 <> StillWaiting ->
      exists n rest,
        n < fuel /\ pg_isready env n = true
        /\ (forall k, k < n -> pg_isready env k = false)
        /\ r.1.1 = Echo WaitingForPostgres :: rounds n ++ Probe true :: rest
        /\ executed r.1.1 = executed rest).
Proof.
  intros r. subst r.
  pose proof (entrypoint_unfold env fuel w) as Hrun.
  pose proof (until_pg_isready_spec env fuel 0) as Hwait.
  destruct (until_pg_isready env fuel 0) as [evs [|]]; rewrite Hrun; simpl.
  - destruct Hwait as (n & Hn & Hup & Hdown & ->).
    assert (match (run_migrations env w).2 with
            | Some code => Exited code
            | None => StartedApplication
            end <> StillWaiting) as Hgone
      by by destruct (run_migrations env w).2.
    split_and!.
    + split; [done|]. intros Hall. rewrite Hall in Hup; [done|lia].
    + done.
    + intros _. eexists n, _. split_and!; [done|done|done| |].
      * by rewrite <- app_assoc.
      * rewrite <- app_assoc. simpl.
        by rewrite (executed_app (rounds n)), executed_rounds.
  - destruct Hwait as [Hdown ->]. split_and!; done.
Qed.

(** What the entrypoint hands to [psql] and [sed], it does in the
    loop. *)
Lemma step_in_entrypoint env fuel w (e : event) :
  (exists name rc, e = Psql name rc \/ e = Sed name rc) ->
  e ∈ (entrypoint env fuel w).1.1
  <-> (entrypoint env fuel w).2 <> StillWaiting
      /\ e ∈ (run_migrations env w).1.1.
Proof.
  intros He.
  pose proof (entrypoint_unfold env fuel w) as Hrun.
  pose proof (until_pg_isready_spec env fuel 0) as Hwait.
  destruct (until_pg_isready env fuel 0) as [evs [|]]; rewrite Hrun; simpl.
  - destruct Hwait as (k & _ & _ & _ & ->).
    pose proof (not_elem_of_rounds k e He) as Hrounds.
    assert ((match (run_migrations env w).2 with
             | Some code => Exited code
             | None => StartedApplication
             end) <> StillWaiting) as Hgone
      by by destruct (run_migrations env w).2.
    assert (e ∉ match (run_migrations env w).2 with
                | Some _ => []
                | None => [Echo Starting]
                end) as Htail.
    { destruct He as (name & rc & [-> | ->]);
        (destruct (run_migrations env w).2; [apply not_elem_of_nil|]);
        by intros ?%list_elem_of_singleton. }
    repeat (rewrite elem_of_cons || rewrite elem_of_app).
    rewrite elem_of_nil.
    destruct He as (name & rc & [-> | ->]); naive_solver.
  - destruct Hwait as [_ ->]. split; [|by intros [? _]].
    intros Hin. apply elem_of_cons in Hin as [->|Hin].
    + by destruct He as (name & rc & [?|?]).
    + by apply not_elem_of_rounds in Hin.
Qed.

(** The look-ups that follow [COMMIT]: they leave the session as it is,
    and all of them are answered or the first that is not ends them. *)
Lemma send_verification (d : database) :
  let r := send verification (Session d Idle) in
  r.1.2 = Session d Idle
  /\ r.2 = forallb (fun what => answers what d)
             ["columns"; "indexes"; "functions"; "triggers"]
  /\ forall e, e ∈ r.1.1 -> exists what accepted, e = Query (SELECT what) accepted.
Proof.
  unfold verification. simpl. unfold seen. simpl.
  destruct (answers "columns" d), (answers "indexes" d),
    (answers "functions" d), (answers "triggers" d); simpl;
    (split_and!; [done..|]); intros e He;
    repeat (apply elem_of_cons in He as [->|He]; [by eexists _, _|]);
    by apply elem_of_nil in He.
Qed.

(** They end with the answer "no" exactly when one of them is
    rejected. *)
Lemma send_rejection (d : database) :
  let r := send verification (Session d Idle) in
  if r.2 then ~ exists what, Query (SELECT what) false ∈ r.1.1
  else exists what, Query (SELECT what) false ∈ r.1.1.
Proof.
  unfold verification. simpl. unfold seen. simpl.
  destruct (answers "columns" d), (answers "indexes" d),
    (answers "functions" d), (answers "triggers" d); simpl;
    first [by exists "columns"; repeat constructor
          |by exists "indexes"; repeat constructor
          |by exists "functions"; repeat constructor
          |by exists "triggers"; repeat constructor
          |idtac];
    intros (what & Hin);
    repeat (apply elem_of_cons in Hin as [?|Hin]; [done|]);
    by apply elem_of_nil in Hin.
Qed.

Lemma client_query_rollback (s : session) :
  client_query ROLLBACK s
  = (Session (committed s) Idle, answers "ROLLBACK" (seen s)).
Proof. unfold client_query. by destruct (txn s). Qed.

(** The runner, by cases. *)
Lemma runner_unfold env w :
  runUnreadMessageMigration env w
  = if negb (connects env) then ([Echo ScriptFailed], w, 1%Z)
    else
      match migrations env ≫= (fun dir => dir !! unread_migration) with
      | None => ([Echo FileNotFound], w, 1%Z)
      | Some file =>
          let caught d :=
            [Query ROLLBACK (answers "ROLLBACK" d);
             Echo (if answers "ROLLBACK" d then RunnerFailed
                   else ScriptFailed)] in
          let unchanged := World (db w) (status w) (clock_reads w) in
          if regular file && readable file then
            if answers "BEGIN" (db w) then
              match in_order (script file) (db w) with
              | Some d' =>
                  if answers "COMMIT" d' then
                    let v := send verification (Session d' Idle) in
                    (Query BEGIN true :: Query (SCRIPT (script file)) true
                       :: Query COMMIT true
                       :: v.1.1 ++ (if v.2 then [] else caught d'),
                     World d' (status w) (clock_reads w),
                     if v.2 then 0%Z else 1%Z)
                  else
                    ([Query BEGIN true; Query (SCRIPT (script file)) true;
                      Query COMMIT false] ++ caught (db w), unchanged, 1%Z)
              | None =>
                  ([Query BEGIN true; Query (SCRIPT (script file)) false]
                     ++ caught (db w), unchanged, 1%Z)
              end
            else ([Query BEGIN false] ++ caught (db w), unchanged, 1%Z)
          else (caught (db w), unchanged, 1%Z)
      end.
Proof.
  assert (forall (s : session) (evs : list event) (code : Z),
            (let '(evs', s'', undone) := send [ROLLBACK] s in
             (evs ++ evs'
                ++ [Echo (if undone then RunnerFailed else ScriptFailed)],
              World (committed s'') (status w) (clock_reads w), code))
            = (evs ++ [Query ROLLBACK (answers "ROLLBACK" (seen s));
                       Echo (if answers "ROLLBACK" (seen s)
                             then RunnerFailed else ScriptFailed)],
               World (committed s) (status w) (clock_reads w), code))
    as Hcatch.
  { intros s evs code. cbn [send]. rewrite client_query_rollback.
    by destruct (answers "ROLLBACK" (seen s)). }
  unfold runUnreadMessageMigration.
  destruct (negb (connects env)); [done|].
  destruct (migrations env ≫= _) as [file|]; [|done].
  destruct (regular file && readable file); cbn zeta;
    [|by rewrite Hcatch].
  remember (send [ROLLBACK]) as undo eqn:Hundo.
  cbn [send]. unfold client_query at 1. cbn [txn seen committed].
  destruct (answers "BEGIN" (db w)); [|by rewrite Hcatch].
  unfold client_query at 1. cbn [txn seen committed].
  destruct (in_order (script file) (db w)) as [d'|];
    [|by rewrite Hcatch].
  unfold client_query at 1. cbn [txn seen committed].
  destruct (answers "COMMIT" d'); [|by rewrite Hcatch].
  destruct (send_verification d') as (Hs & _ & _).
  destruct (send verification (Session d' Idle)) as [[evs s'] ok].
  simpl in Hs. subst s'. cbn [fst snd].
  destruct ok; [by rewrite app_nil_r|].
  rewrite Hcatch. by rewrite <- !app_comm_cons.
Qed.

(** C8, as the code has it, for the names the matcher speaks for.  The
    entrypoint exits, with status 1, exactly when [psql] returned a
    status other than 0 for a migration, or [sed] did for the record of
    a migration just applied, which it does when it refuses the
    expression made of the name; it never exits for a missing
    migrations directory; while the server is down it neither exits nor
    gives up; otherwise, nothing pending included, it does not exit but
    is replaced by the application.  The runner exits with 0 or 1, and
    with 0 exactly when the session opens, the file is there and
    readable, and the server accepts all it is sent: [BEGIN], every
    statement of the file, [COMMIT] and the four look-ups; once
    [COMMIT] is accepted the migration is in the database, whatever the
    look-ups and the exit status are. *)
Theorem exit_statuses env fuel w :
  modelled env = true ->
  let r := entrypoint env fuel w in
  let q := runUnreadMessageMigration env w in
  (forall code, r.2 = Exited code
     <-> code = 1%Z
         /\ ((exists n rc, Psql n rc ∈ r.1.1 /\ rc <> 0%Z)
             \/ (exists n rc, Sed n rc ∈ r.1.1 /\ rc <> 0%Z)))
  /\ (forall n rc, Sed n rc ∈ r.1.1 -> rc <> 0%Z ->
        rc = 1%Z /\ Bre.posix ("^" +:+ n +:+ ":.*") = false)
  /\ (r.2 = StartedApplication
      <-> (exists k, k < fuel /\ pg_isready env k = true)
          /\ (forall n rc, Psql n rc ∈ r.1.1 -> rc = 0%Z)
          /\ (forall n rc, Sed n rc ∈ r.1.1 -> rc = 0%Z))
  /\ (r.2 = StillWaiting <-> forall k, k < fuel -> pg_isready env k = false)
  /\ (migrations env = None -> forall code, r.2 <> Exited code)
  /\ (q.2 = 0%Z \/ q.2 = 1%Z)
  /\ (q.2 = 0%Z
      <-> connects env = true
          /\ exists file d,
               migrations env ≫= (fun dir => dir !! unread_migration)
               = Some file
               /\ regular file = true /\ readable file = true
               /\ answers "BEGIN" (db w) = true
               /\ in_order (script file) (db w) = Some d
               /\ answers "COMMIT" d = true
               /\ forall what, SELECT what ∈ verification ->
                               answers what d = true)
  /\ (forall file d,
        connects env = true ->
        migrations env ≫= (fun dir => dir !! unread_migration) = Some file ->
        regular file = true -> readable file = true ->
        answers "BEGIN" (db w) = true ->
        in_order (script file) (db w) = Some d ->
        answers "COMMIT" d = true ->
        db q.1.2 = d).
Proof.
  intros _ r q.
  destruct (leaves_wait_loop env fuel w) as (Hwait & Hup).
  fold r in Hwait, Hup.
  assert (forall e, (exists name rc, e = Psql name rc \/ e = Sed name rc) ->
            e ∈ r.1.1
            <-> r.2 <> StillWaiting /\ e ∈ (run_migrations env w).1.1)
    as Hstep by (intros e; apply step_in_entrypoint).
  assert (forall n rc, Psql n rc ∈ r.1.1
            <-> r.2 <> StillWaiting /\ Psql n rc ∈ (run_migrations env w).1.1)
    as Hpsql by (intros n rc; apply Hstep; eauto).
  assert (forall n rc, Sed n rc ∈ r.1.1
            <-> r.2 <> StillWaiting /\ Sed n rc ∈ (run_migrations env w).1.1)
    as Hsed by (intros n rc; apply Hstep; eauto).
  pose proof (run_migrations_exit env w) as Hexit.
  assert (r.2 = match (run_migrations env w).2 with
                | Some code => Exited code
                | None => StartedApplication
                end \/ r.2 = StillWaiting) as Hend.
  { subst r. pose proof (entrypoint_unfold env fuel w) as Hrun.
    destruct (until_pg_isready env fuel 0) as [evs [|]]; rewrite Hrun; auto. }
  split_and!.
  - intros code. split.
    + intros Hr. destruct Hend as [Hend|Hend]; [|congruence].
      rewrite Hr in Hend.
      destruct (run_migrations env w).2 as [code'|]; [|done].
      injection Hend as ->.
      destruct Hexit as (-> & [(n & rc & Hin & Hrc)|(n & rc & Hin & Hrc)]);
        (split; [done|]); [left|right]; exists n, rc; (split; [|done]);
        [apply Hpsql|apply Hsed]; (split; [congruence|done]).
    + intros (-> & Hfailed).
      assert (r.2 <> StillWaiting) as Hgone.
      { destruct Hfailed as [(n & rc & Hin & _)|(n & rc & Hin & _)];
          [by apply Hpsql in Hin as [? _]|by apply Hsed in Hin as [? _]]. }
      destruct Hend as [Hend|Hend]; [|done]. rewrite Hend.
      destruct (run_migrations env w).2 as [code'|].
      * by destruct Hexit as [-> _].
      * destruct Hexit as [Hp Hs].
        destruct Hfailed as [(n & rc & Hin & Hrc)|(n & rc & Hin & Hrc)];
          destruct Hrc; [apply (Hp n)|apply (Hs n)];
          [by apply Hpsql in Hin as [_ ?]|by apply Hsed in Hin as [_ ?]].
  - intros n rc Hin Hrc. apply Hsed in Hin as [_ Hin].
    by apply (run_migrations_sed env w n rc).
  - split.
    + intros Hr. split.
      * destruct Hup as (k & Hk & Hready); [congruence|]. eauto.
      * destruct Hend as [Hend|Hend]; [|congruence]. rewrite Hr in Hend.
        destruct (run_migrations env w).2 as [code'|]; [done|].
        destruct Hexit as [Hp Hs].
        split; intros n rc Hin; [apply (Hp n)|apply (Hs n)];
          [by apply Hpsql in Hin as [_ ?]|by apply Hsed in Hin as [_ ?]].
    + intros ((k & Hk & Hready) & Hzero & Hzero').
      assert (r.2 <> StillWaiting) as Hgone.
      { intros Hstill. rewrite (proj1 Hwait Hstill) in Hready; done. }
      destruct Hend as [Hend|Hend]; [|done].
      rewrite Hend. destruct (run_migrations env w).2 as [code'|]; [|done].
      destruct Hexit as (-> & [(n & rc & Hin & Hrc)|(n & rc & Hin & Hrc)]);
        destruct Hrc; [apply (Hzero n); apply Hpsql
                      |apply (Hzero' n); apply Hsed]; done.
  - done.
  - intros Hnone code Hr.
    destruct Hend as [Hend|Hend]; [|congruence]. rewrite Hr in Hend.
    rewrite run_migrations_unfold, Hnone in Hend. done.
  - subst q. rewrite runner_unfold.
    destruct (negb (connects env)); [auto|].
    destruct (migrations env ≫= _) as [file|]; [|auto].
    cbn zeta.
    destruct (regular file && readable file); [|auto].
    destruct (answers "BEGIN" (db w)); [|auto].
    destruct (in_order (script file) (db w)) as [d|]; [|auto].
    destruct (answers "COMMIT" d); [|auto].
    destruct (send verification (Session d Idle)) as [[evs s] [|]]; auto.
  - subst q. rewrite runner_unfold.
    destruct (connects env); cbn [negb fst snd];
      [|by split; [|intros [? _]]].
    destruct (migrations env ≫= _) as [file|]; cbn [fst snd];
      [|by split; [|intros (_ & ? & ? & ? & _)]].
    cbn zeta.
    destruct (regular file) eqn:Hreg, (readable file) eqn:Hread; cbn [fst snd andb];
      try (split; [done|];
           intros (_ & f & d0 & ? & ? & ? & _); simplify_eq; congruence).
    destruct (answers "BEGIN" (db w)) eqn:Hbegin; cbn [fst snd andb];
      [|split; [done|];
        intros (_ & f & d0 & ? & _ & _ & ? & _); simplify_eq; congruence].
    destruct (in_order (script file) (db w)) as [d|] eqn:Hscript; cbn [fst snd andb];
      [|split; [done|];
        intros (_ & f & d0 & ? & _ & _ & _ & ? & _); simplify_eq; congruence].
    destruct (answers "COMMIT" d) eqn:Hcommit; cbn [fst snd andb];
      [|split; [done|];
        intros (_ & f & d0 & ? & _ & _ & _ & ? & ? & _); simplify_eq;
        congruence].
    destruct (send_verification d) as (_ & Hok & _).
    destruct (send verification (Session d Idle)) as [[evs s] ok].
    cbn [fst snd] in Hok. subst ok. cbn [fst snd].
    assert (forallb (fun what => answers what d)
              ["columns"; "indexes"; "functions"; "triggers"] = true
            <-> forall what, SELECT what ∈ verification ->
                             answers what d = true) as Hall.
    { rewrite forallb_forall. unfold verification. split.
      - intros Hall what Hin. apply Hall. apply list_elem_of_In.
        repeat (apply elem_of_cons in Hin as [[= ->]|Hin]; [set_solver|]).
        by apply elem_of_nil in Hin.
      - intros Hall what Hin. apply Hall. apply list_elem_of_In in Hin.
        repeat (apply elem_of_cons in Hin as [->|Hin]; [set_solver|]).
        by apply elem_of_nil in Hin. }
    destruct (forallb _ _).
    + split; [|done]. intros _. split; [done|]. exists file, d.
      split_and!; try done. by apply Hall.
    + split; [done|].
      intros (_ & f & d0 & ? & _ & _ & _ & ? & _ & Hv). simplify_eq.
      by apply Hall in Hv.
  - intros file d Hconn Hfile Hreg Hread Hbegin Hscript Hcommit. subst q.
    rewrite runner_unfold, Hconn, Hfile, Hreg, Hread. cbn [negb andb].
    cbn zeta. by rewrite Hbegin, Hscript, Hcommit.
Qed.
End Entrypoint.

(** ** The order of the migrations *)

Lemma StronglySorted_sublist {A} (R : relation A) (l k : list A) :
  l `sublist_of` k -> StronglySorted R k -> StronglySorted R l.
Proof.
  induction 1 as [|x l k Hsub IH|x l k Hsub IH]; intros Hk.
  - constructor.
  - apply StronglySorted_cons in Hk as [Hx Hk].
    apply StronglySorted_cons. split; [|by apply IH].
    rewrite Forall_forall in Hx |- *. intros y Hy. apply Hx.
    by eapply elem_of_sublist.
  - apply StronglySorted_cons in Hk as [_ Hk]. by apply IH.
Qed.

Lemma StronglySorted_strict (l : list string) :
  StronglySorted String.le l -> NoDup l -> StronglySorted (strict String.le) l.
Proof.
  induction 1 as [|x l Hl IH Hx]; intros Hnd; [constructor|].
  apply NoDup_cons in Hnd as [Hnotin Hnd].
  constructor; [by apply IH|].
  rewrite Forall_forall in Hx |- *. intros y Hy. split; [by apply Hx|].
  intros Hyx. apply Hnotin.
  by rewrite (anti_symm String.le x y (Hx y Hy) Hyx).
Qed.

Section Order.
Context {srv : Server}.
Implicit Types (env : environment) (dir : gmap string entry) (w : world).

Lemma elem_of_matching_names dir n :
  n ∈ matching_names dir <-> is_Some (dir !! n) /\ star_sql n = true.
Proof.
  unfold matching_names. rewrite merge_sort_Permutation.
  rewrite list_elem_of_filter, list_elem_of_fmap. split.
  - intros (Hstar & [k e] & -> & Hin). split; [|done].
    apply elem_of_map_to_list in Hin. by exists e.
  - intros [[e He] Hstar]. split; [done|]. exists (n, e). split; [done|].
    by apply elem_of_map_to_list.
Qed.

Lemma matching_names_sorted dir :
  StronglySorted (strict String.le) (matching_names dir).
Proof.
  apply StronglySorted_strict.
  - apply StronglySorted_merge_sort; apply _.
  - unfold matching_names. rewrite merge_sort_Permutation.
    apply NoDup_filter, NoDup_fst_map_to_list.
Qed.

Lemma star_sql_itself : star_sql "*.sql" = true.
Proof. reflexivity. Qed.

(** The pattern left as it is names no file. *)
Lemma glob_files dir :
  filter (fun n => is_file dir n = true) (glob_star_sql dir)
  = filter (fun n => is_file dir n = true) (matching_names dir).
Proof.
  unfold glob_star_sql.
  destruct (matching_names dir) as [|n names] eqn:Hnames; [|done].
  rewrite filter_cons, decide_False; [done|].
  unfold is_file. destruct (dir !! "*.sql") as [e|] eqn:He; [|done].
  assert ("*.sql" ∈ matching_names dir) as Hin
    by by apply elem_of_matching_names.
  rewrite Hnames in Hin. by apply elem_of_nil in Hin.
Qed.

(** What a turn that applies a migration shows in the reports. *)
Lemma applied_turn_reports (name : string) (sed : option Z) :
  let evs := [Echo (Applying name); Echo UsingDatabase; Psql name 0]
             ++ match sed with Some rc => [Sed name rc] | None => [] end
             ++ [Echo (Marked name); Echo (AppliedSuccessfully name)] in
  handled evs = [name] /\ executed evs = [name]
  /\ appliedNames evs = [name] /\ skippedNames evs = [].
Proof. by destruct sed. Qed.

Lemma handled_for_each env dir names w :
  handled (for_each env dir names w).1.1
    `prefix_of` filter (fun n => is_file dir n = true) names
  /\ ((for_each env dir names w).2 = None ->
      handled (for_each env dir names w).1.1
      = filter (fun n => is_file dir n = true) names).
Proof.
  revert w. induction names as [|name rest IH]; intros w; [done|].
  rewrite for_each_cons, filter_cons.
  destruct (turn env dir name w) as [[evs w'] code] eqn:Hturn.
  specialize (IH w') as [IHp IHe].
  turn_cases Hturn; cbn [fst snd].
  - rewrite decide_False by by rewrite Hfile. done.
  - rewrite decide_True by done.
    split; [by apply prefix_cons|]. intros Hnone. simpl. by rewrite IHe.
  - rewrite decide_True by by unfold is_file; rewrite Hin.
    rewrite handled_app, (proj1 (applied_turn_reports name sed)).
    split; [by apply prefix_cons|]. intros Hnone. simpl. by rewrite IHe.
  - rewrite decide_True by by unfold is_file; rewrite Hin.
    split; [|done]. apply prefix_cons, prefix_nil.
  - rewrite decide_True by by unfold is_file; rewrite Hin.
    split; [|done]. apply prefix_cons, prefix_nil.
Qed.

Lemma executed_handled_for_each env dir names w :
  executed (for_each env dir names w).1.1
    `sublist_of` handled (for_each env dir names w).1.1.
Proof.
  revert w. induction names as [|name rest IH]; intros w; [done|].
  rewrite for_each_cons.
  destruct (turn env dir name w) as [[evs w'] code] eqn:Hturn.
  specialize (IH w').
  turn_cases Hturn; cbn [fst snd].
  - done.
  - by apply sublist_cons.
  - destruct (applied_turn_reports name sed) as (Hh & Hx & _).
    rewrite handled_app, executed_app, Hh, Hx. by apply sublist_skip.
  - done.
  - done.
Qed.

Lemma omap_rounds {B} (f : event -> option B) (n : nat) :
  f (Probe false) = None -> f (Echo Unavailable) = None ->
  f (Sleep 2) = None -> omap f (rounds n) = [].
Proof.
  intros H1 H2 H3. induction n as [|n IH]; [done|].
  rewrite rounds_S. simpl. by rewrite H1, H2, H3.
Qed.

(** The three ways a run of the entrypoint can go: it is still waiting,
    there is no migrations directory, or the loop ran. *)
Lemma entrypoint_cases env fuel w :
  let r := entrypoint env fuel w in
  (r.2 = StillWaiting /\ r.1.1 = Echo WaitingForPostgres :: rounds fuel
   /\ r.1.2 = w)
  \/ (migrations env = None /\ r.2 = StartedApplication /\ r.1.2 = w
      /\ handled r.1.1 = [] /\ executed r.1.1 = []
      /\ appliedNames r.1.1 = [] /\ skippedNames r.1.1 = [])
  \/ (exists dir,
        let l := for_each env dir (glob_star_sql dir) w in
        migrations env = Some dir
        /\ r.2 = match l.2 with
                 | Some code => Exited code
                 | None => StartedApplication
                 end
        /\ r.1.2 = l.1.2
        /\ handled r.1.1 = handled l.1.1
        /\ executed r.1.1 = executed l.1.1
        /\ appliedNames r.1.1 = appliedNames l.1.1
        /\ skippedNames r.1.1 = skippedNames l.1.1).
Proof.
  intros r. subst r.
  pose proof (entrypoint_unfold env fuel w) as Hrun.
  pose proof (until_pg_isready_spec env fuel 0) as Hwait.
  destruct (until_pg_isready env fuel 0) as [evs [|]]; rewrite Hrun; simpl.
  - destruct Hwait as (k & _ & _ & _ & ->). right.
    rewrite run_migrations_unfold.
    unfold handled, executed, appliedNames, skippedNames.
    destruct (migrations env) as [dir|]; simpl.
    + right. exists dir. simpl.
      rewrite !omap_app, !omap_rounds by done. simpl. rewrite !omap_app.
      destruct (for_each env dir (glob_star_sql dir) w).2;
        simpl; rewrite ?app_nil_r; split_and!; done.
    + left. rewrite !omap_app, !omap_rounds by done. split_and!; done.
  - destruct Hwait as [_ ->]. by left.
Qed.

(** C5. The names the entrypoint deals with, applying or skipping them,
    come in strictly increasing byte order of their names, one after the
    other, and every file handed to [psql] is one of them, in the same
    order.  They are the regular files among the names of the directory
    that match [*.sql], sorted: all of them when the run reaches the
    application, the first ones when it stops earlier. *)
Theorem applied_in_name_order env fuel w :
  let r := entrypoint env fuel w in
  StronglySorted (strict String.le) (handled r.1.1)
  /\ executed r.1.1 `sublist_of` handled r.1.1
  /\ (forall dir, migrations env = Some dir ->
        StronglySorted (strict String.le) (matching_names dir)
        /\ (forall n, n ∈ matching_names dir
                      <-> is_Some (dir !! n) /\ star_sql n = true)
        /\ handled r.1.1
             `prefix_of` filter (fun n => is_file dir n = true)
                           (matching_names dir)
        /\ (r.2 = StartedApplication ->
            handled r.1.1
            = filter (fun n => is_file dir n = true) (matching_names dir))).
Proof.
  intros r. subst r.
  destruct (entrypoint_cases env fuel w)
    as [(Hr & Hevs & _)|[(Hdir & _ & _ & Hh & Hx & _)|
        (dir & Hdir & Hr & _ & Hh & Hx & _)]].
  - rewrite Hevs. simpl. rewrite handled_rounds, executed_rounds.
    split_and!; [constructor|done|]. intros dir Hdir.
    split_and!; [apply matching_names_sorted|apply elem_of_matching_names
                |apply prefix_nil|congruence].
  - rewrite Hh, Hx. split_and!; [constructor|done|]. congruence.
  - pose proof (handled_for_each env dir (glob_star_sql dir) w) as [Hp He].
    rewrite glob_files in Hp, He.
    assert (StronglySorted (strict String.le)
              (handled (for_each env dir (glob_star_sql dir) w).1.1)) as Hs.
    { destruct Hp as [tail Hp].
      apply (StronglySorted_app_1_l _ _ tail). rewrite <- Hp.
      eapply StronglySorted_sublist; [apply sublist_filter|].
      apply matching_names_sorted. }
    rewrite Hh, Hx. split_and!; [done|apply executed_handled_for_each|].
    intros dir' Hdir'. rewrite Hdir in Hdir'. injection Hdir' as <-.
    split_and!.
    + apply matching_names_sorted.
    + apply elem_of_matching_names.
    + done.
    + intros Hstarted. apply He. rewrite Hr in Hstarted.
      by destruct (for_each env dir (glob_star_sql dir) w).2.
Qed.
End Order.

(** ** The records, and the runner *)

Section Records.
Context {srv : Server}.
Implicit Types (env : environment) (dir : gmap string entry) (w : world).

Lemma expand_plain (replacement matched : string) :
  occurs "&" replacement = false -> expand replacement matched = replacement.
Proof.
  induction replacement as [|c r IH]; [done|]. cbn [occurs expand].
  rewrite (Ascii.eqb_sym "&" c).
  destruct (Ascii.eqb c "&"); [done|]. cbn [orb]. intros Hr. by rewrite IH.
Qed.

(** The runner leaves the status file and the clock alone. *)
Lemma runner_keeps_status env w :
  status (runUnreadMessageMigration env w).1.2 = status w
  /\ clock_reads (runUnreadMessageMigration env w).1.2 = clock_reads w.
Proof.
  rewrite runner_unfold.
  destruct (negb (connects env)); [done|].
  destruct (migrations env ≫= _) as [file|]; [|done]. cbn zeta.
  destruct (regular file && readable file); [|done].
  destruct (answers "BEGIN" (db w)); [|done].
  destruct (in_order (script file) (db w)); [|done].
  by destruct (answers "COMMIT" _).
Qed.

(** C6, as the code has it, for the names the matcher speaks for.  No
    line of the status file is ever deleted, but a record can be
    rewritten: [mark_migration_applied] updates or adds.  When the
    tools read the name as the text it is (the expression [^NAME:]
    selects, among the lines of the file, those that begin with
    [NAME:]; there is no ampersand in the record and no star after a
    starred item in the name), the file after it is the one that
    [update_or_add] describes: every line of the migration is replaced,
    at its place, by the new record, and nothing is added; the record
    is added at the end when the migration has no line; the other lines
    stay as they are.  In every case the file is there afterwards and
    is not shorter.  Over a run of the entrypoint the file never gets
    shorter, and a line that is not a line of a migration applied in
    the run, and that the expression of none of them selects, is still
    there, unchanged, at the end.  The runner does not touch the status
    file. *)
Theorem records_kept_or_rewritten env fuel w name ts (lines : list string) :
  modelled env = true -> Bre.supported name = true ->
  ((forall line, line ∈ lines -> begins_record name line = line_of name line) ->
   occurs "&" (record name ts) = false ->
   Bre.posix ("^" +:+ name +:+ ":.*") = true ->
   mark_migration_applied name ts (Some lines)
   = (Some (update_or_add name ts lines),
      if existsb (line_of name) lines then Some 0%Z else None))
  /\ (exists lines',
        (mark_migration_applied name ts (Some lines)).1 = Some lines'
        /\ length lines <= length lines')
  /\ (let r := entrypoint env fuel w in
      length (lines_of (status w)) <= length (lines_of (status r.1.2))
      /\ (forall i line, lines_of (status w) !! i = Some line ->
            (forall n, n ∈ appliedNames r.1.1 ->
                       begins_record n line = line_of n line) ->
            (forall n, n ∈ appliedNames r.1.1 -> line_of n line = false) ->
            lines_of (status r.1.2) !! i = Some line))
  /\ status (runUnreadMessageMigration env w).1.2 = status w.
Proof.
  intros _ _. split_and!.
  - intros Htext Hplain Hposix. rewrite mark_unfold, Hposix. cbn [ledger].
    unfold update_or_add.
    assert (existsb (begins_record name) lines = existsb (line_of name) lines)
      as ->.
    { apply eq_true_iff_eq. rewrite !existsb_exists.
      split; intros (line & Hin & Hline); exists line; (split; [done|]);
        [rewrite <- Htext|rewrite Htext]; try done;
        by apply list_elem_of_In. }
    destruct (existsb (line_of name) lines); [|done].
    do 2 f_equal. apply list_fmap_ext. intros i line Hi.
    rewrite Htext by by eapply list_elem_of_lookup_2.
    destruct (line_of name line); [|done]. by apply expand_plain.
  - destruct (mark_creates name ts (Some lines)) as [lines' Hmark].
    exists lines'. split; [done|].
    pose proof (mark_length name ts (Some lines)) as Hlen.
    by rewrite Hmark in Hlen.
  - intros r. subst r.
    destruct (entrypoint_cases env fuel w)
      as [(_ & _ & ->)|[(_ & _ & -> & _)|
          (dir & _ & _ & -> & _ & _ & -> & _)]]; [done..|].
    split; [apply for_each_length|]. intros i line Hi Htext Hother.
    apply for_each_keeps_line; [done|]. intros n Hn.
    by rewrite Htext, Hother.
  - apply runner_keeps_status.
Qed.

(** The statements of a file, performed one after the other up to the
    first that is rejected. *)
Lemma in_order_foldl (ss : list statement) (d : option database) :
  foldl (fun d s => d ≫= exec s) d ss = d ≫= in_order ss.
Proof.
  revert d. induction ss as [|s ss IH]; intros d; simpl.
  - by destruct d.
  - rewrite IH. destruct d as [d|]; simpl; [|done].
    by destruct (exec s d).
Qed.

(** What the runner sends first, wherever it starts. *)
Lemma runner_sends_the_file env w file :
  connects env = true ->
  migrations env ≫= (fun dir => dir !! unread_migration) = Some file ->
  regular file = true -> readable file = true ->
  answers "BEGIN" (db w) = true ->
  exists rest,
    (runUnreadMessageMigration env w).1.1
    = Query BEGIN true
        :: Query (SCRIPT (script file))
             (bool_decide (is_Some (in_order (script file) (db w))))
        :: rest.
Proof.
  intros Hconn Hfile Hreg Hread Hbegin.
  rewrite runner_unfold, Hconn, Hfile, Hreg, Hread, Hbegin.
  cbn [negb andb]. cbn zeta.
  destruct (in_order (script file) (db w)) as [d|]; [|by eexists].
  destruct (answers "COMMIT" d); by eexists.
Qed.

(** C10. [runUnreadMessageMigration] neither reads nor writes the status
    file: its events, its exit status and what it does to the database
    are the same whatever the status file holds, and the status file is
    the same afterwards.  Of the migrations directory it looks at the
    one file [003-add-unread-message-tracking.sql].  Whenever the
    session opens, that file can be read and [BEGIN] is accepted, it
    sends the statements of the file, in whatever world it starts, so
    also in the world its previous run left; the database it leaves is
    the one the statements, performed in order, lead to when all of
    them and [COMMIT] are accepted, and the one it started with
    otherwise; when it exits with 0 the statements were performed.
    When the file does not exist it exits with 1, the world is
    untouched and no query was sent. *)
Theorem runner_is_unconditional env w :
  let r := runUnreadMessageMigration env w in
  status r.1.2 = status w
  /\ (forall st k,
        runUnreadMessageMigration env (World (db w) st k)
        = (r.1.1, World (db r.1.2) st k, r.2))
  /\ (forall env',
        connects env' = connects env ->
        migrations env' ≫= (fun dir => dir !! unread_migration)
        = migrations env ≫= (fun dir => dir !! unread_migration) ->
        runUnreadMessageMigration env' w = r)
  /\ (forall file,
        connects env = true ->
        migrations env ≫= (fun dir => dir !! unread_migration) = Some file ->
        regular file = true -> readable file = true ->
        let body (d : database) :=
          foldl (fun d s => d ≫= exec s) (Some d) (script file) in
        (answers "BEGIN" (db w) = true ->
         exists rest,
           r.1.1 = Query BEGIN true
                     :: Query (SCRIPT (script file))
                          (bool_decide (is_Some (body (db w))))
                     :: rest)
        /\ (answers "BEGIN" (db r.1.2) = true ->
            exists rest,
              (runUnreadMessageMigration env r.1.2).1.1
              = Query BEGIN true
                  :: Query (SCRIPT (script file))
                       (bool_decide (is_Some (body (db r.1.2))))
                  :: rest)
        /\ db r.1.2
           = match body (db w) with
             | Some d =>
                 if answers "BEGIN" (db w) && answers "COMMIT" d
                 then d else db w
             | None => db w
             end
        /\ (r.2 = 0%Z -> body (db w) = Some (db r.1.2)))
  /\ (migrations env ≫= (fun dir => dir !! unread_migration) = None ->
      r.2 = 1%Z /\ r.1.2 = w /\ forall q accepted, Query q accepted ∉ r.1.1).
Proof.
  intros r. subst r. split_and!.
  - apply runner_keeps_status.
  - intros st k. rewrite !runner_unfold. cbn [db status clock_reads].
    destruct (negb (connects env)); [by destruct w|].
    destruct (migrations env ≫= _) as [file|]; [|by destruct w]. cbn zeta.
    destruct (regular file && readable file); [|done].
    destruct (answers "BEGIN" (db w)); [|done].
    destruct (in_order (script file) (db w)) as [d|]; [|done].
    by destruct (answers "COMMIT" d).
  - intros env' Hconn Hfile. rewrite !runner_unfold. by rewrite Hconn, Hfile.
  - intros file Hconn Hfile Hreg Hread body. subst body. cbn beta.
    rewrite !in_order_foldl. cbn [mbind option_bind].
    split_and!.
    + by apply runner_sends_the_file.
    + by apply runner_sends_the_file.
    + rewrite runner_unfold, Hconn, Hfile, Hreg, Hread.
      cbn [negb andb]. cbn zeta.
      destruct (answers "BEGIN" (db w));
        [|by destruct (in_order (script file) (db w))].
      destruct (in_order (script file) (db w)) as [d|]; [|done].
      by destruct (answers "COMMIT" d).
    + rewrite runner_unfold, Hconn, Hfile, Hreg, Hread.
      cbn [negb andb]. cbn zeta.
      destruct (answers "BEGIN" (db w)); [|done].
      destruct (in_order (script file) (db w)) as [d|]; [|done].
      by destruct (answers "COMMIT" d).
  - intros Hfile. rewrite runner_unfold, Hfile.
    destruct (negb (connects env)); simpl; split_and!; try done;
      intros q accepted Hin; apply list_elem_of_singleton in Hin; done.
Qed.
End Records.

(** ** Names that keep apart *)

(** A character that an expression demands is in every line it
    matches. *)
Lemma longer_Some a b n :
  Bre.longer a b = Some n -> is_Some a \/ is_Some b.
Proof. destruct a, b; simpl; intros; eauto. Qed.

Lemma star_unfold (a : Bre.atom) (rest : string -> option nat) (s : string) :
  Bre.star a rest s
  = Bre.longer
      match s with
      | String c s' =>
          if Bre.atom_matches a c then S <$> Bre.star a rest s' else None
      | EmptyString => None
      end
      (rest s).
Proof. by destruct s. Qed.

Lemma longest_demands (re1 re2 : list Bre.piece) (c : ascii) (s : string) :
  is_Some (Bre.longest (re1 ++ Bre.Piece (Bre.Lit c) false :: re2) s) ->
  occurs c s = true.
Proof.
  revert s. induction re1 as [|[a [|]] re1 IH]; intros s.
  - simpl. destruct s as [|x s]; [by intros [? ?]|]. simpl.
    destruct (Ascii.eqb c x) eqn:Hcx; [done|]. by intros [? ?].
  - assert (Bre.longest
              ((Bre.Piece a true :: re1) ++ Bre.Piece (Bre.Lit c) false :: re2)
              s
            = Bre.star a
                (Bre.longest (re1 ++ Bre.Piece (Bre.Lit c) false :: re2)) s)
      as -> by by destruct a.
    induction s as [|x s IHs]; rewrite star_unfold.
    + simpl. intros Hn. by apply IH in Hn.
    + intros [n Hn]. apply longer_Some in Hn as [Hn|Hn].
      * destruct (Bre.atom_matches a x); [|by destruct Hn].
        cbn [occurs]. rewrite IHs; [by rewrite orb_true_r|].
        destruct (Bre.star a _ s); [eauto|by destruct Hn].
      * by apply IH in Hn.
  - destruct a as [d| |]; simpl.
    + destruct s as [|x s]; [by intros [? ?]|]. simpl.
      destruct (Ascii.eqb d x); [|by intros [? ?]].
      intros Hn. rewrite IH; [by rewrite orb_true_r|].
      destruct (Bre.longest _ s); [eauto|by destruct Hn].
    + destruct s as [|x s]; [by intros [? ?]|]. simpl.
      intros Hn. rewrite IH; [by rewrite orb_true_r|].
      destruct (Bre.longest _ s); [eauto|by destruct Hn].
    + destruct s as [|x s]; [|by intros [? ?]]. apply IH.
Qed.

Lemma pieces_colon (s : string) (acc : list Bre.piece) :
  exists re, Bre.pieces acc (s +:+ ":")
             = re ++ [Bre.Piece (Bre.Lit ":") false].
Proof.
  revert acc. induction s as [|c s IH]; intros acc.
  - exists (rev acc). reflexivity.
  - rewrite append_cons. simpl.
    destruct (Ascii.eqb c "*"); [destruct acc|]; [apply IH..|].
    destruct (Ascii.eqb c "$" && Bre.closes (s +:+ ":")); apply IH.
Qed.


(** Items read before the last one are out of a star's reach. *)
Lemma pieces_out_of_reach (t : string) (acc1 acc0 : list Bre.piece) :
  acc1 <> [] -> Bre.pieces (acc1 ++ acc0) t = rev acc0 ++ Bre.pieces acc1 t.
Proof.
  revert acc1. induction t as [|c t IH]; intros acc1 Hne; simpl.
  - by rewrite rev_app_distr.
  - destruct (Ascii.eqb c "*").
    + destruct acc1 as [|p acc1]; [done|]. simpl.
      by apply (IH (_ :: acc1)).
    + destruct (Ascii.eqb c "$" && Bre.closes t); by apply (IH (_ :: acc1)).
Qed.

Lemma pieces_applied (s : string) (acc : list Bre.piece) :
  exists re, Bre.pieces acc (s +:+ ":applied:")
             = re ++ Bre.Piece (Bre.Lit ":") false
                  :: Bre.pieces [] "applied:".
Proof.
  revert acc. induction s as [|c s IH]; intros acc.
  - exists (rev acc). rewrite append_empty.
    change (Bre.pieces acc ":applied:")
      with (Bre.pieces ([Bre.Piece (Bre.Lit ":") false] ++ acc) "applied:").
    by rewrite pieces_out_of_reach.
  - rewrite append_cons. simpl.
    destruct (Ascii.eqb c "*"); [destruct acc|]; [apply IH..|].
    destruct (Ascii.eqb c "$" && Bre.closes (s +:+ ":applied:")); apply IH.
Qed.

(** Both expressions demand a colon. *)
Lemma begins_record_colon (name line : string) :
  begins_record name line = true -> occurs ":" line = true.
Proof.
  unfold begins_record, Bre.selects. rewrite !append_cons, append_empty.
  unfold Bre.compile, Bre.find. simpl.
  destruct (pieces_colon name []) as [re ->].
  intros Hsel%bool_decide_eq_true. apply (longest_demands re []).
  by apply fmap_is_Some in Hsel.
Qed.

Lemma recognises_colon (name line : string) :
  recognises name line = true -> occurs ":" line = true.
Proof.
  unfold recognises, Bre.selects. rewrite !append_cons, append_empty.
  unfold Bre.compile, Bre.find. simpl.
  destruct (pieces_applied name []) as [re ->].
  intros Hsel%bool_decide_eq_true.
  apply (longest_demands re (Bre.pieces [] "applied:")).
  by apply fmap_is_Some in Hsel.
Qed.

Lemma header_is_no_record (name : string) :
  begins_record name header = false /\ recognises name header = false.
Proof.
  split.
  - destruct (begins_record name header) eqn:Hb; [|done].
    by apply begins_record_colon in Hb.
  - destruct (recognises name header) eqn:Hr; [|done].
    by apply recognises_colon in Hr.
Qed.

Lemma is_applied_unfold (m : string) (lines : list string) :
  is_migration_applied m (Some lines) = existsb (recognises m) lines.
Proof. reflexivity. Qed.

Lemma existsb_elem_of {A} (f : A -> bool) (l : list A) :
  existsb f l = true <-> exists x, x ∈ l /\ f x = true.
Proof.
  rewrite existsb_exists. by setoid_rewrite list_elem_of_In.
Qed.

Lemma is_applied_ledger (m : string) (st : status_file) :
  existsb (recognises m) (ledger st) = is_migration_applied m st.
Proof.
  destruct st as [lines|]; [done|]. simpl.
  by rewrite (proj2 (header_is_no_record m)).
Qed.

(** On a clean file a name that is not recorded gets a new line. *)
Lemma mark_appends (names : list string) (st : status_file) (n ts : string) :
  clean names st -> n ∈ names -> is_migration_applied n st = false ->
  mark_migration_applied n ts st = (Some (ledger st ++ [record n ts]), None).
Proof.
  intros Hclean Hn Hnot. rewrite mark_unfold.
  destruct (existsb (begins_record n) (ledger st)) eqn:Hex; [|done].
  apply existsb_elem_of in Hex as (line & Hline & Hbegins).
  destruct st as [lines|]; simpl in Hline.
  - assert (is_migration_applied n (Some lines) = true) as Happ; [|congruence].
    rewrite is_applied_unfold. apply existsb_elem_of. exists line.
    split; [done|]. by apply (Hclean line n).
  - apply list_elem_of_singleton in Hline as ->.
    by rewrite (proj1 (header_is_no_record n)) in Hbegins.
Qed.

Lemma applied_after_mark (clock : nat -> string) (names : list string)
  (st : status_file) (n m : string) (k : nat) :
  separate clock names -> n ∈ names -> m ∈ names ->
  is_migration_applied m (Some (ledger st ++ [record n (clock k)]))
  = is_migration_applied m st || bool_decide (m = n).
Proof.
  intros Hsep Hn Hm. rewrite is_applied_unfold, existsb_app. simpl.
  rewrite is_applied_ledger, orb_false_r.
  by rewrite (proj1 (Hsep n m k Hn Hm)).
Qed.

Lemma clean_after_mark (clock : nat -> string) (names : list string)
  (st : status_file) (n : string) (k : nat) :
  separate clock names -> clean names st -> n ∈ names ->
  clean names (Some (ledger st ++ [record n (clock k)])).
Proof.
  intros Hsep Hclean Hn line m Hline Hm Hbegins. simpl in Hline.
  apply elem_of_app in Hline as [Hline|Hline].
  - destruct st as [lines|]; simpl in Hline; [by apply Hclean|].
    apply list_elem_of_singleton in Hline as ->.
    by rewrite (proj1 (header_is_no_record m)) in Hbegins.
  - apply list_elem_of_singleton in Hline as ->.
    destruct (Hsep n m k Hn Hm) as [-> <-]. done.
Qed.

Lemma filter_ext_elem {A} (P Q : A -> Prop) `{!forall x, Decision (P x)}
  `{!forall x, Decision (Q x)} (l : list A) :
  (forall x, x ∈ l -> P x <-> Q x) -> filter P l = filter Q l.
Proof.
  induction l as [|x l IH]; intros Hext; [done|].
  rewrite !filter_cons.
  rewrite IH by (intros y Hy; apply Hext; by right).
  destruct (decide (P x)) as [HP|HP], (decide (Q x)) as [HQ|HQ]; try done.
  - destruct HQ. apply Hext; [by left|done].
  - destruct HP. apply Hext; [by left|done].
Qed.

Section Separate.
Context {srv : Server}.
Implicit Types (env : environment) (dir : gmap string entry) (w : world).

Lemma skippedNames_app (evs evs' : list event) :
  skippedNames (evs ++ evs') = skippedNames evs ++ skippedNames evs'.
Proof. apply omap_app. Qed.

(** With names that keep apart, on a clean status file, a loop that
    runs to its end applies what the status file it started with does
    not record, skips what it records, and records what it applies. *)
Lemma for_each_separate env dir names l w :
  separate (date env) names -> NoDup l -> (forall n, n ∈ l -> n ∈ names) ->
  clean names (status w) ->
  (for_each env dir l w).2 = None ->
  appliedNames (for_each env dir l w).1.1
  = filter (fun n => pending dir (status w) n = true) l
  /\ skippedNames (for_each env dir l w).1.1
     = filter (fun n => recorded dir (status w) n = true) l
  /\ clean names (status (for_each env dir l w).1.2)
  /\ forall m, m ∈ names ->
       is_migration_applied m (status (for_each env dir l w).1.2)
       = is_migration_applied m (status w)
         || bool_decide (m ∈ appliedNames (for_each env dir l w).1.1).
Proof.
  intros Hsep. revert w.
  induction l as [|name rest IH]; intros w Hnd Hsub Hclean Hend.
  { simpl. split_and!; [done..|]. intros m _. by rewrite orb_false_r. }
  apply NoDup_cons in Hnd as [Hfresh Hnd].
  assert (name ∈ names) as Hname by (apply Hsub; by left).
  assert (forall n, n ∈ rest -> n ∈ names) as Hsub'
    by (intros n Hn; apply Hsub; by right).
  rewrite for_each_cons in Hend |- *.
  destruct (turn env dir name w) as [[evs w'] code] eqn:Hturn.
  turn_cases Hturn; cbn [fst snd] in Hend |- *;
    [simpl in Hend |- *|simpl in Hend |- *| |done|done].
  - rewrite !filter_cons_False
      by (unfold pending, recorded; rewrite Hfile; done).
    by apply IH.
  - rewrite filter_cons_False
      by (unfold pending; rewrite Hfile, Happ; done).
    rewrite filter_cons_True
      by (unfold recorded; rewrite Hfile, Happ; done).
    destruct (IH w Hnd Hsub' Hclean Hend) as (-> & -> & Hc & Hrec).
    done.
  - assert (is_file dir name = true) as Hfile
      by by unfold is_file; rewrite Hin.
    rewrite filter_cons_True
      by (unfold pending; rewrite Hfile, Happ; done).
    rewrite filter_cons_False
      by (unfold recorded; rewrite Hfile, Happ; done).
    rewrite (mark_appends names _ _ _ Hclean Hname Happ) in Hend, Hsed |- *.
    cbn [fst snd] in Hend, Hsed |- *. subst sed.
    assert (forall tail,
              appliedNames
                (([Echo (Applying name); Echo UsingDatabase; Psql name 0]
                  ++ [] ++ [Echo (Marked name);
                            Echo (AppliedSuccessfully name)]) ++ tail)
              = name :: appliedNames tail) as -> by done.
    assert (forall tail,
              skippedNames
                (([Echo (Applying name); Echo UsingDatabase; Psql name 0]
                  ++ [] ++ [Echo (Marked name);
                            Echo (AppliedSuccessfully name)]) ++ tail)
              = skippedNames tail) as -> by done.
    set (w1 := World d _ _) in *.
    assert (clean names (status w1)) as Hclean1
      by by apply clean_after_mark.
    destruct (IH w1 Hnd Hsub' Hclean1 Hend) as (Ha & Hs & Hc & Hrec).
    assert (forall m, m ∈ rest ->
              is_migration_applied m (status w1)
              = is_migration_applied m (status w)) as Hsame.
    { intros m Hm. unfold w1. cbn [status].
      rewrite (applied_after_mark _ names) by auto.
      rewrite bool_decide_eq_false_2; [by rewrite orb_false_r|].
      by intros ->. }
    split_and!.
    + rewrite Ha. f_equal. apply filter_ext_elem. intros m Hm.
      unfold pending. by rewrite Hsame.
    + rewrite Hs. apply filter_ext_elem. intros m Hm.
      unfold recorded. by rewrite Hsame.
    + done.
    + intros m Hm. rewrite Hrec by done. unfold w1 at 1. cbn [status].
      rewrite (applied_after_mark _ names) by auto.
      rewrite <- orb_assoc. f_equal.
      destruct (decide (m = name)) as [->|Hne].
      * rewrite bool_decide_eq_true_2 by done.
        rewrite (bool_decide_eq_true_2 (name ∈ name :: _)); [done|by left].
      * rewrite (bool_decide_eq_false_2 (m = name)) by done. simpl.
        apply bool_decide_ext. rewrite elem_of_cons. naive_solver.
Qed.

Lemma applied_of_skipped (l : list string) :
  appliedNames ((fun n => Echo (AlreadyApplied n)) <$> l) = [].
Proof. induction l as [|x l IH]; [done|]. by rewrite fmap_cons. Qed.

Lemma executed_of_skipped (l : list string) :
  executed ((fun n => Echo (AlreadyApplied n)) <$> l) = [].
Proof. induction l as [|x l IH]; [done|]. by rewrite fmap_cons. Qed.

(** When every file is recorded the loop only reports it. *)
Lemma for_each_all_recorded env dir l w :
  (forall n, n ∈ l -> is_file dir n = true ->
             is_migration_applied n (status w) = true) ->
  for_each env dir l w
  = ((fun n => Echo (AlreadyApplied n))
       <$> filter (fun n => is_file dir n = true) l, w, None).
Proof.
  induction l as [|name rest IH]; intros Hall; [done|].
  rewrite for_each_cons.
  specialize (IH (fun n Hn => Hall n (list_elem_of_further _ _ _ Hn))).
  destruct (turn env dir name w) as [[evs w'] code] eqn:Hturn.
  turn_cases Hturn; simpl.
  - rewrite IH. by rewrite filter_cons_False by by rewrite Hfile.
  - rewrite IH. by rewrite filter_cons_True by done.
  - rewrite Hall in Happ; [done|by left|by unfold is_file; rewrite Hin].
  - rewrite Hall in Happ; [done|by left|by unfold is_file; rewrite Hin].
  - rewrite Hall in Happ; [done|by left|by unfold is_file; rewrite Hin].
Qed.

Lemma matching_names_NoDup dir : NoDup (matching_names dir).
Proof.
  unfold matching_names. rewrite merge_sort_Permutation.
  apply NoDup_filter, NoDup_fst_map_to_list.
Qed.

(** The pattern left as it is changes nothing. *)
Lemma glob_for_each env dir w :
  for_each env dir (glob_star_sql dir) w
  = for_each env dir (matching_names dir) w.
Proof.
  unfold glob_star_sql.
  destruct (matching_names dir) as [|n names] eqn:Hnames; [|done].
  rewrite for_each_cons. unfold turn.
  destruct (dir !! "*.sql") as [e|] eqn:He; [|done].
  assert ("*.sql" ∈ matching_names dir) as Hin
    by by apply elem_of_matching_names.
  rewrite Hnames in Hin. by apply elem_of_nil in Hin.
Qed.

(** X1. With names that keep apart and a clean status file, a run that
    reaches the application has applied exactly the files the status
    file did not record, skipped exactly those it recorded, and
    recorded them all; a further run on the same files applies nothing,
    hands nothing to [psql] and leaves the world as it is. *)
Theorem names_that_keep_apart env fuel w dir :
  modelled env = true ->
  migrations env = Some dir ->
  separate (date env) (matching_names dir) ->
  clean (matching_names dir) (status w) ->
  let r := entrypoint env fuel w in
  r.2 = StartedApplication ->
  appliedNames r.1.1
  = filter (fun n => pending dir (status w) n = true) (matching_names dir)
  /\ skippedNames r.1.1
     = filter (fun n => recorded dir (status w) n = true) (matching_names dir)
  /\ (forall n, n ∈ matching_names dir -> is_file dir n = true ->
                is_migration_applied n (status r.1.2) = true)
  /\ forall env' fuel',
       migrations env' = Some dir ->
       let r' := entrypoint env' fuel' r.1.2 in
       appliedNames r'.1.1 = [] /\ executed r'.1.1 = []
       /\ r'.1.2 = r.1.2 /\ forall code, r'.2 <> Exited code.
Proof.
  intros _ Hdir Hsep Hclean r Hr. subst r.
  destruct (entrypoint_cases env fuel w)
    as [(Hw & _)|[(Hnone & _)|
        (dir' & Hdir' & He & Hw & _ & _ & Ha & Hs)]]; [congruence..|].
  rewrite Hdir in Hdir'. injection Hdir' as <-.
  rewrite glob_for_each in He, Hw, Ha, Hs.
  assert ((for_each env dir (matching_names dir) w).2 = None) as Hend.
  { rewrite He in Hr.
    by destruct (for_each env dir (matching_names dir) w).2. }
  destruct (for_each_separate env dir (matching_names dir)
              (matching_names dir) w Hsep (matching_names_NoDup dir)
              (fun n Hn => Hn) Hclean Hend) as (Ha' & Hs' & _ & Hrec).
  rewrite Ha, Hs, Hw.
  assert (forall n, n ∈ matching_names dir -> is_file dir n = true ->
            is_migration_applied n
              (status (for_each env dir (matching_names dir) w).1.2) = true)
    as Hall.
  { intros n Hn Hfile. rewrite Hrec by done.
    destruct (is_migration_applied n (status w)) eqn:Happ; [done|]. simpl.
    apply bool_decide_eq_true_2. rewrite Ha'. apply list_elem_of_filter.
    split; [|done]. unfold pending. by rewrite Hfile, Happ. }
  split_and!; [done..|].
  intros env' fuel' Hdir' r'. subst r'.
  set (w' := (for_each env dir (matching_names dir) w).1.2) in *.
  destruct (entrypoint_cases env' fuel' w')
    as [(-> & -> & ->)|[(Hnone & _)|
        (dir' & Hdir'' & -> & -> & _ & -> & -> & _)]]; [|congruence|].
  - simpl. unfold appliedNames, executed.
    rewrite !omap_rounds by done. done.
  - rewrite Hdir' in Hdir''. injection Hdir'' as <-.
    rewrite glob_for_each, (for_each_all_recorded env' dir _ w' Hall).
    simpl. rewrite applied_of_skipped, executed_of_skipped. done.
Qed.

(** When the loop stops, it does so with status 1, at a migration that
    is not recorded afterwards, and right after the failure: of [psql],
    which it reports, or of [sed], which has refused the expression made
    of the name once [psql] had ended well.  Every call of [psql] and
    of [sed] before that ended well. *)
Lemma stops_at_first_failure env dir names w code :
  (for_each env dir names w).2 = Some code ->
  code = 1%Z
  /\ exists evs name,
       (forall n rc, Psql n rc ∈ evs -> rc = 0%Z)
       /\ (forall n rc, Sed n rc ∈ evs -> rc = 0%Z)
       /\ is_migration_applied name
            (status (for_each env dir names w).1.2) = false
       /\ ((exists rc,
              rc <> 0%Z
              /\ (for_each env dir names w).1.1
                 = evs ++ [Echo (Applying name); Echo UsingDatabase;
                           Psql name rc;
                           Echo (MigrationFailed name); Echo ConnectionDetails])
           \/ (Bre.posix ("^" +:+ name +:+ ":.*") = false
               /\ (for_each env dir names w).1.1
                  = evs ++ [Echo (Applying name); Echo UsingDatabase;
                            Psql name 0; Sed name 1])).
Proof.
  revert w. induction names as [|name rest IH]; intros w; [done|].
  rewrite for_each_cons.
  destruct (turn env dir name w) as [[evs w'] code'] eqn:Hturn.
  specialize (IH w').
  turn_cases Hturn; cbn [fst snd].
  - done.
  - intros Hcode.
    destruct (IH Hcode) as (-> & evs & n & Hp & Hs & Hn & Hlast).
    split; [done|]. exists (Echo (AlreadyApplied name) :: evs), n.
    split_and!; [| |done|].
    + intros n' rc' [?|Hin']%elem_of_cons; [done|]. by apply (Hp n').
    + intros n' rc' [?|Hin']%elem_of_cons; [done|]. by apply (Hs n').
    + destruct Hlast as [(rc & Hrc & ->)|(Hposix & ->)]; [left|right]; eauto.
  - intros Hcode.
    destruct (IH Hcode) as (-> & evs & n & Hp & Hs & Hn & Hlast).
    split; [done|].
    pose proof (applied_turn_events name sed) as Hturn.
    exists (([Echo (Applying name); Echo UsingDatabase; Psql name 0]
             ++ match sed with Some rc => [Sed name rc] | None => [] end
             ++ [Echo (Marked name); Echo (AppliedSuccessfully name)])
            ++ evs), n.
    split_and!; [| |done|].
    + intros n' rc' [Hin'|Hin']%elem_of_app; [|by apply (Hp n')].
      by apply (proj1 (Hturn _ Hok Hin') n').
    + intros n' rc' [Hin'|Hin']%elem_of_app; [|by apply (Hs n')].
      by apply (proj2 (Hturn _ Hok Hin') n').
    + destruct Hlast as [(rc & Hrc & ->)|(Hposix & ->)]; [left|right];
        [exists rc|]; (split; [done|]); apply (assoc_L (++)).
  - intros [= <-]. split; [done|]. exists [], name.
    split_and!; [by intros ?? ?%elem_of_nil..|done|].
    left. by exists rc.
  - intros [= <-]. split; [done|]. exists [], name.
    split_and!; [by intros ?? ?%elem_of_nil..| |by right].
    cbn [status]. rewrite is_applied_unfold, is_applied_ledger. done.
Qed.

(** When [psql] fails the loop stops there, with status 1: the failing
    migration is what it did last, it is not recorded, and every call of
    [psql] before it ended well. *)
Lemma stops_at_first_psql_failure env dir names w name rc :
  Psql name rc ∈ (for_each env dir names w).1.1 -> rc <> 0%Z ->
  (for_each env dir names w).2 = Some 1%Z
  /\ exists evs,
       (for_each env dir names w).1.1
       = evs ++ [Echo (Applying name); Echo UsingDatabase; Psql name rc;
                 Echo (MigrationFailed name); Echo ConnectionDetails]
       /\ (forall n rc', Psql n rc' ∈ evs -> rc' = 0%Z)
       /\ is_migration_applied name
            (status (for_each env dir names w).1.2) = false.
Proof.
  intros Hin Hrc.
  pose proof (for_each_exit env dir names w) as Hexit.
  destruct (for_each env dir names w).2 as [code|] eqn:Hend;
    [|by destruct Hrc; apply (proj1 Hexit name)].
  destruct (stops_at_first_failure env dir names w code Hend)
    as (-> & evs & n & Hp & _ & Happ & [(rc' & Hrc' & Hevs)|(_ & Hevs)]);
    rewrite Hevs in Hin |- *; apply elem_of_app in Hin as [Hin|Hin];
    try (by destruct Hrc; apply (Hp name));
    repeat (apply elem_of_cons in Hin as [Hin|Hin];
            [try done; simplify_eq|]);
    try (by apply elem_of_nil in Hin).
  split; [done|]. by exists evs.
Qed.
End Separate.

(** ** The programs on the sample directories *)

Section Cases.
Import Sample.
#[local] Existing Instance Sample.server.

Example grep_reads_a_dot_as_any_character :
  recognises "a.b.sql" "a-b.sql:applied:2024-05-01 10:00:00" = true
  /\ recognises "a-b.sql" "a.b.sql:applied:2024-05-01 10:00:00" = false.
Proof. by vm_compute. Qed.

Example grep_reads_a_star_as_a_repetition :
  recognises "a*.sql" "a*.sql:applied:2024-05-01 10:00:00" = false
  /\ recognises "a*.sql" "aaab.sql:applied:2024-05-01 10:00:00" = false
  /\ recognises "a*.sql" "aaaXsql:applied:2024-05-01 10:00:00" = true
  /\ recognises "*a.sql" "*a.sql:applied:2024-05-01 10:00:00" = true.
Proof. by vm_compute. Qed.

Example sed_replaces_the_line :
  sed_s "^x.sql:.*" "x.sql:applied:T2" "x.sql:y.sql:applied:T1"
  = "x.sql:applied:T2"
  /\ sed_s "^x.sql:.*" "x.sql:applied:T2" "y.sql:applied:T1"
     = "y.sql:applied:T1"
  /\ sed_s "^a&b:.*" "a&b:applied:T" "a&b:x" = "aa&b:xb:applied:T".
Proof. by vm_compute. Qed.

Example glob_sorts_and_filters :
  glob_star_sql (list_to_map
                   [("b.sql", file []); ("a.sql", file []); (".c.sql", file []);
                    ("notes.txt", file []); ("B.sql", file [])])
  = ["B.sql"; "a.sql"; "b.sql"]
  /\ glob_star_sql (list_to_map [("notes.txt", file [])]) = ["*.sql"].
Proof. by vm_compute. Qed.

Example grep_reads_a_dollar_as_the_end_of_the_line :
  recognises "a$).sql" "a$).sql:applied:2024-05-01 10:00:00" = false
  /\ begins_record "a$|b.sql" "a$|b.sql:applied:2024-05-01 10:00:00" = false
  /\ recognises "a$.sql" "a$.sql:applied:2024-05-01 10:00:00" = true
  /\ recognises "a$" "a$:applied:2024-05-01 10:00:00" = true.
Proof. by vm_compute. Qed.

Example sed_refuses_a_star_after_a_star :
  grep_q "^a**.sql:" ["a!sql:b.sql:applied:T1"] = true
  /\ sed_i "^a**.sql:.*" "a**.sql:applied:T2" ["a!sql:b.sql:applied:T1"]
     = (["a!sql:b.sql:applied:T1"], 1%Z)
  /\ sed_i "^**a:.*" "**a:applied:T2" ["***a:x"] = (["**a:applied:T2"], 0%Z)
  /\ sed_i "^***a:.*" "***a:applied:T2" ["***a:x"] = (["***a:x"], 1%Z).
Proof. by vm_compute. Qed.

(** The names of the three sample migrations keep apart. *)
Lemma three_fixed_keep_apart :
  separate wall_clock (matching_names three_fixed).
Proof.
  intros n m k Hn Hm.
  change (matching_names three_fixed)
    with ["001-users.sql"; "002-orders.sql"; "003-index.sql"] in Hn, Hm.
  repeat (apply elem_of_cons in Hn as [->|Hn]);
    [..|by apply elem_of_nil in Hn];
    (repeat (apply elem_of_cons in Hm as [->|Hm]);
     [..|by apply elem_of_nil in Hm]);
    destruct k as [|[|[|k]]]; by vm_compute.
Qed.

(** The wait loop with a server that answers the third time. *)
Example third_probe_succeeds :
  (entrypoint (Environment third_time wall_clock true None) 5 fresh).1.1
  = [Echo WaitingForPostgres;
     Probe false; Echo Unavailable; Sleep 2;
     Probe false; Echo Unavailable; Sleep 2;
     Probe true; Echo PostgresIsUp; Echo Checking;
     Echo NoMigrationsDirectory; Echo Starting]
  /\ (entrypoint (Environment third_time wall_clock true None) 2 fresh).2
     = StillWaiting.
Proof. by vm_compute. Qed.

(** The runner applies its migration at every call: two calls, two
    rows. *)
Example runner_applies_twice :
  let once := runUnreadMessageMigration (container (Some unread)) fresh in
  let twice := runUnreadMessageMigration (container (Some unread)) once.1.2 in
  once.2 = 0%Z /\ db once.1.2 = ["read_at"]
  /\ twice.2 = 0%Z /\ db twice.1.2 = ["read_at"; "read_at"]
  /\ status twice.1.2 = None.
Proof. by vm_compute. Qed.

(** The statement on the records at a sample: the three migrations, and
    a status file with a line of [x.sql] that says something else than
    "applied". *)
Lemma records_kept_or_rewritten_witness :
  modelled (container (Some three)) = true
  /\ Bre.supported "x.sql" = true
  /\ mark_migration_applied "x.sql" "T2" (Some [header; "x.sql:failed:T1"])
     = (Some [header; "x.sql:applied:T2"], Some 0%Z).
Proof.
  split; [reflexivity|]. split; [reflexivity|].
  apply (proj1 (records_kept_or_rewritten (container (Some three)) 1 fresh
                  "x.sql" "T2" [header; "x.sql:failed:T1"]
                  eq_refl eq_refl)).
  - intros line Hin.
    repeat (apply elem_of_cons in Hin as [->|Hin]; [reflexivity|]).
    by apply elem_of_nil in Hin.
  - reflexivity.
  - reflexivity.
Defined.

(** The statement on the exit status at a sample: the three migrations
    on a fresh volume. *)
Lemma exit_statuses_witness :
  modelled (container (Some three)) = true
  /\ ((entrypoint (container (Some three)) 1 fresh).2 = StartedApplication
      <-> (exists k, k < 1 /\ pg_isready (container (Some three)) k = true)
          /\ (forall n rc,
                Psql n rc ∈ (entrypoint (container (Some three)) 1 fresh).1.1 ->
                rc = 0%Z)
          /\ (forall n rc,
                Sed n rc ∈ (entrypoint (container (Some three)) 1 fresh).1.1 ->
                rc = 0%Z)).
Proof.
  split; [reflexivity|].
  exact (proj1 (proj2 (proj2
           (exit_statuses (container (Some three)) 1 fresh eq_refl)))).
Defined.

(** A name with a star after a starred item.  The first run records
    [a!sql:b.sql]; [a**.sql] is then added.  The second run applies it,
    finds a line that [^a**.sql:] matches, and ends with the status of
    the [sed] that refuses [^a**.sql:.*]: the database is changed, the
    status file is not, and the application is not started; so it goes
    at every further run. *)
Example starred_twice_ends_the_run :
  let first := entrypoint (container (Some Faults.doubled_first)) 1 fresh in
  let second := entrypoint (container (Some Faults.doubled_both)) 1 first.1.2 in
  let third := entrypoint (container (Some Faults.doubled_both)) 1 second.1.2 in
  first.2 = StartedApplication
  /\ second.2 = Exited 1
  /\ executed second.1.1 = ["a**.sql"]
  /\ db second.1.2 = ["a"; "b"]
  /\ status second.1.2 = status first.1.2
  /\ third.2 = Exited 1
  /\ db third.1.2 = ["a"; "a"; "b"].
Proof. by vm_compute. Qed.

(** A name with a dollar before a closing parenthesis is never found in
    the status file: it is applied at every run. *)
Example dollar_name_is_applied_again :
  let first := entrypoint (container (Some Faults.dollar)) 1 fresh in
  let second := entrypoint (container (Some Faults.dollar)) 1 first.1.2 in
  first.2 = StartedApplication
  /\ status first.1.2
     = Some [header; "a$).sql:applied:2024-05-01 10:00:00"]
  /\ executed second.1.1 = ["a$).sql"]
  /\ db second.1.2 = ["a"; "a"].
Proof. by vm_compute. Qed.

(** C1. Two migrations, [a-b.sql] and [a.b.sql], on a fresh volume:
    neither is recorded as applied at the start, so both should be
    applied, in this order.  The entrypoint applies the first and skips
    the second: the dot of [a.b.sql] is read by [grep] as "any
    character", so the record just written for [a-b.sql] passes for a
    record of [a.b.sql].  The run ends well, [a.b.sql] is listed as
    skipped and was never handed to [psql]. *)
Theorem dotted_name_is_skipped :
  let r := entrypoint (container (Some dotted)) 1 fresh in
  modelled (container (Some dotted)) = true
  /\ is_migration_applied "a-b.sql" (status fresh) = false
  /\ is_migration_applied "a.b.sql" (status fresh) = false
  /\ r.2 = StartedApplication
  /\ appliedNames r.1.1 = ["a-b.sql"]
  /\ skippedNames r.1.1 = ["a.b.sql"]
  /\ executed r.1.1 = ["a-b.sql"]
  /\ db r.1.2 = ["ab"].
Proof. by vm_compute. Qed.

(** C2. Three pending migrations; the server rejects the second
    statement of the second one.  The entrypoint should stop there with
    a status other than 0 and leave the second and the third migration
    unrecorded.  It does not: [psql], called without [ON_ERROR_STOP],
    exits with 0, so the second migration is recorded as applied, the
    third is applied as well, and the application is started. *)
Theorem rejected_statement_does_not_stop_the_run :
  let r := entrypoint (container (Some three)) 1 fresh in
  modelled (container (Some three)) = true
  /\ in_order [CREATE "orders"; CREATE "users"; CREATE "items"] ["users"] = None
  /\ r.2 = StartedApplication
  /\ executed r.1.1 = ["001-users.sql"; "002-orders.sql"; "003-index.sql"]
  /\ appliedNames r.1.1 = ["001-users.sql"; "002-orders.sql"; "003-index.sql"]
  /\ is_migration_applied "002-orders.sql" (status r.1.2) = true
  /\ is_migration_applied "003-index.sql" (status r.1.2) = true
  /\ appliedNames (entrypoint (container (Some three_fixed)) 1 r.1.2).1.1 = [].
Proof. by vm_compute. Qed.

(** C3. One migration, [a*.sql], applied by a first run that ends well.
    A second run on the same files should apply nothing and write
    nothing.  It applies the migration again: the star of the name is
    read by [grep] as a repetition, the expression [^a*.sql:applied:]
    does not match the record of [a*.sql], and the database gets the
    row a second time. *)
Theorem starred_name_is_applied_again :
  let first := entrypoint (container (Some starred_name)) 1 fresh in
  let second := entrypoint (container (Some starred_name)) 1 first.1.2 in
  modelled (container (Some starred_name)) = true
  /\ first.2 = StartedApplication
  /\ appliedNames first.1.1 = ["a*.sql"]
  /\ db first.1.2 = ["row"]
  /\ appliedNames second.1.1 = ["a*.sql"]
  /\ skippedNames second.1.1 = []
  /\ executed second.1.1 = ["a*.sql"]
  /\ db second.1.2 = ["row"; "row"].
Proof. by vm_compute. Qed.

(** C4. One migration of three statements, the second of which the
    server rejects.  The migration should leave the database as it was
    and stay pending.  Through the entrypoint the first and the third
    statement are performed and stay (there is no transaction to roll
    back), the migration is recorded as applied, and the next run skips
    it.  The runner, given the same statements, does what the claim
    says: it rolls back and exits with 1. *)
Theorem rejected_statement_is_recorded :
  let r := entrypoint (container (Some faulty)) 1 fresh in
  modelled (container (Some faulty)) = true
  /\ in_order [CREATE "a"; CREATE "a"; CREATE "b"] (db fresh) = None
  /\ db r.1.2 = ["b"; "a"]
  /\ status r.1.2
     = Some [header; "001-init.sql:applied:2024-05-01 10:00:00"]
  /\ r.2 = StartedApplication
  /\ skippedNames (entrypoint (container (Some faulty)) 1 r.1.2).1.1
     = ["001-init.sql"]
  /\ runUnreadMessageMigration (container (Some unread_faulty)) fresh
     = ([Query BEGIN true;
         Query (SCRIPT [CREATE "a"; CREATE "a"; CREATE "b"]) false;
         Query ROLLBACK true; Echo RunnerFailed],
        fresh, 1%Z).
Proof. by vm_compute. Qed.

(** C7. Without a status file [is_migration_applied] answers "no" for
    every name.  But three files on a fresh volume do not always give
    three applications and three records: of [01-base.sql],
    [01.base.sql] and [02-rest.sql] the entrypoint applies two and
    writes two records, because the record of [01-base.sql] passes for
    a record of [01.base.sql]. *)
Theorem bootstrap_misses_a_file :
  let r := entrypoint (container (Some bootstrap)) 1 fresh in
  modelled (container (Some bootstrap)) = true
  /\ (forall name, is_migration_applied name None = false)
  /\ status fresh = None
  /\ matching_names bootstrap = ["01-base.sql"; "01.base.sql"; "02-rest.sql"]
  /\ r.2 = StartedApplication
  /\ appliedNames r.1.1 = ["01-base.sql"; "02-rest.sql"]
  /\ status r.1.2
     = Some [header; "01-base.sql:applied:2024-05-01 10:00:00";
             "02-rest.sql:applied:2024-05-01 10:00:01"].
Proof. by vm_compute. Qed.

(** C6 fails as stated.  Marking a migration that has a line in the
    status file updates that line: the record of [x.sql] written at
    [T1] is replaced by a record written at [T2].  A run of the
    entrypoint can do the same to the record of another migration.  A
    first run applies [x.sql:y.sql] and records it; the file [x.sql] is
    then added; the second run applies [x.sql], and its [sed] rewrites
    the record of [x.sql:y.sql], which begins with [x.sql:], into the
    record of [x.sql]: the old record is gone, and [x.sql:y.sql] is
    applied a second time. *)
Lemma record_is_overwritten :
  let first := entrypoint (container (Some colon_first)) 1 fresh in
  let second := entrypoint (container (Some colon_both)) 1 first.1.2 in
  mark_migration_applied "x.sql" "T1" None
  = (Some [header; "x.sql:applied:T1"], None)
  /\ mark_migration_applied "x.sql" "T2" (Some [header; "x.sql:applied:T1"])
     = (Some [header; "x.sql:applied:T2"], Some 0%Z)
  /\ status first.1.2
     = Some [header; "x.sql:y.sql:applied:2024-05-01 10:00:00"]
  /\ status second.1.2
     = Some [header; "x.sql:applied:2024-05-01 10:00:01";
             "x.sql:y.sql:applied:2024-05-01 10:00:02"]
  /\ ("x.sql:y.sql:applied:2024-05-01 10:00:00"
        ∉ lines_of (status second.1.2))
  /\ executed second.1.1 = ["x.sql"; "x.sql:y.sql"].
Proof.
  vm_compute. split_and!; try done.
  intros Hin. repeat (apply elem_of_cons in Hin as [[=]|Hin]).
  by apply elem_of_nil in Hin.
Qed.

(** C8 fails as stated.  Without a migrations directory the entrypoint
    does not exit with a status other than 0: it skips the migrations
    and starts the application.  With a server that never answers it
    does not exit either: after a thousand attempts it is still
    waiting. *)
Lemma no_exit_without_directory_or_server :
  (entrypoint (container None) 1 fresh).2 = StartedApplication
  /\ (entrypoint (unreachable (Some three)) 1000 fresh).2 = StillWaiting.
Proof. by vm_compute. Qed.

End Cases.

(** * Further properties of the two programs *)

Section Further.
Context {srv : Server}.
Implicit Types (env : environment) (dir : gmap string entry) (w : world).

Lemma autocommit_in_order (ss : list statement) (d d' : database) :
  in_order ss d = Some d' -> autocommit ss d = d'.
Proof.
  revert d. induction ss as [|s ss IH]; intros d; simpl.
  - by intros [= ->].
  - destruct (exec s d) as [d1|]; [apply IH|done].
Qed.

(** X2. [runUnreadMessageMigration] commits the whole file or nothing:
    the database it leaves is either the one that the statements of the
    file, performed in order, lead to, and then [COMMIT] was accepted;
    or the one it started with, and then no [COMMIT] was accepted.  The
    status file and the clock are as they were.  An exit with 0 comes
    after an accepted [COMMIT]; but so can an exit with 1: after an
    accepted [COMMIT] the runner exits with 1 exactly when one of its
    look-ups in the catalogue was rejected, and the migration stays
    committed. *)
Theorem runner_commits_all_or_nothing env w :
  let r := runUnreadMessageMigration env w in
  ((exists file d,
      migrations env ≫= (fun dir => dir !! unread_migration) = Some file
      /\ in_order (script file) (db w) = Some d
      /\ db r.1.2 = d
      /\ Query COMMIT true ∈ r.1.1)
   \/ (db r.1.2 = db w /\ Query COMMIT true ∉ r.1.1))
  /\ status r.1.2 = status w /\ clock_reads r.1.2 = clock_reads w
  /\ (r.2 = 0%Z -> Query COMMIT true ∈ r.1.1)
  /\ (Query COMMIT true ∈ r.1.1 ->
      (r.2 = 1%Z <-> exists what, Query (SELECT what) false ∈ r.1.1)).
Proof.
  intros r. subst r.
  destruct (runner_keeps_status env w) as [Hst Hclock].
  rewrite runner_unfold.
  assert (forall (e : event) d,
            e ∈ [Query ROLLBACK (answers "ROLLBACK" d);
                 Echo (if answers "ROLLBACK" d then RunnerFailed
                       else ScriptFailed)] ->
            e <> Query COMMIT true
            /\ forall what, e <> Query (SELECT what) false) as Hcaught.
  { intros e d He.
    repeat (apply elem_of_cons in He as [->|He]; [done|]).
    by apply elem_of_nil in He. }
  assert (forall l : list event,
            (forall e, e ∈ l ->
               e <> Query COMMIT true
               /\ (forall what, e <> Query (SELECT what) false)) ->
            (Query COMMIT true ∉ l)
            /\ ~ (exists what, Query (SELECT what) false ∈ l)) as Hnone.
  { intros l Hl. split; [intros Hin; by destruct (Hl _ Hin)|].
    intros (what & Hin). destruct (Hl _ Hin) as [_ Hne]. by apply (Hne what). }
  destruct (negb (connects env)).
  { cbn [fst snd]. split_and!; [right|done..| |]; [|done|].
    - split; [done|]. by intros ?%list_elem_of_singleton.
    - by intros ?%list_elem_of_singleton. }
  destruct (migrations env ≫= _) as [file|]; last first.
  { cbn [fst snd]. split_and!; [right|done..| |]; [|done|].
    - split; [done|]. by intros ?%list_elem_of_singleton.
    - by intros ?%list_elem_of_singleton. }
  cbn zeta.
  destruct (regular file && readable file); last first.
  { cbn [fst snd db]. destruct (Hnone _ (fun e => Hcaught e (db w))) as [Hc _].
    split_and!; [by right|done..|done|done]. }
  destruct (answers "BEGIN" (db w)); last first.
  { cbn [fst snd db].
    assert (Query COMMIT true
              ∉ [Query BEGIN false]
                ++ [Query ROLLBACK (answers "ROLLBACK" (db w));
                    Echo (if answers "ROLLBACK" (db w) then RunnerFailed
                          else ScriptFailed)]) as Hc.
    { intros [Hin|Hin]%elem_of_app; [|by destruct (Hcaught _ _ Hin)].
      by apply list_elem_of_singleton in Hin. }
    split_and!; [by right|done..|done|done]. }
  destruct (in_order (script file) (db w)) as [d|] eqn:Hscript; last first.
  { cbn [fst snd db].
    assert (Query COMMIT true
              ∉ [Query BEGIN true; Query (SCRIPT (script file)) false]
                ++ [Query ROLLBACK (answers "ROLLBACK" (db w));
                    Echo (if answers "ROLLBACK" (db w) then RunnerFailed
                          else ScriptFailed)]) as Hc.
    { intros [Hin|Hin]%elem_of_app; [|by destruct (Hcaught _ _ Hin)].
      repeat (apply elem_of_cons in Hin as [?|Hin]; [done|]).
      by apply elem_of_nil in Hin. }
    split_and!; [by right|done..|done|done]. }
  destruct (answers "COMMIT" d); last first.
  { cbn [fst snd db].
    assert (Query COMMIT true
              ∉ [Query BEGIN true; Query (SCRIPT (script file)) true;
                 Query COMMIT false]
                ++ [Query ROLLBACK (answers "ROLLBACK" (db w));
                    Echo (if answers "ROLLBACK" (db w) then RunnerFailed
                          else ScriptFailed)]) as Hc.
    { intros [Hin|Hin]%elem_of_app; [|by destruct (Hcaught _ _ Hin)].
      repeat (apply elem_of_cons in Hin as [?|Hin]; [done|]).
      by apply elem_of_nil in Hin. }
    split_and!; [by right|done..|done|done]. }
  pose proof (send_rejection d) as Hv.
  destruct (send verification (Session d Idle)) as [[evs s] ok].
  cbn [fst snd db] in Hv |- *.
  assert (Query COMMIT true
            ∈ Query BEGIN true :: Query (SCRIPT (script file)) true
                :: Query COMMIT true
                :: evs ++ (if ok then []
                           else [Query ROLLBACK (answers "ROLLBACK" d);
                                 Echo (if answers "ROLLBACK" d
                                       then RunnerFailed else ScriptFailed)]))
    as Hc by set_solver.
  split_and!; [left; by exists file, d|done..|done|].
  intros _. destruct ok.
  - rewrite app_nil_r. split; [done|]. intros (what & Hin).
    repeat (apply elem_of_cons in Hin as [?|Hin]; [done|]).
    destruct Hv. by exists what.
  - split; [|done]. intros _. destruct Hv as (what & Hin).
    exists what. do 3 right. apply elem_of_app. by left.
Qed.

(** X3. Whenever the runner exits with 0, [psql -f] on the same file,
    as the entrypoint calls it, would have ended with status 0 and the
    same database: on a file the server accepts entirely the two
    programs agree. *)
Theorem runner_agrees_with_psql env w :
  let r := runUnreadMessageMigration env w in
  r.2 = 0%Z ->
  exists file,
    migrations env ≫= (fun dir => dir !! unread_migration) = Some file
    /\ psql_f env file (db w) = (0%Z, db r.1.2).
Proof.
  intros r. subst r. rewrite runner_unfold. unfold psql_f.
  destruct (negb (connects env)); [by simpl|].
  destruct (migrations env ≫= _) as [file|]; [|by simpl]. cbn zeta.
  destruct (regular file) eqn:Hreg, (readable file) eqn:Hread;
    cbn [andb fst snd]; try done.
  destruct (answers "BEGIN" (db w)); [|by cbn [fst snd]].
  destruct (in_order (script file) (db w)) as [d'|] eqn:Hin;
    [|by cbn [fst snd]].
  destruct (answers "COMMIT" d'); [|by cbn [fst snd]].
  cbn [fst snd db]. intros _. exists file. split; [done|].
  rewrite Hread. cbn [negb]. by rewrite (autocommit_in_order _ _ _ Hin).
Qed.

(** X4. When the entrypoint exits, its status is 1 and it has just met
    a failure: either a call of [psql] that returned a status other
    than 0, which it reports in two lines, or, after a call of [psql]
    that returned 0, a call of [sed] that refused the expression made
    of the name of the migration.  Every call of [psql] and of [sed]
    before that one returned 0, and the status file the entrypoint
    leaves does not list the migration it stopped at as applied. *)
Theorem entrypoint_exits_at_a_failure env fuel w code :
  modelled env = true ->
  (entrypoint env fuel w).2 = Exited code ->
  code = 1%Z
  /\ exists evs name,
       (forall n rc, Psql n rc ∈ evs -> rc = 0%Z)
       /\ (forall n rc, Sed n rc ∈ evs -> rc = 0%Z)
       /\ is_migration_applied name (status (entrypoint env fuel w).1.2)
          = false
       /\ ((exists rc,
              rc <> 0%Z
              /\ (entrypoint env fuel w).1.1
                 = evs ++ [Echo (Applying name); Echo UsingDatabase;
                           Psql name rc;
                           Echo (MigrationFailed name); Echo ConnectionDetails])
           \/ (Bre.posix ("^" +:+ name +:+ ":.*") = false
               /\ (entrypoint env fuel w).1.1
                  = evs ++ [Echo (Applying name); Echo UsingDatabase;
                            Psql name 0; Sed name 1])).
Proof.
  intros _.
  pose proof (entrypoint_unfold env fuel w) as Hrun.
  pose proof (until_pg_isready_spec env fuel 0) as Hwait.
  destruct (until_pg_isready env fuel 0) as [evs0 [|]]; rewrite Hrun; simpl;
    [|done].
  destruct Hwait as (k & _ & _ & _ & ->).
  rewrite run_migrations_unfold.
  destruct (migrations env) as [dir|]; simpl; [|done].
  destruct (for_each env dir (glob_star_sql dir) w).2 as [c|] eqn:Hend; [|done].
  intros [= <-].
  destruct (stops_at_first_failure env dir _ w c Hend)
    as (-> & evs & name & Hp & Hs & Happ & Hlast).
  split; [done|].
  exists (Echo WaitingForPostgres :: (rounds k ++ [Probe true])
            ++ Echo PostgresIsUp :: Echo Checking :: evs), name.
  assert (forall e : event,
            (exists n rc, e = Psql n rc \/ e = Sed n rc) ->
            e ∈ Echo WaitingForPostgres :: (rounds k ++ [Probe true])
                ++ Echo PostgresIsUp :: Echo Checking :: evs ->
            e ∈ evs) as Hin.
  { intros e He.
    repeat (rewrite elem_of_cons || rewrite elem_of_app).
    rewrite elem_of_nil.
    intros [->|[[Hr|[->|?]]|[->|[->|?]]]]; try done;
      try (by destruct He as (n & rc & [?|?])).
    by apply not_elem_of_rounds in Hr. }
  split_and!; [| |done|].
  - intros n rc Hn. apply (Hp n), Hin; eauto.
  - intros n rc Hn. apply (Hs n), Hin; eauto.
  - rewrite app_nil_r.
    destruct Hlast as [(rc & Hrc & ->)|(Hposix & ->)]; [left; exists rc|right];
      (split; [done|]);
      by rewrite <- ?app_assoc, <- ?app_comm_cons, <- ?app_assoc.
Qed.

(** X5. Marking a migration when there is no status file creates one
    that holds the header line and the record of that migration, and
    nothing else, and [sed] is not called (for the names the matcher
    speaks for); before that, [is_migration_applied] answers "no". *)
Theorem first_record_creates_the_file (name ts : string) :
  Bre.supported name = true ->
  mark_migration_applied name ts None = (Some [header; record name ts], None)
  /\ is_migration_applied name None = false.
Proof.
  intros _. split; [|done]. rewrite mark_unfold. cbn [ledger existsb].
  by rewrite (proj1 (header_is_no_record name)).
Qed.

End Further.

Section FurtherCases.
Import Sample.
#[local] Existing Instance Sample.server.

Lemma names_that_keep_apart_witness :
  modelled (container (Some three_fixed)) = true
  /\ migrations (container (Some three_fixed)) = Some three_fixed
  /\ separate (date (container (Some three_fixed))) (matching_names three_fixed)
  /\ clean (matching_names three_fixed) (status fresh)
  /\ (entrypoint (container (Some three_fixed)) 1 fresh).2 = StartedApplication
  /\ appliedNames (entrypoint (container (Some three_fixed)) 1 fresh).1.1
     = filter (fun n => pending three_fixed (status fresh) n = true)
         (matching_names three_fixed)
  /\ appliedNames (entrypoint (container (Some three_fixed)) 1 fresh).1.1
     = ["001-users.sql"; "002-orders.sql"; "003-index.sql"]
  /\ forall fuel,
       appliedNames
         (entrypoint (container (Some three_fixed)) fuel
            (entrypoint (container (Some three_fixed)) 1 fresh).1.2).1.1
       = [].
Proof.
  assert (clean (matching_names three_fixed) (status fresh)) as Hclean.
  { intros line m Hline. by apply elem_of_nil in Hline. }
  split; [reflexivity|]. split; [reflexivity|].
  split; [exact three_fixed_keep_apart|]. split; [exact Hclean|].
  split; [reflexivity|].
  destruct (names_that_keep_apart (container (Some three_fixed)) 1 fresh
              three_fixed eq_refl eq_refl three_fixed_keep_apart Hclean eq_refl)
    as (Ha & _ & _ & Hagain).
  split; [exact Ha|]. split; [reflexivity|].
  intros fuel.
  exact (proj1 (Hagain (container (Some three_fixed)) fuel eq_refl)).
Defined.

Lemma entrypoint_exits_at_a_failure_witness :
  modelled (Faults.refusing (Some three)) = true
  /\ (entrypoint (Faults.refusing (Some three)) 1 fresh).2 = Exited 1
  /\ exists evs name,
       (forall n rc, Psql n rc ∈ evs -> rc = 0%Z)
       /\ (forall n rc, Sed n rc ∈ evs -> rc = 0%Z)
       /\ is_migration_applied name
            (status (entrypoint (Faults.refusing (Some three)) 1 fresh).1.2)
          = false
       /\ ((exists rc,
              rc <> 0%Z
              /\ (entrypoint (Faults.refusing (Some three)) 1 fresh).1.1
                 = evs ++ [Echo (Applying name); Echo UsingDatabase;
                           Psql name rc;
                           Echo (MigrationFailed name); Echo ConnectionDetails])
           \/ (Bre.posix ("^" +:+ name +:+ ":.*") = false
               /\ (entrypoint (Faults.refusing (Some three)) 1 fresh).1.1
                  = evs ++ [Echo (Applying name); Echo UsingDatabase;
                            Psql name 0; Sed name 1])).
Proof.
  split; [reflexivity|]. split; [reflexivity|].
  exact (proj2 (entrypoint_exits_at_a_failure (Faults.refusing (Some three)) 1
                  fresh 1 eq_refl eq_refl)).
Defined.

Lemma runner_agrees_with_psql_witness :
  (runUnreadMessageMigration (container (Some unread)) fresh).2 = 0%Z
  /\ exists file,
       migrations (container (Some unread))
         ≫= (fun dir => dir !! unread_migration) = Some file
       /\ psql_f (container (Some unread)) file (db fresh)
          = (0%Z, db (runUnreadMessageMigration (container (Some unread)) fresh).1.2).
Proof.
  split; [reflexivity|].
  exact (runner_agrees_with_psql (container (Some unread)) fresh eq_refl).
Defined.

Lemma first_record_creates_the_file_witness :
  Bre.supported "001-users.sql" = true
  /\ mark_migration_applied "001-users.sql" "2024-05-01 10:00:00" None
     = (Some [header; record "001-users.sql" "2024-05-01 10:00:00"], None).
Proof.
  split; [reflexivity|].
  exact (proj1 (first_record_creates_the_file "001-users.sql"
                  "2024-05-01 10:00:00" eq_refl)).
Defined.
End FurtherCases.

(** The runner on a server that rejects the last look-up: it exits with
    1, and the migration is committed. *)
Section LateFailure.
Import Sample.
#[local] Existing Instance Faults.wary.

Example runner_fails_after_commit :
  let r := runUnreadMessageMigration
             (Faults.unread_on Faults.wary [ADD "read_at"])
             (World [] None 0) in
  r.2 = 1%Z
  /\ db r.1.2 = ["read_at"]
  /\ r.1.1
     = [Query BEGIN true; Query (SCRIPT [ADD "read_at"]) true;
        Query COMMIT true; Query (SELECT "columns") true;
        Query (SELECT "indexes") true; Query (SELECT "functions") true;
        Query (SELECT "triggers") false; Query ROLLBACK true;
        Echo RunnerFailed].
Proof. by vm_compute. Qed.
End LateFailure.

(** The runner on a server that rejects [COMMIT]: it exits with 1, and
    the database is as it was. *)
Section EarlyFailure.
Import Sample.
#[local] Existing Instance Faults.strict.

Example runner_fails_at_commit :
  let r := runUnreadMessageMigration
             (Faults.unread_on Faults.strict [ADD "read_at"])
             (World [] None 0) in
  r.2 = 1%Z
  /\ db r.1.2 = []
  /\ r.1.1
     = [Query BEGIN true; Query (SCRIPT [ADD "read_at"]) true;
        Query COMMIT false; Query ROLLBACK true; Echo RunnerFailed].
Proof. by vm_compute. Qed.
End EarlyFailure.

(** * The deployment script *)

Section Deployment.
Import Deploy.

(** ** Extended regular expressions *)
Lemma matches_void s : Ere.matches Ere.Void s = false.
Proof. induction s as [|c s IH]; [done|]. exact IH. Qed.

Lemma matches_eps s : Ere.matches Ere.Eps s = is_empty s.
Proof. destruct s as [|c s]; [done|]. simpl. apply matches_void. Qed.

Lemma matches_alt r1 r2 s :
  Ere.matches (Ere.Alt r1 r2) s = Ere.matches r1 s || Ere.matches r2 s.
Proof. revert r1 r2. induction s as [|c s IH]; intros r1 r2; [done|]. apply IH. Qed.

Lemma matches_seq r1 r2 s :
  Ere.matches (Ere.Seq r1 r2) s = true
  <-> exists s1 s2,
        s = s1 +:+ s2 /\ Ere.matches r1 s1 = true /\ Ere.matches r2 s2 = true.
Proof.
  revert r1. induction s as [|c s IH]; intros r1.
  - simpl. rewrite andb_true_iff. split.
    + intros [??]. exists EmptyString, EmptyString. by repeat split.
    + intros (s1 & s2 & Hs & H1 & H2). by destruct s1, s2.
  - simpl. destruct (Ere.nullable r1) eqn:Hnull.
    + rewrite matches_alt, orb_true_iff, IH. split.
      * intros [(s1 & s2 & -> & H1 & H2)|H2].
        -- by exists (String c s1), s2.
        -- by exists EmptyString, (String c s).
      * intros (s1 & s2 & Hs & H1 & H2). destruct s1 as [|c1 s1].
        -- right. rewrite append_empty in Hs. subst s2. exact H2.
        -- left. rewrite append_cons in Hs. injection Hs as -> ->.
           by exists s1, s2.
    + rewrite IH. split.
      * intros (s1 & s2 & -> & H1 & H2). by exists (String c s1), s2.
      * intros (s1 & s2 & Hs & H1 & H2). destruct s1 as [|c1 s1].
        -- simpl in H1. congruence.
        -- rewrite append_cons in Hs. injection Hs as -> ->. by exists s1, s2.
Qed.

Lemma matches_seq_eps r s : Ere.matches (Ere.Seq Ere.Eps r) s = Ere.matches r s.
Proof.
  apply eq_true_iff_eq. rewrite matches_seq. split.
  - intros (s1 & s2 & -> & H1 & H2). rewrite matches_eps in H1.
    by destruct s1.
  - intros H. by exists EmptyString, s.
Qed.

Lemma matches_seq_void r s : Ere.matches (Ere.Seq Ere.Void r) s = false.
Proof.
  apply not_true_is_false. rewrite matches_seq.
  intros (s1 & s2 & _ & H1 & _). by rewrite matches_void in H1.
Qed.

(** A character of a class, then the rest. *)
Lemma matches_class_then f r s :
  Ere.matches (Ere.Seq (Ere.Class f) r) s
  = match s with
    | String c s' => f c && Ere.matches r s'
    | EmptyString => false
    end.
Proof.
  destruct s as [|c s]; [done|]. simpl.
  destruct (f c); [apply matches_seq_eps|apply matches_seq_void].
Qed.

Lemma matches_class f s :
  Ere.matches (Ere.Class f) s
  = match s with
    | String c EmptyString => f c
    | _ => false
    end.
Proof.
  destruct s as [|c s]; [done|]. simpl. destruct (f c).
  - rewrite matches_eps. by destruct s.
  - rewrite matches_void. by destruct s.
Qed.

Lemma matches_star_class f s :
  Ere.matches (Ere.Star (Ere.Class f)) s = all_of f s.
Proof.
  induction s as [|c s IH]; [done|].
  change (Ere.matches (Ere.Star (Ere.Class f)) (String c s))
    with (Ere.matches (Ere.Seq (if f c then Ere.Eps else Ere.Void)
                         (Ere.Star (Ere.Class f))) s).
  simpl. destruct (f c); simpl.
  - by rewrite matches_seq_eps.
  - apply matches_seq_void.
Qed.

Lemma matches_plus_class f s :
  Ere.matches (Ere.Plus (Ere.Class f)) s = negb (is_empty s) && all_of f s.
Proof.
  unfold Ere.Plus. rewrite matches_class_then.
  destruct s as [|c s]; [done|]. by rewrite matches_star_class.
Qed.

Lemma matches_at_least_2_class f s :
  Ere.matches (Ere.AtLeast2 (Ere.Class f)) s
  = (2 <=? String.length s) && all_of f s.
Proof.
  unfold Ere.AtLeast2. rewrite matches_class_then.
  destruct s as [|c s]; [done|]. rewrite matches_class_then.
  destruct s as [|c' s]; [by rewrite andb_false_r|].
  by rewrite matches_star_class.
Qed.

(** ** The validators *)

Lemma all_of_app f s t : all_of f (s +:+ t) = all_of f s && all_of f t.
Proof.
  induction s as [|c s IH]; [done|].
  rewrite append_cons. simpl. by rewrite IH, andb_assoc.
Qed.

Lemma all_of_weaken (f g : ascii -> bool) s :
  (forall c, f c = true -> g c = true) -> all_of f s = true -> all_of g s = true.
Proof.
  intros Hfg. induction s as [|c s IH]; [done|]. simpl.
  rewrite !andb_true_iff. intros [??]. auto.
Qed.

Lemma length_app_string s t :
  String.length (s +:+ t) = String.length s + String.length t.
Proof. induction s as [|c s IH]; [done|]. rewrite append_cons. simpl. by rewrite IH. Qed.

Lemma is_empty_true s : is_empty s = true <-> s = EmptyString.
Proof. by destruct s. Qed.

Lemma is_empty_false s : is_empty s = false <-> s <> EmptyString.
Proof. by destruct s. Qed.

Lemma count_char_app c s t :
  count_char c (s +:+ t) = count_char c s + count_char c t.
Proof.
  induction s as [|a s IH]; [done|]. rewrite append_cons. simpl.
  rewrite IH. lia.
Qed.

Lemma occurs_app c s t : occurs c (s +:+ t) = occurs c s || occurs c t.
Proof.
  induction s as [|a s IH]; [done|]. rewrite append_cons. simpl.
  by rewrite IH, orb_assoc.
Qed.

(** A string made of the characters of a class holds no character from
    outside the class. *)
Lemma all_of_excludes f c s :
  all_of f s = true -> f c = false ->
  occurs c s = false /\ count_char c s = 0.
Proof.
  intros Hall Hc. induction s as [|a s IH]; [done|].
  simpl in Hall. apply andb_true_iff in Hall as [Ha Hs].
  destruct (IH Hs) as [Ho Hn]. simpl. rewrite Ho, Hn.
  destruct (Ascii.eqb_spec c a) as [->|_]; [congruence|done].
Qed.

(** The names that [validate_instance_name] accepts. *)
Lemma instance_name_shape (inst : instances) (name : string) :
  validate_instance_name inst name = Accepted
  <-> (exists c rest, name = String c rest /\ alnum c = true)
      /\ all_of (fun c => alnum c || one_of "_-" c) name = true
      /\ 3 <= String.length name <= 30
      /\ is_directory inst name = false.
Proof.
  unfold validate_instance_name, instance_name_re.
  rewrite matches_class_then.
  destruct name as [|c rest].
  { simpl. split; [done|]. by intros [(? & ? & ? & _) _]. }
  rewrite matches_star_class.
  change (all_of _ (String c rest))
    with ((alnum c || one_of "_-" c) && all_of (fun c => alnum c || one_of "_-" c) rest).
  destruct (alnum c) eqn:Hc; simpl negb; last first.
  { split; [done|]. by intros [(? & ? & [= <- <-] & ?) _]; congruence. }
  simpl orb at 1. rewrite !andb_true_l.
  destruct (all_of _ rest) eqn:Hrest; simpl negb; last first.
  { split; [done|]. by intros (_ & ? & _). }
  destruct (String.length (String c rest) <? 3) eqn:Hlo.
  { apply Nat.ltb_lt in Hlo. simpl "||". split; [done|]. intros (_ & _ & ? & _). lia. }
  destruct (30 <? String.length (String c rest)) eqn:Hhi.
  { apply Nat.ltb_lt in Hhi. simpl "||". split; [done|]. intros (_ & _ & ? & _). lia. }
  apply Nat.ltb_ge in Hlo, Hhi. simpl "||".
  destruct (is_directory inst (String c rest)); simpl.
  - split; [done|]. by intros (_ & _ & _ & ?).
  - split; [|done]. intros _. split_and!; eauto.
Qed.

(** X6. [validate_instance_name] accepts a name exactly when it begins
    with an ASCII letter or digit, consists of letters, digits,
    underscores and hyphens, has between 3 and 30 characters, and no
    directory of that name exists under the instances directory.  An
    accepted name therefore holds no quote, slash, dot or space. *)
Theorem instance_name_accepted (inst : instances) (name : string) :
  (validate_instance_name inst name = Accepted
   <-> (exists c rest, name = String c rest /\ alnum c = true)
       /\ all_of (fun c => alnum c || one_of "_-" c) name = true
       /\ 3 <= String.length name <= 30
       /\ is_directory inst name = false)
  /\ (validate_instance_name inst name = Accepted ->
      quote_free name = true /\ occurs "/" name = false
      /\ occurs "." name = false /\ occurs " " name = false).
Proof.
  split; [apply instance_name_shape|].
  intros (_ & Hall & _)%instance_name_shape. unfold quote_free.
  rewrite (proj1 (all_of_excludes _ "'" _ Hall eq_refl)).
  rewrite (proj1 (all_of_excludes _ "/" _ Hall eq_refl)).
  rewrite (proj1 (all_of_excludes _ "." _ Hall eq_refl)).
  by rewrite (proj1 (all_of_excludes _ " " _ Hall eq_refl)).
Qed.

Lemma email_shape (email : string) :
  Ere.matches email_re email = true
  <-> exists l d t,
        email = l +:+ "@" +:+ d +:+ "." +:+ t
        /\ l <> EmptyString /\ all_of local_part l = true
        /\ d <> EmptyString /\ all_of domain_part d = true
        /\ 2 <= String.length t /\ all_of alpha t = true.
Proof.
  unfold email_re. rewrite matches_seq. split.
  - intros (l & rest & -> & Hl & Hrest).
    rewrite matches_plus_class in Hl. apply andb_true_iff in Hl as [Hl1 Hl2].
    rewrite matches_class_then in Hrest.
    destruct rest as [|a rest]; [done|].
    apply andb_true_iff in Hrest as [Ha Hrest]. apply Ascii.eqb_eq in Ha as <-.
    apply matches_seq in Hrest as (d & rest' & -> & Hd & Hrest).
    rewrite matches_plus_class in Hd. apply andb_true_iff in Hd as [Hd1 Hd2].
    rewrite matches_class_then in Hrest.
    destruct rest' as [|b t]; [done|].
    apply andb_true_iff in Hrest as [Hb Ht]. apply Ascii.eqb_eq in Hb as <-.
    rewrite matches_at_least_2_class in Ht.
    apply andb_true_iff in Ht as [Ht1 Ht2]. apply Nat.leb_le in Ht1.
    exists l, d, t. split_and!; try done.
    + apply is_empty_false. by apply negb_true_iff.
    + apply is_empty_false. by apply negb_true_iff.
  - intros (l & d & t & -> & Hl1 & Hl2 & Hd1 & Hd2 & Ht1 & Ht2).
    exists l, ("@" +:+ d +:+ "." +:+ t). split_and!; [done|..].
    + rewrite matches_plus_class, Hl2.
      apply is_empty_false in Hl1. by rewrite Hl1.
    + rewrite append_cons, append_empty, matches_class_then. simpl.
      apply matches_seq. exists d, ("." +:+ t). split_and!; [done|..].
      * rewrite matches_plus_class, Hd2.
        apply is_empty_false in Hd1. by rewrite Hd1.
      * rewrite append_cons, append_empty, matches_class_then. simpl.
        rewrite matches_at_least_2_class, Ht2.
        apply Nat.leb_le in Ht1. by rewrite Ht1.
Qed.

Lemma email_quote_free (email : string) :
  validate_email email = Accepted -> quote_free email = true.
Proof.
  unfold validate_email.
  destruct (Ere.matches email_re email) eqn:Hm; [|done]. intros _.
  apply email_shape in Hm as (l & d & t & -> & _ & Hl & _ & Hd & _ & Ht).
  assert (all_of domain_part t = true) as Ht'.
  { eapply all_of_weaken; [|exact Ht]. intros c Hc. unfold domain_part, alnum.
    by rewrite Hc. }
  unfold quote_free. rewrite !occurs_app.
  rewrite (proj1 (all_of_excludes _ "'" _ Hl eq_refl)).
  rewrite (proj1 (all_of_excludes _ "'" _ Hd eq_refl)).
  by rewrite (proj1 (all_of_excludes _ "'" _ Ht' eq_refl)).
Qed.

(** X7. [validate_email] accepts an address exactly when it reads
    [LOCAL@DOMAIN.TLD] with a non-empty local part made of letters,
    digits and [._%+-], a non-empty domain made of letters, digits, dots
    and hyphens, and a last label of at least two letters.  An accepted
    address has exactly one [@] and no single quote. *)
Theorem email_accepted (email : string) :
  (validate_email email = Accepted
   <-> exists l d t,
         email = l +:+ "@" +:+ d +:+ "." +:+ t
         /\ l <> EmptyString /\ all_of local_part l = true
         /\ d <> EmptyString /\ all_of domain_part d = true
         /\ 2 <= String.length t /\ all_of alpha t = true)
  /\ (validate_email email = Accepted ->
      count_char "@" email = 1 /\ quote_free email = true
      /\ all_of (fun c => local_part c || Ascii.eqb c "@") email = true).
Proof.
  assert (validate_email email = Accepted
          <-> Ere.matches email_re email = true) as Hv.
  { unfold validate_email. by destruct (Ere.matches email_re email). }
  rewrite Hv, email_shape. split; [done|].
  intros (l & d & t & -> & _ & Hl & _ & Hd & _ & Ht).
  assert (all_of domain_part t = true) as Ht'.
  { eapply all_of_weaken; [|exact Ht]. intros c Hc. unfold domain_part, alnum.
    by rewrite Hc. }
  split_and!.
  - rewrite !count_char_app.
    rewrite (proj2 (all_of_excludes _ "@" _ Hl eq_refl)).
    rewrite (proj2 (all_of_excludes _ "@" _ Hd eq_refl)).
    by rewrite (proj2 (all_of_excludes _ "@" _ Ht' eq_refl)).
  - unfold quote_free. rewrite !occurs_app.
    rewrite (proj1 (all_of_excludes _ "'" _ Hl eq_refl)).
    rewrite (proj1 (all_of_excludes _ "'" _ Hd eq_refl)).
    by rewrite (proj1 (all_of_excludes _ "'" _ Ht' eq_refl)).
  - rewrite !all_of_app.
    assert (forall s, all_of domain_part s = true ->
              all_of (fun c => local_part c || Ascii.eqb c "@") s = true) as Hdl.
    { intros s. apply all_of_weaken. intros c.
      unfold domain_part, local_part, one_of. simpl.
      destruct (alnum c), (Ascii.eqb c "."), (Ascii.eqb c "-"); simpl;
        try done; by rewrite ?orb_true_r. }
    rewrite (Hdl d Hd), (Hdl t Ht').
    rewrite (all_of_weaken local_part _ l); [done| |done].
    intros c ->. done.
Qed.

Lemma decimal_from_digits (s : string) (acc : N) :
  is_Some (decimal_from acc s) <-> all_of digit s = true.
Proof.
  revert acc. induction s as [|c s IH]; intros acc; simpl.
  - split; [done|]. by eexists.
  - destruct (digit c); simpl.
    + apply IH.
    + split; [by intros [? [=]]|done].
Qed.

Lemma decimal_digits (s : string) :
  is_Some (decimal s) <-> is_empty s = false /\ all_of digit s = true.
Proof.
  destruct s as [|c s].
  - simpl. split; [by intros [? [=]]|by intros [[=] _]].
  - unfold decimal. rewrite decimal_from_digits. naive_solver.
Qed.

Lemma port_digits (port : string) :
  validate_port port = Accepted -> all_of digit port = true.
Proof.
  unfold validate_port, port_re. rewrite matches_plus_class.
  destruct (all_of digit port); [done|]. by rewrite andb_false_r.
Qed.

Lemma port_quote_free (port : string) :
  validate_port port = Accepted -> quote_free port = true.
Proof.
  intros Hport%port_digits. unfold quote_free.
  by rewrite (proj1 (all_of_excludes _ "'" _ Hport eq_refl)).
Qed.

(** X8. [validate_port] accepts a string exactly when it is a non-empty
    string of digits whose decimal value is between 1024 and 65535, or
    is too large for a signed 64-bit integer: on such a number both
    comparisons of the [test] builtin fail with status 2, which the
    condition takes for "no".  Leading zeros do not matter. *)
Theorem port_accepted (port : string) :
  (validate_port port = Accepted
   <-> exists v, decimal port = Some v
                 /\ ((1024 <= v <= 65535)%N \/ (INTMAX_MAX < v)%N))
  /\ validate_port "8080" = Accepted
  /\ validate_port "0080" = Rejected InvalidPort
  /\ validate_port "008080" = Accepted
  /\ validate_port "65536" = Rejected InvalidPort
  /\ validate_port "99999999999999999999" = Accepted.
Proof.
  split; [|by vm_compute].
  unfold validate_port, test_lt, test_gt, port_re.
  rewrite matches_plus_class.
  pose proof (decimal_digits port) as Hd.
  destruct (decimal port) as [v|].
  - destruct (proj1 Hd (mk_is_Some _ _ eq_refl)) as [-> ->]. simpl negb.
    rewrite orb_false_l.
    destruct (N.leb_spec v INTMAX_MAX) as [Hfit|Hfit].
    + destruct (N.ltb_spec v 1024) as [Hlo|Hlo]; simpl.
      { split; [done|]. intros (? & [= <-] & [?|?]); unfold INTMAX_MAX in *; lia. }
      destruct (N.ltb_spec 65535 v) as [Hhi|Hhi]; simpl.
      { split; [done|]. intros (? & [= <-] & [?|?]); unfold INTMAX_MAX in *; lia. }
      split; [|done]. intros _. exists v. split; [done|]. left. lia.
    + simpl. split; [|done]. intros _. exists v. split; [done|]. by right.
  - assert (negb (is_empty port) && all_of digit port = false) as ->.
    { apply not_true_is_false. intros [Hn Ha]%andb_true_iff.
      apply negb_true_iff in Hn.
      by destruct (proj2 Hd (conj Hn Ha)) as [? [=]]. }
    simpl. split; [done|]. by intros (? & [=] & _).
Qed.

(** ** The prompts *)

Lemma prompt_cons prompt default var v line rest :
  prompt_with_default prompt default var (Some v) (line :: rest)
  = match v (supplied default line) with
    | Rejected why =>
        let r := prompt_with_default prompt default var (Some v) rest in
        (Asking prompt default :: why :: r.1.1, r.1.2, r.2)
    | Accepted =>
        ([Asking prompt default],
         if quote_free (supplied default line)
         then Stored (supplied default line)
         else Evaluated (var +:+ "='" +:+ supplied default line +:+ "'"),
         rest)
    end.
Proof.
  simpl. destruct (v (supplied default line)); [done|].
  by destruct (prompt_with_default _ _ _ _ rest) as [[??]?].
Qed.

Lemma prompt_with_validator
    (prompt default var : string) (v : string -> verdict) (stdin : list string) :
  (forall s, v s = Accepted -> quote_free s = true) ->
  let r := prompt_with_default prompt default var (Some v) stdin in
  exists refused,
    Forall (fun line => v (supplied default line) <> Accepted) refused
    /\ ((r.1.2 = EndOfInput /\ stdin = refused /\ r.2 = [])
        \/ exists line,
             stdin = refused ++ line :: r.2
             /\ v (supplied default line) = Accepted
             /\ r.1.2 = Stored (supplied default line)).
Proof.
  intros Hv r. subst r. induction stdin as [|line rest IH].
  - exists []. split; [done|]. by left.
  - rewrite prompt_cons. destruct (v (supplied default line)) eqn:Hline.
    + exists []. split; [done|]. right. exists line. simpl.
      by rewrite (Hv _ Hline).
    + destruct IH as (refused & Hall & IH). exists (line :: refused).
      split; [constructor; [congruence|done]|]. simpl.
      destruct IH as [(-> & -> & ->)|(l & Hl & Hacc & ->)].
      * by left.
      * right. exists l. by rewrite Hl at 1.
Qed.

(** X9. [prompt_with_default] with a validator that accepts no text
    with a single quote (as the three validators of the script do)
    never hands anything but an assignment to [eval]: it goes through
    the lines of the input, each standing for itself trimmed or for the
    default when it is empty, refuses them up to the first one the
    validator accepts, stores that one and leaves the lines after it
    unread; when no line is accepted the input ends and so does the
    script.  Without a validator the first line is taken, and a line
    with a single quote is evaluated as shell code. *)
Theorem prompt_stores_the_first_accepted_answer
    (prompt default var : string) (stdin : list string) :
  (forall v : string -> verdict,
     (forall s, v s = Accepted -> quote_free s = true) ->
     let r := prompt_with_default prompt default var (Some v) stdin in
     exists refused,
       Forall (fun line => v (supplied default line) <> Accepted) refused
       /\ ((r.1.2 = EndOfInput /\ stdin = refused /\ r.2 = [])
           \/ exists line,
                stdin = refused ++ line :: r.2
                /\ v (supplied default line) = Accepted
                /\ r.1.2 = Stored (supplied default line)))
  /\ (forall inst s, validate_instance_name inst s = Accepted ->
                     quote_free s = true)
  /\ (forall s, validate_email s = Accepted -> quote_free s = true)
  /\ (forall s, validate_port s = Accepted -> quote_free s = true)
  /\ (forall line rest,
        stdin = line :: rest ->
        prompt_with_default prompt default var None stdin
        = ([Asking prompt default],
           if quote_free (supplied default line)
           then Stored (supplied default line)
           else Evaluated (var +:+ "='" +:+ supplied default line +:+ "'"),
           rest)).
Proof.
  split_and!.
  - intros v. apply prompt_with_validator.
  - intros inst s (_ & Hall & _)%instance_name_shape. unfold quote_free.
    by rewrite (proj1 (all_of_excludes _ "'" _ Hall eq_refl)).
  - apply email_quote_free.
  - apply port_quote_free.
  - by intros line rest ->.
Qed.

(** ** The defaults *)

Lemma split_at_first (c : ascii) (l l' r r' : string) :
  occurs c l = false -> occurs c l' = false ->
  l +:+ String c r = l' +:+ String c r' -> l = l' /\ r = r'.
Proof.
  revert l'. induction l as [|a l IH]; intros [|a' l'] Hl Hl'.
  - rewrite !append_empty. by intros [= ->].
  - rewrite append_empty, append_cons. intros [= <- _]. simpl in Hl'.
    by rewrite Ascii.eqb_refl in Hl'.
  - rewrite append_empty, append_cons. intros [= -> _]. simpl in Hl.
    by rewrite Ascii.eqb_refl in Hl.
  - rewrite !append_cons. intros [= <- Heq]. simpl in Hl, Hl'.
    apply orb_false_iff in Hl as [_ Hl]. apply orb_false_iff in Hl' as [_ Hl'].
    by destruct (IH l' Hl Hl' Heq) as [-> ->].
Qed.

Lemma all_of_forall f s :
  all_of f s = true <-> forall c, occurs c s = true -> f c = true.
Proof.
  induction s as [|a s IH]; simpl.
  - split; [by intros _ c [=]|done].
  - rewrite andb_true_iff, IH. split.
    + intros [Ha Hs] c [Hc|Hc]%orb_true_iff; [|by apply Hs].
      by apply Ascii.eqb_eq in Hc as ->.
    + intros H. split.
      * apply H. by rewrite Ascii.eqb_refl.
      * intros c Hc. apply H. by rewrite Hc, orb_true_r.
Qed.

(** The characters of an instance name, one by one. *)
Lemma name_char_cases (c : ascii) :
  (alnum c || one_of "_-" c = true ->
   Ascii.eqb c "_" = false -> domain_part c = true)
  /\ domain_part "_" = false
  /\ (alnum c || one_of "_-" c = true ->
      let c' := to_lower (dash_to_underscore c) in
      lower c' || digit c' || Ascii.eqb c' "_" = true).
Proof.
  destruct c as [[] [] [] [] [] [] [] []]; by vm_compute.
Qed.

(** X10. The default of the admin email prompt, [admin@NAME.com], is
    itself checked by [validate_email]: for an instance name that
    [validate_instance_name] has accepted it passes exactly when the
    name has no underscore.  With an underscore in the name, the empty
    answer is refused and the prompt comes again. *)
Theorem default_admin_email_accepted (inst : instances) (name : string) :
  validate_instance_name inst name = Accepted ->
  (validate_email (default_admin_email name) = Accepted
   <-> occurs "_" name = false).
Proof.
  intros Hname. apply instance_name_shape in Hname as (Hfirst & Hall & _).
  assert (validate_email (default_admin_email name) = Accepted
          <-> Ere.matches email_re (default_admin_email name) = true) as ->.
  { unfold validate_email. by destruct (Ere.matches email_re _). }
  rewrite email_shape. unfold default_admin_email. split.
  - intros (l & d & t & Heq & _ & Hl & _ & Hd & _ & Ht).
    apply (split_at_first "@" "admin" l) in Heq as [<- Heq];
      [|done|by apply (all_of_excludes local_part)].
    assert (all_of domain_part (name +:+ ".com") = true) as Hdom.
    { rewrite Heq, !all_of_app, Hd. simpl.
      eapply all_of_weaken; [|exact Ht]. intros c Hc.
      unfold domain_part, alnum. by rewrite Hc. }
    rewrite all_of_app in Hdom. apply andb_true_iff in Hdom as [Hdom _].
    by apply (all_of_excludes domain_part).
  - intros Hnone. exists "admin", name, "com".
    split_and!; try done.
    + destruct Hfirst as (c & rest & -> & _). done.
    + apply all_of_forall. intros c Hc.
      apply (proj1 (name_char_cases c)).
      * by apply (proj1 (all_of_forall _ _) Hall).
      * destruct (Ascii.eqb_spec c "_") as [->|]; [congruence|done].
    + simpl. lia.
Qed.

(** X11. The default database name computed from an accepted instance
    name is that name with hyphens turned into underscores and capitals
    into small letters, followed by [_db]: it has the length of the
    name plus three and holds small letters, digits and underscores
    only. *)
Theorem default_db_name_is_lower_case (inst : instances) (name : string) :
  validate_instance_name inst name = Accepted ->
  exists base,
    default_db_name name = base +:+ "_db"
    /\ String.length base = String.length name
    /\ all_of (fun c => lower c || digit c || Ascii.eqb c "_") base = true.
Proof.
  intros Hname. apply instance_name_shape in Hname as (_ & Hall & _).
  unfold default_db_name. eexists. split; [done|].
  clear inst. induction name as [|c name IH]; [done|].
  simpl in Hall. apply andb_true_iff in Hall as [Hc Hall].
  destruct (IH Hall) as [Hlen Hchars]. simpl. rewrite Hlen, Hchars.
  split; [done|].
  by rewrite (proj2 (proj2 (name_char_cases c)) Hc).
Qed.

(** X12. [confirm_deployment] cancels the deployment exactly when the
    answer, trimmed, is [n] or [N]; any other line, the empty one and
    the word [no] included, lets it go on; without an answer the script
    ends. *)
Theorem deployment_is_cancelled_by_n_only (stdin : list string) :
  ((confirm_deployment stdin).1 = Some 0%Z
   <-> exists line rest,
         stdin = line :: rest /\ (read_r line = "n" \/ read_r line = "N"))
  /\ ((confirm_deployment stdin).1 = Some 1%Z <-> stdin = [])
  /\ (confirm_deployment ["no"]).1 = None
  /\ (confirm_deployment [""]).1 = None
  /\ (confirm_deployment ["  N "]).1 = Some 0%Z.
Proof.
  split_and!; try by vm_compute.
  - destruct stdin as [|line rest]; simpl.
    { split; [done|]. by intros (? & ? & [=] & _). }
    unfold no_re. rewrite matches_class.
    destruct (read_r line) as [|c [|c' s]] eqn:Hline.
    + split; [done|]. intros (? & ? & [= <- <-] & [?|?]); congruence.
    + destruct (one_of "Nn" c) eqn:Hc.
      * split; [|done]. intros _. exists line, rest. split; [done|].
        rewrite Hline. unfold one_of in Hc. simpl in Hc.
        apply orb_true_iff in Hc as [Hc|Hc].
        -- apply Ascii.eqb_eq in Hc as ->. by right.
        -- rewrite orb_false_r in Hc. apply Ascii.eqb_eq in Hc as ->. by left.
      * split; [done|]. intros (? & ? & [= <- <-] & [?|?]);
          rewrite Hline in *; simplify_eq; done.
    + split; [done|]. intros (? & ? & [= <- <-] & [?|?]); congruence.
  - destruct stdin as [|line rest]; simpl; [done|].
    destruct (Ere.matches _ _); split; done.
Qed.

(** ** Ports *)

Lemma pieces_literal (s : string) (acc : list Bre.piece) :
  all_of plain s = true -> Bre.pieces acc s = rev acc ++ literal s.
Proof.
  revert acc. induction s as [|c s IH]; intros acc; simpl.
  - intros _. by rewrite app_nil_r.
  - intros [Hc Hs]%andb_true_iff. unfold plain in Hc.
    apply negb_true_iff, orb_false_iff in Hc as [Hc Hdollar].
    apply orb_false_iff in Hc as [Hdot Hstar].
    rewrite Hstar, Hdollar. cbn [andb]. rewrite (IH _ Hs).
    unfold Bre.atom_of. rewrite Hdot. simpl. by rewrite <- app_assoc.
Qed.

Lemma longest_literal (s line : string) :
  Bre.longest (literal s) line
  = if String.prefix s line then Some (String.length s) else None.
Proof.
  revert line. induction s as [|c s IH]; intros line; simpl.
  - by destruct line.
  - destruct line as [|a line]; [done|]. simpl.
    rewrite IH.
    destruct (Ascii.eqb_spec c a) as [->|Hne].
    + destruct (ascii_dec a a) as [_|?]; [|done].
      by destruct (String.prefix s line).
    + by destruct (ascii_dec c a) as [?|_].
Qed.

Lemma leftmost_literal (s line : string) (from : nat) :
  is_Some (Bre.leftmost (literal s) from line) <-> contains s line = true.
Proof.
  revert from. induction line as [|a line IH]; intros from.
  - destruct s as [|c s]; simpl.
    + split; [done|by eexists].
    + split; [by intros [? [=]]|done].
  - cbn [Bre.leftmost contains]. rewrite longest_literal.
    destruct (String.prefix s (String a line)); [split; [done|by eexists]|].
    rewrite orb_false_l. apply IH.
Qed.

Lemma selects_plain (c : ascii) (s line : string) :
  Ascii.eqb c "^" = false -> all_of plain (String c s) = true ->
  Bre.selects (Bre.compile (String c s)) line = contains (String c s) line.
Proof.
  intros Hc Hs.
  assert (Bre.compile (String c s)
          = Bre.Pattern false (Bre.pieces [] (String c s))) as ->.
  { destruct c as [[] [] [] [] [] [] [] []]; try reflexivity; discriminate Hc. }
  unfold Bre.selects, Bre.find. cbn [Bre.anchored Bre.body].
  rewrite (pieces_literal _ [] Hs). cbn [rev app].
  apply eq_true_iff_eq. rewrite bool_decide_eq_true. apply leftmost_literal.
Qed.

(** [grep -q TEXT]: is the text in one of the lines? *)
Lemma grep_q_plain (c : ascii) (s : string) (lines : list string) :
  Ascii.eqb c "^" = false -> all_of plain (String c s) = true ->
  grep_q (String c s) lines = existsb (contains (String c s)) lines.
Proof.
  intros Hc Hs. unfold grep_q.
  induction lines as [|line lines IH]; [done|]. cbn [existsb].
  by rewrite IH, selects_plain.
Qed.

Lemma digits_are_plain (s : string) :
  all_of digit s = true -> all_of plain s = true.
Proof.
  apply all_of_weaken. intros c.
  destruct c as [[] [] [] [] [] [] [] []]; by vm_compute.
Qed.

(** X13. For a port written in digits, the patterns of
    [is_port_available] are plain text: the port is reported taken
    exactly when a line of [netstat] or [ss] contains [:PORT] followed
    by a space, or a line of [docker ps] contains [:PORT->]. *)
Theorem port_is_taken_when_listed (sys : sockets) (port : string) :
  all_of digit port = true ->
  is_port_available sys port
  = negb (existsb (contains (":" +:+ port +:+ " ")) (netstat_tuln sys))
    && negb (existsb (contains (":" +:+ port +:+ "->")) (docker_ps_ports sys))
    && negb (existsb (contains (":" +:+ port +:+ " ")) (ss_tuln sys)).
Proof.
  intros Hport. apply digits_are_plain in Hport. unfold is_port_available.
  rewrite !append_cons, !append_empty.
  assert (forall tail, all_of plain tail = true ->
            all_of plain (String ":" (port +:+ tail)) = true) as Hplain.
  { intros tail Htail. cbn [all_of]. by rewrite all_of_app, Hport, Htail. }
  by rewrite !grep_q_plain by (done || by apply Hplain).
Qed.

(** *** Numbers, written and read *)
Lemma pretty_N_char_digit (d : N) :
  (d < 10)%N ->
  digit (pretty_N_char d) = true /\ (N_of_ascii (pretty_N_char d) - 48 = d)%N.
Proof.
  intros Hd.
  assert (d = 0 \/ d = 1 \/ d = 2 \/ d = 3 \/ d = 4 \/ d = 5 \/ d = 6
          \/ d = 7 \/ d = 8 \/ d = 9)%N as Hcases by lia.
  by repeat (destruct Hcases as [->|Hcases]; [by vm_compute|]); subst.
Qed.

Lemma decimal_from_pretty_go (x : N) (s : string) :
  decimal_from 0 (pretty_N_go x s) = decimal_from x s.
Proof.
  revert s. induction (N.lt_wf_0 x) as [x _ IH]; intros s.
  destruct (decide (x = 0)%N) as [->|Hx]; [by rewrite pretty_N_go_0|].
  rewrite pretty_N_go_step by lia.
  rewrite IH by (apply N.div_lt; lia). simpl.
  destruct (pretty_N_char_digit (x `mod` 10)%N) as [-> ->].
  { apply N.mod_lt. lia. }
  f_equal. rewrite (N.div_mod x 10) at 3 by lia. lia.
Qed.

(** What bash writes for a number, it reads as that number. *)
Lemma decimal_pretty (x : N) : decimal (pretty x) = Some x.
Proof.
  unfold pretty, pretty_N. destruct (decide (x = 0)%N) as [->|Hx]; [done|].
  assert (decimal_from 0 (pretty_N_go x "") = Some x) as Hx'.
  { by rewrite decimal_from_pretty_go. }
  unfold decimal.
  destruct (pretty_N_go x "") as [|c s]; [simpl in Hx'; congruence|exact Hx'].
Qed.

Lemma pretty_digits (x : N) :
  is_empty (pretty x) = false /\ all_of digit (pretty x) = true.
Proof. apply decimal_digits. rewrite decimal_pretty. by eexists. Qed.

Lemma find_from_spec (sys : nat -> sockets) (k count : nat) (port : N) :
  match find_from sys k count port with
  | Some p =>
      exists i, i < count /\ p = (port + N.of_nat i)%N
                /\ is_port_available (sys (k + i)) (pretty p) = true
                /\ forall j, j < i ->
                     is_port_available (sys (k + j))
                       (pretty (port + N.of_nat j)%N) = false
  | None =>
      forall j, j < count ->
        is_port_available (sys (k + j)) (pretty (port + N.of_nat j)%N) = false
  end.
Proof.
  revert k port. induction count as [|count IH]; intros k port; simpl.
  - intros j Hj. lia.
  - destruct (is_port_available (sys k) (pretty port)) eqn:Hport.
    + exists 0. rewrite N.add_0_r, Nat.add_0_r. split_and!; [lia|done..|].
      intros j Hj. lia.
    + specialize (IH (S k) (N.succ port)).
      destruct (find_from sys (S k) count (N.succ port)) as [p|].
      * destruct IH as (i & Hi & -> & Hp & Hbefore). exists (S i).
        replace (k + S i) with (S k + i) by lia.
        replace (port + N.of_nat (S i))%N with (N.succ port + N.of_nat i)%N
          by lia.
        split_and!; [lia|done..|].
        intros [|j] Hj.
        -- by rewrite N.add_0_r, Nat.add_0_r.
        -- replace (k + S j) with (S k + j) by lia.
           replace (port + N.of_nat (S j))%N with (N.succ port + N.of_nat j)%N
             by lia.
           apply Hbefore. lia.
      * intros [|j] Hj.
        -- by rewrite N.add_0_r, Nat.add_0_r.
        -- replace (k + S j) with (S k + j) by lia.
           replace (port + N.of_nat (S j))%N with (N.succ port + N.of_nat j)%N
             by lia.
           apply IH. lia.
Qed.

Lemma find_available_port_range
    (sys : nat -> sockets) (start_port max_port p : N) :
  find_available_port sys start_port max_port = Some p ->
  (start_port <= p <= max_port)%N.
Proof.
  unfold find_available_port. intros Hfind.
  pose proof (find_from_spec sys 0
                (N.to_nat (N.succ max_port - start_port)) start_port) as H.
  rewrite Hfind in H. destruct H as (i & Hi & -> & _). lia.
Qed.

(** X14. [find_available_port] answers with the first port of the
    range, going up from [start_port], that [is_port_available] reports
    free at the moment it is looked at; it fails exactly when every
    port of the range was reported taken.  An empty range fails. *)
Theorem find_available_port_finds_the_first
    (sys : nat -> sockets) (start_port max_port : N) :
  match find_available_port sys start_port max_port with
  | Some p =>
      (start_port <= p <= max_port)%N
      /\ is_port_available (sys (N.to_nat (p - start_port))) (pretty p) = true
      /\ forall q, (start_port <= q < p)%N ->
           is_port_available (sys (N.to_nat (q - start_port))) (pretty q)
           = false
  | None =>
      forall q, (start_port <= q <= max_port)%N ->
        is_port_available (sys (N.to_nat (q - start_port))) (pretty q) = false
  end.
Proof.
  unfold find_available_port.
  pose proof (find_from_spec sys 0
                (N.to_nat (N.succ max_port - start_port)) start_port) as H.
  destruct (find_from sys 0 _ start_port) as [p|].
  - destruct H as (i & Hi & -> & Hp & Hbefore).
    replace (N.to_nat (start_port + N.of_nat i - start_port)) with i by lia.
    split_and!; [lia|lia|done|].
    intros q Hq.
    specialize (Hbefore (N.to_nat (q - start_port))). simpl in Hbefore.
    replace (start_port + N.of_nat (N.to_nat (q - start_port)))%N with q
      in Hbefore by lia.
    apply Hbefore. lia.
  - intros q Hq.
    specialize (H (N.to_nat (q - start_port))). simpl in H.
    replace (start_port + N.of_nat (N.to_nat (q - start_port)))%N with q
      in H by lia.
    apply H. lia.
Qed.

Lemma validate_port_in_range (p : N) :
  (1024 <= p <= 65535)%N -> validate_port (pretty p) = Accepted.
Proof.
  intros Hp. unfold validate_port, test_lt, test_gt, port_re.
  rewrite matches_plus_class, decimal_pretty.
  destruct (pretty_digits p) as [-> ->]. simpl.
  destruct (N.leb_spec p INTMAX_MAX) as [_|Hbig];
    [|unfold INTMAX_MAX in Hbig; lia].
  destruct (N.ltb_spec p 1024) as [?|_]; [lia|].
  by destruct (N.ltb_spec 65535 p) as [?|_]; [lia|].
Qed.

Lemma print_error_is_no_port (text : string) :
  validate_port (print_error text) = Rejected InvalidPort.
Proof.
  unfold validate_port, port_re, print_error.
  by rewrite matches_plus_class, append_cons.
Qed.

Lemma suggested_port_in_range (sys : nat -> sockets) (start_port max_port : N) :
  (1024 <= start_port)%N -> (max_port <= 65535)%N ->
  validate_port (suggested_port sys start_port max_port) = Accepted
  <-> is_Some (find_available_port sys start_port max_port).
Proof.
  intros Hlo Hhi.
  pose proof (find_available_port_range sys start_port max_port) as Hrange.
  unfold suggested_port.
  destruct (find_available_port sys start_port max_port) as [p|].
  - specialize (Hrange p eq_refl). split; [by eexists|]. intros _.
    apply validate_port_in_range. lia.
  - rewrite print_error_is_no_port. split; [done|]. by intros [? [=]].
Qed.

(** X15. The port that [collect_instance_config] suggests is what
    [find_available_port] wrote: the port it found, in decimal, which
    [validate_port] accepts when the range lies within 1024..65535; or,
    when it found none, its error message, which [validate_port]
    refuses, so that an empty answer to the prompt is refused as
    well.  For the two ranges of the script, 9000..9999 and 5432..5532,
    the suggestion is an acceptable answer exactly when a port was
    found. *)
Theorem suggested_port_is_a_port_or_a_message
    (sys : nat -> sockets) (start_port max_port : N) :
  match find_available_port sys start_port max_port with
  | Some p =>
      decimal (suggested_port sys start_port max_port) = Some p
      /\ ((1024 <= start_port)%N -> (max_port <= 65535)%N ->
          validate_port (suggested_port sys start_port max_port) = Accepted)
  | None =>
      validate_port (suggested_port sys start_port max_port)
      = Rejected InvalidPort
      /\ forall prompt var stdin,
           (prompt_with_default prompt
              (suggested_port sys start_port max_port) var
              (Some validate_port) ("" :: stdin))
           = let r := prompt_with_default prompt
                        (suggested_port sys start_port max_port) var
                        (Some validate_port) stdin in
             (Asking prompt (suggested_port sys start_port max_port)
                :: InvalidPort :: r.1.1, r.1.2, r.2)
  end
  /\ (validate_port (suggested_port sys MIN_APP_PORT MAX_APP_PORT) = Accepted
      <-> is_Some (find_available_port sys MIN_APP_PORT MAX_APP_PORT))
  /\ (validate_port (suggested_port sys MIN_DB_PORT MAX_DB_PORT) = Accepted
      <-> is_Some (find_available_port sys MIN_DB_PORT MAX_DB_PORT)).
Proof.
  split_and!; [|by apply suggested_port_in_range..].
  pose proof (find_available_port_range sys start_port max_port) as Hrange.
  unfold suggested_port.
  destruct (find_available_port sys start_port max_port) as [p|].
  - split; [apply decimal_pretty|]. intros Hlo Hhi.
    specialize (Hrange p eq_refl). apply validate_port_in_range. lia.
  - split; [apply print_error_is_no_port|]. intros prompt var stdin.
    rewrite prompt_cons.
    assert (forall text, supplied (print_error text) "" = print_error text)
      as -> by done.
    by rewrite print_error_is_no_port.
Qed.

(** ** Installing and deploying *)

(** X16. [install_dependencies] calls [npm install] at most three
    times, stopping at the first call that succeeds, and sleeps five
    seconds between two calls only.  It ends the script, with status 1,
    exactly when [package.json] is missing (then [npm] is not called)
    or all three calls fail. *)
Theorem install_dependencies_gives_up_after_three
    (package_json : bool) (npm : nat -> bool) :
  let r := install_dependencies package_json npm in
  (r.2 = None
   <-> package_json = true
       /\ (npm 1 = true \/ npm 2 = true \/ npm 3 = true))
  /\ (r.2 = None \/ r.2 = Some 1%Z)
  /\ npm_calls r.1 `prefix_of` [npm 1; npm 2; npm 3]
  /\ (package_json = false -> npm_calls r.1 = [])
  /\ (forall i, i + 1 < length (npm_calls r.1) ->
                npm_calls r.1 !! i = Some false)
  /\ (r.2 = None -> last (npm_calls r.1) = Some true)
  /\ pauses r.1 = replicate (length (npm_calls r.1) - 1) 5.
Proof.
  intros r. subst r. unfold install_dependencies.
  destruct package_json; simpl;
    [destruct (npm 1) eqn:H1; simpl;
     [|destruct (npm 2) eqn:H2; simpl;
       [|destruct (npm 3) eqn:H3; simpl]]|];
    split_and!;
    first [done | naive_solver | by left | by right | by eexists
          | apply prefix_nil
          | intros [|[|[|i]]] Hi; simpl in Hi; done || lia].
Qed.

Lemma create_shared_network_cases (d : docker) :
  let r := create_shared_network d in
  r.2 = (if network_exists d || create_with_subnet d || create_plain d
            || create_after_prune d
         then None else Some 1%Z)
  /\ probes r.1 = [] /\ pauses r.1 = []
  /\ Say MayStillBeStarting ∉ r.1.
Proof.
  unfold create_shared_network.
  destruct (network_exists d), (create_with_subnet d), (create_plain d),
    (create_after_prune d); simpl; split_and!; try done;
    intros Hin; repeat (apply elem_of_cons in Hin as [[=]|Hin]);
    by apply elem_of_nil in Hin.
Qed.

Lemma wait_for_services_once (d : docker) :
  wait_for_services d max_wait 0 0
  = if healthy d 0 then ([HealthProbe true; Say ServicesHealthy], 0)
    else ([HealthProbe false; Say Dot; Pause 5], 5).
Proof. simpl. by destruct (healthy d 0). Qed.

(** X17. [deploy_instance] ends the script, always with status 1,
    exactly when the shared network cannot be had, [Dockerfile.simple]
    or [node_modules] is missing, or [docker-compose build] or [up -d]
    fails; it then has not looked at the health of the services.
    Otherwise it looks at their health once, sleeps 5 seconds and warns
    if they are not healthy, sleeps 10 seconds and runs the migrations;
    neither unhealthy services nor a failing migration command make it
    fail. *)
Theorem deployment_does_not_wait_for_health (d : docker) (name : string) :
  let r := deploy_instance d name in
  (r.2 = None
   <-> (network_exists d || create_with_subnet d || create_plain d
        || create_after_prune d) = true
       /\ dockerfile_simple d = true /\ node_modules d = true
       /\ build d = 0%Z /\ up d = 0%Z)
  /\ (r.2 = None \/ r.2 = Some 1%Z)
  /\ (r.2 = None ->
      probes r.1 = [healthy d 0]
      /\ pauses r.1 = (if healthy d 0 then [10] else [5; 10])
      /\ Compose [name] ExecMigrate (migrate d) ∈ r.1
      /\ (Say MayStillBeStarting ∈ r.1 <-> healthy d 0 = false))
  /\ (r.2 = Some 1%Z -> probes r.1 = [] /\ pauses r.1 = []).
Proof.
  intros r. subst r. unfold deploy_instance.
  rewrite wait_for_services_once.
  destruct (create_shared_network_cases d) as (Hcode & Hp & Hs & Hnot).
  destruct (create_shared_network d) as [net failed].
  simpl in Hcode, Hp, Hs, Hnot. subst failed.
  destruct (network_exists d || create_with_subnet d || create_plain d
            || create_after_prune d); last first.
  { simpl. split_and!; [naive_solver|by right|done|done]. }
  unfold probes, pauses in *.
  destruct (dockerfile_simple d); simpl;
    [|rewrite !omap_app, Hp, Hs; split_and!; [naive_solver|by right|done|done]].
  destruct (node_modules d); simpl;
    [|rewrite !omap_app, Hp, Hs; split_and!; [naive_solver|by right|done|done]].
  destruct (Z.eqb_spec (build d) 0) as [Hb|Hb]; simpl;
    [|rewrite !omap_app, Hp, Hs; split_and!; [naive_solver|by right|done|done]].
  destruct (Z.eqb_spec (up d) 0) as [Hu|Hu]; simpl;
    [|rewrite !omap_app, Hp, Hs; split_and!; [naive_solver|by right|done|done]].
  destruct (healthy d 0) eqn:Hh; simpl;
    rewrite !omap_app, Hp, Hs; simpl;
    (split_and!; [naive_solver|by left| |done]); intros _;
    (split_and!; [done|done|set_solver|]).
  - split; [|done]. intros Hin. exfalso.
    repeat (rewrite elem_of_cons in Hin || rewrite elem_of_app in Hin).
    rewrite !elem_of_nil in Hin.
    destruct_or!; try done; by destruct (migrate d =? 0)%Z.
  - split; [done|]. intros _. set_solver.
Qed.

(** ** The [.env] file, written and read *)

Lemma up_to_absent (d : ascii) (s : string) :
  occurs d s = false -> up_to d s = s.
Proof.
  induction s as [|c s IH]; [done|]. cbn [occurs up_to].
  rewrite (Ascii.eqb_sym c d).
  intros [-> Hs]%orb_false_iff. by rewrite IH.
Qed.

Lemma strip_newlines_line (s : string) :
  occurs "010" s = false -> strip_newlines (s +:+ String "010" "") = s.
Proof.
  induction s as [|c s IH]; [done|]. rewrite append_cons.
  cbn [occurs strip_newlines].
  intros [Hc Hs]%orb_false_iff. rewrite (IH Hs).
  rewrite Ascii.eqb_sym in Hc. rewrite Hc. by destruct s.
Qed.

Lemma read_back_ports (c : config) (created : string) :
  grep "^APP_PORT=" (dot_env c created) = ["APP_PORT=" +:+ APP_PORT c]
  /\ grep "^DB_PORT=" (dot_env c created) = ["DB_PORT=" +:+ DB_PORT c].
Proof. split; vm_compute; reflexivity. Qed.

Lemma strip_newlines_empty (s : string) :
  is_empty (strip_newlines s) = true -> all_of (Ascii.eqb "010") s = true.
Proof.
  induction s as [|c s IH]; [done|]. cbn [strip_newlines all_of].
  destruct (strip_newlines s) as [|a t]; [|done].
  rewrite (Ascii.eqb_sym "010" c).
  destruct (Ascii.eqb c "010"); [|done]. intros _. by apply IH.
Qed.

Lemma all_of_unlines f (lines : list string) (line : string) :
  all_of f (unlines lines) = true -> line ∈ lines -> all_of f line = true.
Proof.
  induction lines as [|l lines IH]; intros Hall Hin.
  { by apply elem_of_nil in Hin. }
  cbn [unlines] in Hall. rewrite all_of_app in Hall.
  apply andb_true_iff in Hall as [Hl Hrest]. cbn [all_of] in Hrest.
  apply andb_true_iff in Hrest as [_ Hrest].
  apply elem_of_cons in Hin as [->|Hin]; [done|by apply IH].
Qed.

(** An entry whose name begins with a letter or a digit is seen by
    [ls -A] and by the pattern [*]. *)
Lemma entry_is_seen (dir : gmap string bool) (c : ascii) (rest : string)
    (d : bool) :
  dir !! String c rest = Some d -> alnum c = true ->
  no_instances (Some dir) = false
  /\ String c rest ∈ glob_star (Some dir).
Proof.
  intros Hentry Hc.
  assert (String c rest ∈ (map_to_list dir).*1) as Hin.
  { apply list_elem_of_fmap. exists (String c rest, d). split; [done|].
    by apply elem_of_map_to_list. }
  split.
  - unfold no_instances, captured.
    destruct (is_empty (strip_newlines _)) eqn:Hempty; [|done].
    apply strip_newlines_empty in Hempty.
    apply (all_of_unlines _ _ (String c rest)) in Hempty.
    + cbn [all_of] in Hempty. apply andb_true_iff in Hempty as [Hnl _].
      apply Ascii.eqb_eq in Hnl as <-. done.
    + by rewrite merge_sort_Permutation.
  - unfold glob_star. cbn [default from_option id].
    assert (String c rest
              ∈ merge_sort String.le
                  (filter (fun n => visible n = true) (map_to_list dir).*1))
      as Hglob.
    { rewrite merge_sort_Permutation. apply list_elem_of_filter.
      split; [|done]. simpl.
      destruct (Ascii.eqb_spec c ".") as [->|Hne]; [done|].
      destruct c as [[] [] [] [] [] [] [] []]; done. }
    destruct (merge_sort _ _); [by apply elem_of_nil in Hglob|done].
Qed.

(** X18. What [list_instances] reads from the [.env] file that
    [create_instance_files] wrote are the ports it was written with:
    for ports that [validate_port] accepted, [grep "^APP_PORT="] and
    [grep "^DB_PORT="] select one line each, the second field of which
    is the port, and the row of the instance shows them. *)
Theorem ports_are_read_back (c : config) (created : string) :
  validate_port (APP_PORT c) = Accepted ->
  validate_port (DB_PORT c) = Accepted ->
  read_back "APP_PORT" (dot_env c created) = APP_PORT c
  /\ read_back "DB_PORT" (dot_env c created) = DB_PORT c
  /\ forall inst h,
       validate_instance_name inst (INSTANCE_NAME c) = Accepted ->
       is_directory (entries h) (INSTANCE_NAME c) = true ->
       env_file h (INSTANCE_NAME c) = Some (dot_env c created) ->
       Row (INSTANCE_NAME c) (APP_PORT c) (DB_PORT c)
           (grep_q "Up" (ps_output h (INSTANCE_NAME c)))
           ("http://localhost:" +:+ APP_PORT c)
         ∈ list_instances h.
Proof.
  assert (forall p, validate_port p = Accepted ->
            occurs "=" p = false /\ occurs "010" p = false) as Hdigits.
  { intros p Hp. apply port_digits in Hp.
    split; by apply (all_of_excludes digit). }
  intros [Ha1 Ha2]%Hdigits [Hd1 Hd2]%Hdigits.
  assert (read_back "APP_PORT" (dot_env c created) = APP_PORT c
          /\ read_back "DB_PORT" (dot_env c created) = DB_PORT c) as [Happ' Hdb'];
    [|split_and!; [done..|];
      intros inst h Hname Hdir Henv;
      apply instance_name_shape in Hname as ((a & rest & Hname & Ha) & _);
      pose proof Hdir as Hentry; unfold is_directory in Hentry;
      destruct (entries h) as [dir|] eqn:Hentries; [|done];
      simpl in Hentry;
      destruct (dir !! INSTANCE_NAME c) as [d|] eqn:Hlookup; [|done];
      rewrite Hname in Hlookup;
      destruct (entry_is_seen dir a rest d Hlookup Ha) as [Hsome Hglob];
      unfold list_instances; rewrite Hentries, Hsome;
      do 2 apply list_elem_of_further;
      apply list_elem_of_bind; exists (INSTANCE_NAME c);
      split; [|by rewrite Hname];
      unfold row; rewrite Hentries, Hdir, Henv, Happ', Hdb';
      by apply list_elem_of_singleton].
  unfold read_back.
  destruct (read_back_ports c created) as [Happ Hdb].
  change ("^" +:+ "APP_PORT" +:+ "=") with "^APP_PORT=".
  change ("^" +:+ "DB_PORT" +:+ "=") with "^DB_PORT=".
  rewrite Happ, Hdb. unfold captured. cbn [fmap list_fmap unlines].
  assert (forall p, cut_f2 "=" ("APP_PORT=" +:+ p) = up_to "=" p) as ->
    by reflexivity.
  assert (forall p, cut_f2 "=" ("DB_PORT=" +:+ p) = up_to "=" p) as ->
    by reflexivity.
  rewrite !up_to_absent by done.
  split; by apply strip_newlines_line.
Qed.

(** ** The commands on all instances *)

Lemma status_each_local (h : host) (names : list string) :
  status_each h names
  = if existsb (is_directory (entries h)) names
    then ([LocalOutsideFunction], Some 1%Z) else ([], None).
Proof.
  induction names as [|name rest IH]; [done|]. simpl.
  by destruct (is_directory (entries h) name).
Qed.

Lemma stop_each_local (h : host) (names : list string) :
  stop_each h names
  = if existsb (is_directory (entries h)) names
    then ([LocalOutsideFunction], Some 1%Z) else ([], None).
Proof.
  induction names as [|name rest IH]; [done|]. simpl.
  by destruct (is_directory (entries h) name).
Qed.

Lemma announce_each_local (h : host) (names : list string) :
  announce_each h names
  = if existsb (is_directory (entries h)) names
    then ([LocalOutsideFunction], Some 1%Z) else ([], None).
Proof.
  induction names as [|name rest IH]; [done|]. simpl.
  by destruct (is_directory (entries h) name).
Qed.

Lemma remove_each_local (h : host) (names : list string) :
  remove_each h names
  = if existsb (is_directory (entries h)) names
    then ([LocalOutsideFunction], Some 1%Z) else ([], None).
Proof.
  induction names as [|name rest IH]; [done|]. simpl.
  by destruct (is_directory (entries h) name).
Qed.

(** Where no name is a directory, there is nothing to take away. *)
Lemma without_no_directory (inst : instances) (names : list string) :
  existsb (is_directory inst) names = false -> without names inst = inst.
Proof.
  intros Hnone. destruct inst as [dir|]; [|done]. simpl. f_equal.
  apply map_filter_id. intros name d Hname. simpl.
  destruct d; [|by rewrite andb_false_r].
  destruct (decide (name ∈ names)) as [Hin|Hout].
  - assert (existsb (is_directory (Some dir)) names = true) as Hex.
    { apply existsb_elem_of. exists name. split; [done|].
      unfold is_directory. simpl. by rewrite Hname. }
    congruence.
  - by rewrite bool_decide_eq_false_2.
Qed.

(** X19. The branches [status], [logs], [stop] and [clean] of the
    script use [local] outside a function.  So none of them ever calls
    [docker-compose] or removes anything: [status] and [stop] exit with
    status 1 at the first instance directory, [logs] as soon as the
    instances directory is not empty, and [clean] before it asks for
    confirmation; when there is no instance directory to act on they
    report and exit with 0. *)
Theorem commands_on_all_instances_end_at_local
    (h : host) (stdin : list string) :
  let directory :=
    existsb (is_directory (entries h)) (glob_star (entries h)) in
  status_command h
  = (if no_instances (entries h) then ([Say ShowingStatus; Say NoInstances], 0%Z)
     else if directory then ([Say ShowingStatus; LocalOutsideFunction], 1%Z)
     else ([Say ShowingStatus], 0%Z))
  /\ logs_command h
     = (if no_instances (entries h) then ([Say ShowingLogs; Say NoInstances], 0%Z)
        else ([Say ShowingLogs; Say PressCtrlC; LocalOutsideFunction], 1%Z))
  /\ stop_command h
     = (if no_instances (entries h) then ([Say StoppingAll; Say NoInstances], 0%Z)
        else if directory then ([Say StoppingAll; LocalOutsideFunction], 1%Z)
        else ([Say StoppingAll; Say AllStopped], 0%Z))
  /\ clean_command h stdin
     = (if no_instances (entries h) then ([Say CleanWarning; Say NoInstances], 0%Z)
        else if directory
        then ([Say CleanWarning; Say ToBeRemovedAre; LocalOutsideFunction], 1%Z)
        else match stdin with
             | [] => ([Say CleanWarning; Say ToBeRemovedAre; Say AreYouSure], 1%Z)
             | line :: _ =>
                 if String.eqb (read_r line) "DELETE ALL"
                 then ([Say CleanWarning; Say ToBeRemovedAre; Say AreYouSure;
                        Say RemovingAll; Say AllRemoved], 0%Z)
                 else ([Say CleanWarning; Say ToBeRemovedAre; Say AreYouSure;
                        Say CleanupCancelled], 0%Z)
             end)
  /\ existsb acts (status_command h).1 = false
  /\ existsb acts (logs_command h).1 = false
  /\ existsb acts (stop_command h).1 = false
  /\ existsb acts (clean_command h stdin).1 = false.
Proof.
  intros directory.
  assert (status_command h
          = (if no_instances (entries h)
             then ([Say ShowingStatus; Say NoInstances], 0%Z)
             else if directory then ([Say ShowingStatus; LocalOutsideFunction], 1%Z)
             else ([Say ShowingStatus], 0%Z))) as Hstatus.
  { unfold status_command. rewrite status_each_local. fold directory.
    by destruct (no_instances (entries h)), directory. }
  assert (logs_command h
          = (if no_instances (entries h)
             then ([Say ShowingLogs; Say NoInstances], 0%Z)
             else ([Say ShowingLogs; Say PressCtrlC; LocalOutsideFunction], 1%Z)))
    as Hlogs by done.
  assert (stop_command h
          = (if no_instances (entries h)
             then ([Say StoppingAll; Say NoInstances], 0%Z)
             else if directory then ([Say StoppingAll; LocalOutsideFunction], 1%Z)
             else ([Say StoppingAll; Say AllStopped], 0%Z))) as Hstop.
  { unfold stop_command. rewrite stop_each_local. fold directory.
    by destruct (no_instances (entries h)), directory. }
  assert (clean_command h stdin
          = (if no_instances (entries h)
             then ([Say CleanWarning; Say NoInstances], 0%Z)
             else if directory
             then ([Say CleanWarning; Say ToBeRemovedAre; LocalOutsideFunction],
                   1%Z)
             else match stdin with
                  | [] =>
                      ([Say CleanWarning; Say ToBeRemovedAre; Say AreYouSure],
                       1%Z)
                  | line :: _ =>
                      if String.eqb (read_r line) "DELETE ALL"
                      then ([Say CleanWarning; Say ToBeRemovedAre;
                             Say AreYouSure; Say RemovingAll; Say AllRemoved],
                            0%Z)
                      else ([Say CleanWarning; Say ToBeRemovedAre;
                             Say AreYouSure; Say CleanupCancelled], 0%Z)
                  end)) as Hclean.
  { unfold clean_command.
    rewrite announce_each_local, remove_each_local. fold directory.
    destruct (no_instances (entries h)) eqn:Hnone; [done|].
    destruct directory eqn:Hdir; [done|].
    destruct stdin as [|line rest]; [done|].
    destruct (String.eqb (read_r line) "DELETE ALL"); [|done]. simpl.
    by rewrite (without_no_directory _ _ Hdir), Hnone. }
  rewrite Hstatus, Hlogs, Hstop, Hclean. split_and!; try done.
  - by destruct (no_instances (entries h)), directory.
  - by destruct (no_instances (entries h)).
  - by destruct (no_instances (entries h)), directory.
  - destruct (no_instances (entries h)), directory; try done;
      destruct stdin as [|line rest]; try done;
      by destruct (String.eqb (read_r line) "DELETE ALL").
Qed.

(** ** The generated secrets *)

Lemma length_substring_0 (n : nat) (s : string) :
  String.length (String.substring 0 n s) = Nat.min n (String.length s).
Proof.
  revert n. induction s as [|c s IH]; intros [|n]; simpl; try done.
  by rewrite IH.
Qed.

Lemma all_of_substring_0 f (n : nat) (s : string) :
  all_of f s = true -> all_of f (String.substring 0 n s) = true.
Proof.
  revert n. induction s as [|c s IH]; intros [|n]; simpl; try done.
  intros [-> Hs]%andb_true_iff. by apply IH.
Qed.

Lemma tr_d_all_of (set : string) (s : string) :
  all_of (fun c => negb (one_of set c)) (tr_d set s) = true.
Proof.
  induction s as [|c s IH]; [done|]. simpl.
  destruct (one_of set c) eqn:Hc; [done|]. simpl. by rewrite Hc.
Qed.

Lemma tr_d_keeps (set : string) (f : ascii -> bool) (s : string) :
  all_of f s = true -> all_of f (tr_d set s) = true.
Proof.
  induction s as [|c s IH]; [done|]. simpl.
  intros [Hc Hs]%andb_true_iff.
  destruct (one_of set c); [by apply IH|]. simpl. by rewrite Hc, IH.
Qed.

(** X20. [generate_password] and [generate_session_secret] keep the
    first 16 (32) characters of what [openssl] printed once [=], [+]
    and [/] are deleted: the result has none of these three characters
    and has 16 (32) characters only if that many are left, fewer
    otherwise.  From a line of base64 it holds letters and digits only,
    hence no quote. *)
Theorem generated_secrets_are_filtered (random_base64 : string) :
  let kept := tr_d "=+/" random_base64 in
  String.length (generate_password random_base64)
  = Nat.min 16 (String.length kept)
  /\ String.length (generate_session_secret random_base64)
     = Nat.min 32 (String.length kept)
  /\ all_of (fun c => negb (one_of "=+/" c)) (generate_password random_base64)
     = true
  /\ all_of (fun c => negb (one_of "=+/" c))
            (generate_session_secret random_base64) = true
  /\ (all_of (fun c => alnum c || one_of "+/=" c) random_base64 = true ->
      all_of alnum (generate_password random_base64) = true
      /\ all_of alnum (generate_session_secret random_base64) = true
      /\ quote_free (generate_password random_base64) = true).
Proof.
  intros kept. subst kept. unfold generate_password, generate_session_secret, cut_c1.
  rewrite !length_substring_0.
  assert (all_of (fun c => negb (one_of "=+/" c)) (tr_d "=+/" random_base64)
          = true) as Hout by apply tr_d_all_of.
  split_and!; [done|done|by apply all_of_substring_0..|].
  intros Hin.
  assert (all_of alnum (tr_d "=+/" random_base64) = true) as Halnum.
  { apply all_of_forall. intros c Hc.
    pose proof (proj1 (all_of_forall _ _) Hout c Hc) as H1.
    pose proof (proj1 (all_of_forall _ _)
                  (tr_d_keeps "=+/" _ _ Hin) c Hc) as H2.
    simpl in H1, H2. unfold one_of in *. simpl in *.
    destruct (alnum c); [done|]. simpl in H2.
    destruct (Ascii.eqb c "="), (Ascii.eqb c "+"), (Ascii.eqb c "/"); done. }
  split_and!; [by apply all_of_substring_0..|].
  unfold quote_free.
  by rewrite (proj1 (all_of_excludes alnum "'" _
                       (all_of_substring_0 _ 16 _ Halnum) eq_refl)).
Qed.


(** ** The configuration of an instance *)

(** What a prompt can end with. *)
Lemma prompt_result (prompt default var : string)
    (validator : option (string -> verdict)) (stdin : list string) :
  match (prompt_with_default prompt default var validator stdin).1.2 with
  | Stored value =>
      quote_free value = true
      /\ forall v, validator = Some v -> v value = Accepted
  | Evaluated code =>
      exists input,
        code = var +:+ "='" +:+ input +:+ "'"
        /\ quote_free input = false
        /\ forall v, validator = Some v -> v input = Accepted
  | EndOfInput => True
  end.
Proof.
  induction stdin as [|line rest IH]; [done|]. simpl.
  destruct validator as [v|]; simpl.
  - destruct (v (supplied default line)) eqn:Hv.
    + destruct (quote_free (supplied default line)) eqn:Hq; simpl.
      * split; [done|]. by intros ? [= <-].
      * eexists. split_and!; [done..|]. by intros ? [= <-].
    + simpl in IH.
      by destruct (prompt_with_default prompt default var (Some v) rest)
        as [[??]?].
  - destruct (quote_free (supplied default line)) eqn:Hq; simpl.
    + split; [done|]. by intros ? [=].
    + eexists. split_and!; [done..|]. by intros ? [=].
Qed.

Lemma ask_result (prompt default var : string)
    (validator : option (string -> verdict)) (stdin : list string) :
  match (ask prompt default var validator stdin).1.2 with
  | inl value =>
      quote_free value = true
      /\ forall v, validator = Some v -> v value = Accepted
  | inr (Eval code) =>
      exists input,
        code = var +:+ "='" +:+ input +:+ "'"
        /\ quote_free input = false
        /\ forall v, validator = Some v -> v input = Accepted
  | inr (Exit code) => code = 1%Z
  end.
Proof.
  pose proof (prompt_result prompt default var validator stdin) as H.
  unfold ask.
  destruct (prompt_with_default prompt default var validator stdin)
    as [[out [value|code|]] rest]; done.
Qed.

Lemma name_quote_free (inst : instances) (name : string) :
  validate_instance_name inst name = Accepted -> quote_free name = true.
Proof.
  intros (_ & Hall & _)%instance_name_shape. unfold quote_free.
  by rewrite (proj1 (all_of_excludes _ "'" _ Hall eq_refl)).
Qed.

Lemma collect_instance_config_cases (e : surroundings) (stdin : list string) :
  match (collect_instance_config e stdin).1.2 with
  | inl c =>
      validate_instance_name (existing e) (INSTANCE_NAME c) = Accepted
      /\ validate_email (ADMIN_EMAIL c) = Accepted
      /\ validate_port (APP_PORT c) = Accepted
      /\ validate_port (DB_PORT c) = Accepted
      /\ is_port_available (when_checking_app e) (APP_PORT c) = true
      /\ is_port_available (when_checking_db e) (DB_PORT c) = true
      /\ quote_free (DATABASE_NAME c) = true
      /\ quote_free (COMPANY_NAME c) = true
      /\ quote_free (ADMIN_USERNAME c) = true
      /\ quote_free (ADMIN_FULL_NAME c) = true
      /\ quote_free (ADMIN_PASSWORD c) = true
  | inr (Eval code) =>
      exists var input,
        code = var +:+ "='" +:+ input +:+ "'"
        /\ quote_free input = false
        /\ var ∈ ["DATABASE_NAME"; "COMPANY_NAME"; "ADMIN_USERNAME";
                  "ADMIN_FULL_NAME"; "ADMIN_PASSWORD"]
  | inr (Exit code) => code = 1%Z
  end.
Proof.
  unfold collect_instance_config, mbind, script_bind, say, exit, mret,
    script_ret.
  repeat match goal with
  | |- context [ask ?p ?d ?var ?v ?input] =>
      let H := fresh "Hask" in
      pose proof (ask_result p d var v input) as H;
      destruct (ask p d var v input) as [[? [?|[?|?]]] ?];
      cbn [fst snd] in H |- *
  end.
  all: try done.
  all: repeat match goal with
       | H : _ /\ (forall v, Some ?f = Some v -> _) |- _ =>
           destruct H as [? H]; specialize (H _ eq_refl)
       | H : _ /\ (forall v, None = Some v -> _) |- _ => destruct H as [? _]
       end.
  all: try match goal with
       | H : ex _ |- _ =>
           let input := fresh "input" in
           destruct H as (input & -> & Hq & Hv)
       end.
  all: try (specialize (Hv _ eq_refl);
            first [apply name_quote_free in Hv
                  |apply email_quote_free in Hv
                  |apply port_quote_free in Hv];
            congruence).
  all: try (eexists _, _; split_and!; [done|done|set_solver]).
  repeat match goal with
  | |- context [negb (is_port_available ?s ?p)] =>
      destruct (is_port_available s p) eqn:?
  end; simpl; done.
Qed.

(** X21. Whatever is typed, [collect_instance_config] ends in one of
    three ways.  With a configuration: then the instance name, the
    admin email and the two ports have passed their validators, both
    ports were reported free when they were checked again, and none of
    the values typed holds a single quote.  With text handed to [eval]
    as code: then it was typed at one of the five prompts that have no
    validator.  Or with the end of the script, with status 1. *)
Theorem collected_values_are_checked (e : surroundings) (stdin : list string) :
  match (collect_instance_config e stdin).1.2 with
  | inl c =>
      validate_instance_name (existing e) (INSTANCE_NAME c) = Accepted
      /\ validate_email (ADMIN_EMAIL c) = Accepted
      /\ validate_port (APP_PORT c) = Accepted
      /\ validate_port (DB_PORT c) = Accepted
      /\ is_port_available (when_checking_app e) (APP_PORT c) = true
      /\ is_port_available (when_checking_db e) (DB_PORT c) = true
      /\ quote_free (DATABASE_NAME c) = true
      /\ quote_free (COMPANY_NAME c) = true
      /\ quote_free (ADMIN_USERNAME c) = true
      /\ quote_free (ADMIN_FULL_NAME c) = true
      /\ quote_free (ADMIN_PASSWORD c) = true
  | inr (Eval code) =>
      exists var input,
        code = var +:+ "='" +:+ input +:+ "'"
        /\ quote_free input = false
        /\ var ∈ ["DATABASE_NAME"; "COMPANY_NAME"; "ADMIN_USERNAME";
                  "ADMIN_FULL_NAME"; "ADMIN_PASSWORD"]
  | inr (Exit code) => code = 1%Z
  end.
Proof. apply collect_instance_config_cases. Qed.

(** The defaults, taken one after the other; and a company name with a
    quote in it. *)
Example defaults_are_collected :
  (collect_instance_config Acme.around
     ["acme"; ""; ""; ""; ""; ""; ""; ""; ""]).1.2
  = inl (Config "acme" "acme_db" "My Company" "admin@acme.com"
           "admin@acme.com" "Super Admin" "q83vEjRnZ5mLw0Tk" "9000" "5432"
           "3q27wABAgMEBQYHCAkKCwwNDg8QERITF" "00ff" "q83vEjRnZ5mLw0Tk")
  /\ (collect_instance_config Acme.around ["acme"; ""; "O'Brien"]).1.2
     = inr (Eval "COMPANY_NAME='O'Brien'").
Proof. by vm_compute. Qed.

(** ** The whole deployment *)

Lemma and_then_cases (step : list effect * option Z)
    (rest : list effect * halt) :
  and_then step rest
  = match step.2 with
    | Some code => (step.1, Exit code)
    | None => (step.1 ++ rest.1, rest.2)
    end.
Proof. by destruct step as [evs [code|]]. Qed.

Lemma written_app (evs evs' : list effect) :
  written (evs ++ evs') = written evs ++ written evs'.
Proof. apply omap_app. Qed.

Lemma npm_calls_app (evs evs' : list effect) :
  npm_calls (evs ++ evs') = npm_calls evs ++ npm_calls evs'.
Proof. apply omap_app. Qed.

Lemma cancelled_app (evs evs' : list effect) :
  cancelled (evs ++ evs') = cancelled evs || cancelled evs'.
Proof. apply existsb_app. Qed.

(** The steps before the questions write no file, cancel nothing, call
    neither [docker-compose] nor, but for [install_dependencies],
    [npm]; when they end the script, the status is 1. *)
Lemma check_prerequisites_step (t : tools) :
  let r := check_prerequisites t in
  written r.1 = [] /\ cancelled r.1 = false /\ existsb acts r.1 = false
  /\ npm_calls r.1 = [] /\ (r.2 = None \/ r.2 = Some 1%Z).
Proof.
  unfold check_prerequisites.
  destruct (missing_deps t); [destruct (docker_info t)|]; simpl;
    split_and!; first [done | by left | by right].
Qed.

Lemma verify_deployment_files_step (present : string -> bool) (size : bool) :
  let r := verify_deployment_files present size in
  written r.1 = [] /\ cancelled r.1 = false /\ existsb acts r.1 = false
  /\ npm_calls r.1 = [] /\ (r.2 = None \/ r.2 = Some 1%Z).
Proof.
  unfold verify_deployment_files.
  destruct (filter _ required_files); [destruct size|]; simpl;
    split_and!; first [done | by left | by right].
Qed.

Lemma install_dependencies_step (package_json : bool) (npm : nat -> bool) :
  let r := install_dependencies package_json npm in
  written r.1 = [] /\ cancelled r.1 = false /\ existsb acts r.1 = false
  /\ (r.2 = None -> last (npm_calls r.1) = Some true)
  /\ (r.2 = None \/ r.2 = Some 1%Z).
Proof.
  unfold install_dependencies.
  destruct package_json; simpl;
    [destruct (npm 1) eqn:H1; simpl;
     [|destruct (npm 2) eqn:H2; simpl;
       [|destruct (npm 3) eqn:H3; simpl]]|];
    split_and!; first [done | by left | by right].
Qed.

Lemma create_shared_network_step (d : docker) :
  let r := create_shared_network d in
  written r.1 = [] /\ cancelled r.1 = false /\ npm_calls r.1 = []
  /\ (r.2 = None \/ r.2 = Some 1%Z).
Proof.
  unfold create_shared_network.
  destruct (network_exists d), (create_with_subnet d), (create_plain d),
    (create_after_prune d); simpl; split_and!; first [done | by left | by right].
Qed.

Lemma deploy_instance_step (d : docker) (name : string) :
  let r := deploy_instance d name in
  written r.1 = [] /\ cancelled r.1 = false /\ npm_calls r.1 = []
  /\ (r.2 = None \/ r.2 = Some 1%Z).
Proof.
  unfold deploy_instance. rewrite wait_for_services_once.
  destruct (create_shared_network_step d) as (Hw & Hc & Hn & Hcode).
  destruct (create_shared_network d) as [net failed].
  simpl in Hw, Hc, Hn, Hcode.
  unfold written, cancelled, npm_calls in *.
  destruct Hcode as [->| ->]; [|simpl; split_and!; first [done | by right]].
  destruct (dockerfile_simple d), (node_modules d), (build d =? 0)%Z,
    (up d =? 0)%Z, (healthy d 0), (migrate d =? 0)%Z; simpl;
    rewrite ?omap_app, ?existsb_app, ?Hw, ?Hc, ?Hn;
    split_and!; first [done | by left | by right].
Qed.

(** What the questions write to the terminal is not the notice of a
    cancellation. *)
Lemma prompt_says_no_cancellation (prompt default var : string)
    (validator : option (string -> verdict)) (stdin : list string) :
  (forall v s, validator = Some v -> v s <> Rejected CancelledByUser) ->
  cancelled (Say <$> (prompt_with_default prompt default var validator stdin).1.1)
  = false.
Proof.
  intros Hv. induction stdin as [|line rest IH]; [done|]. simpl.
  destruct validator as [v|]; simpl; [|done].
  specialize (Hv v (supplied default line) eq_refl).
  destruct (v (supplied default line)) as [|why]; [done|].
  destruct (prompt_with_default prompt default var (Some v) rest)
    as [[out a] rest'].
  cbn [fst snd] in *. rewrite !fmap_cons. unfold cancelled in *.
  cbn [existsb]. rewrite IH. by destruct why.
Qed.

Lemma ask_says_no_cancellation (prompt default var : string)
    (validator : option (string -> verdict)) (stdin : list string) :
  (forall v s, validator = Some v -> v s <> Rejected CancelledByUser) ->
  cancelled (Say <$> (ask prompt default var validator stdin).1.1) = false.
Proof.
  intros Hv.
  pose proof (prompt_says_no_cancellation prompt default var validator stdin Hv)
    as H.
  unfold ask.
  by destruct (prompt_with_default prompt default var validator stdin)
    as [[out [value|code|]] rest].
Qed.

Lemma validators_say_no_cancellation :
  (forall inst v s, Some (validate_instance_name inst) = Some v ->
                    v s <> Rejected CancelledByUser)
  /\ (forall v s, Some validate_email = Some v -> v s <> Rejected CancelledByUser)
  /\ (forall v s, Some validate_port = Some v -> v s <> Rejected CancelledByUser)
  /\ (forall (v : string -> verdict) s, None = Some v ->
                                       v s <> Rejected CancelledByUser).
Proof.
  split_and!.
  - intros inst v s [= <-]. unfold validate_instance_name.
    by repeat case_match.
  - intros v s [= <-]. unfold validate_email. by case_match.
  - intros v s [= <-]. unfold validate_port. by case_match.
  - by intros v s [=].
Qed.

Lemma says_write_nothing (out : list notice) :
  written (Say <$> out) = [] /\ npm_calls (Say <$> out) = []
  /\ existsb acts (Say <$> out) = false.
Proof. induction out as [|n out (IH1 & IH2 & IH3)]; [done|]. by simpl. Qed.

Lemma collect_says_no_cancellation (e : surroundings) (stdin : list string) :
  cancelled (Say <$> (collect_instance_config e stdin).1.1) = false.
Proof.
  destruct validators_say_no_cancellation as (Hname & Hemail & Hport & Hnone).
  unfold collect_instance_config, mbind, script_bind, say, exit, mret,
    script_ret.
  repeat match goal with
  | |- context [ask ?p ?d ?var ?v ?input] =>
      let H := fresh "Hask" in
      pose proof (ask_says_no_cancellation p d var v input) as H;
      destruct (ask p d var v input) as [[? [?|[?|?]]] ?];
      cbn [fst snd] in H |- *
  end.
  all: repeat match goal with
       | |- context [negb (is_port_available ?s ?p)] =>
           destruct (is_port_available s p)
       end.
  all: cbn [negb fst snd].
  all: rewrite ?fmap_app, ?cancelled_app.
  all: repeat match goal with
       | H : (forall v s, Some (validate_instance_name ?i) = Some v -> _) -> _
         |- _ => rewrite (H (Hname i))
       | H : (forall v s, Some validate_email = Some v -> _) -> _ |- _ =>
           rewrite (H Hemail)
       | H : (forall v s, Some validate_port = Some v -> _) -> _ |- _ =>
           rewrite (H Hport)
       | H : (forall v s, None = Some v -> _) -> _ |- _ => rewrite (H Hnone)
       end.
  all: done.
Qed.

Lemma confirm_deployment_codes (stdin : list string) (code : Z) :
  (confirm_deployment stdin).1 = Some code -> code = 0%Z \/ code = 1%Z.
Proof.
  destruct stdin as [|line rest]; simpl; [intros [= <-]; by right|].
  destruct (Ere.matches no_re (read_r line)); [intros [= <-]; by left|done].
Qed.

(** X22. In a run of [main], as far as the script itself goes (up to
    an answer with a quote that [eval] takes for code), the files of an
    instance are written at most once, and only for a configuration
    whose name, admin email and two ports have passed their validators,
    after [npm install] has succeeded and without the deployment having
    been cancelled.  A deployment cancelled at the last question ends
    with status 0, has written nothing and has not called
    [docker-compose], but [npm install] has run by then.  When the
    script exits, its status is 0 or 1. *)
Theorem files_are_written_for_a_checked_configuration
    (m : machine) (stdin : list string) :
  let r := main m stdin in
  (forall c, c ∈ written r.1 ->
     written r.1 = [c]
     /\ validate_instance_name (existing (around m)) (INSTANCE_NAME c) = Accepted
     /\ validate_email (ADMIN_EMAIL c) = Accepted
     /\ validate_port (APP_PORT c) = Accepted
     /\ validate_port (DB_PORT c) = Accepted
     /\ cancelled r.1 = false
     /\ last (npm_calls r.1) = Some true)
  /\ (cancelled r.1 = true ->
      r.2 = Exit 0%Z /\ written r.1 = [] /\ existsb acts r.1 = false
      /\ last (npm_calls r.1) = Some true)
  /\ (forall code, r.2 = Exit code -> code = 0%Z \/ code = 1%Z).
Proof.
  intros r. subst r. unfold main.
  destruct (check_prerequisites_step (commands m)) as (W1 & C1 & A1 & N1 & E1).
  destruct (verify_deployment_files_step (present m) (index_js_has_size m))
    as (W2 & C2 & A2 & N2 & E2).
  destruct (install_dependencies_step (package_json_is_file m) (npm_install m))
    as (W3 & C3 & A3 & N3 & E3).
  pose proof (collect_instance_config_cases (around m) stdin) as Hcol.
  pose proof (collect_says_no_cancellation (around m) stdin) as Ccol.
  destruct (collect_instance_config (around m) stdin) as [[out res] rest].
  cbn [fst snd] in Hcol, Ccol.
  destruct (says_write_nothing out) as (Wo & No & Ao).
  destruct (check_prerequisites (commands m)) as [e1 s1].
  destruct (verify_deployment_files (present m) (index_js_has_size m))
    as [e2 s2].
  destruct (install_dependencies (package_json_is_file m) (npm_install m))
    as [e3 s3].
  cbn [fst snd] in *.
  assert (Hquiet : forall evs h,
    written evs = [] -> cancelled evs = false ->
    (forall code, h = Exit code -> code = 1%Z) ->
    (forall c, c ∈ written evs ->
       written evs = [c]
       /\ validate_instance_name (existing (around m)) (INSTANCE_NAME c)
          = Accepted
       /\ validate_email (ADMIN_EMAIL c) = Accepted
       /\ validate_port (APP_PORT c) = Accepted
       /\ validate_port (DB_PORT c) = Accepted
       /\ cancelled evs = false
       /\ last (npm_calls evs) = Some true)
    /\ (cancelled evs = true ->
        h = Exit 0%Z /\ written evs = [] /\ existsb acts evs = false
        /\ last (npm_calls evs) = Some true)
    /\ (forall code, h = Exit code -> code = 0%Z \/ code = 1%Z)).
  { intros evs h -> -> Hh. split_and!; [by intros c ?%elem_of_nil|done|].
    intros code ->%Hh. by right. }
  rewrite (and_then_cases ([Say Header], None)). cbn [fst snd].
  rewrite (and_then_cases (e1, s1)). cbn [fst snd].
  destruct E1 as [->| ->]; cbn [fst snd].
  2: { apply Hquiet; [by rewrite written_app, W1|by rewrite cancelled_app, C1|].
       by intros code [= <-]. }
  cbn [fst snd].
  rewrite (and_then_cases (e2, s2)). cbn [fst snd].
  destruct E2 as [->| ->]; cbn [fst snd].
  2: { apply Hquiet;
         [by rewrite !written_app, W1, W2|by rewrite !cancelled_app, C1, C2|].
       by intros code [= <-]. }
  cbn [fst snd].
  rewrite (and_then_cases (e3, s3)). cbn [fst snd].
  destruct E3 as [->| ->]; cbn [fst snd].
  2: { apply Hquiet;
         [by rewrite !written_app, W1, W2, W3
         |by rewrite !cancelled_app, C1, C2, C3|].
       by intros code [= <-]. }
  cbn [fst snd]. specialize (N3 eq_refl).
  destruct res as [c|h].
  2: { cbn [fst snd]. apply Hquiet;
         [by rewrite !written_app, W1, W2, W3, Wo
         |by rewrite !cancelled_app, C1, C2, C3, Ccol|].
       intros code ->. exact Hcol. }
  destruct Hcol as (Hname & Hemail & Happ & Hdb & _).
  rewrite (and_then_cases (Say <$> out, None)). cbn [fst snd].
  pose proof (confirm_deployment_codes rest) as Hcodes.
  rewrite (and_then_cases (_ :: _, (confirm_deployment rest).1)).
  cbn [fst snd].
  destruct (confirm_deployment rest).1 as [code|].
  { destruct (Hcodes code eq_refl) as [->| ->]; cbn [fst snd].
    - rewrite bool_decide_eq_true_2 by done.
      rewrite !written_app, !cancelled_app, !npm_calls_app, !existsb_app.
      rewrite W1, W2, W3, Wo, N1, N2, No, A1, A2, A3, Ao. simpl.
      rewrite app_nil_r.
      split_and!; [by intros c' ?%elem_of_nil|done|intros code [= <-]; by left].
    - rewrite bool_decide_eq_false_2 by done.
      apply Hquiet;
        [by rewrite !written_app, W1, W2, W3, Wo
        |by rewrite !cancelled_app, C1, C2, C3, Ccol|].
      by intros code [= <-]. }
  rewrite bool_decide_eq_false_2 by done.
  rewrite (and_then_cases ([WriteInstance c (now m)], None)). cbn [fst snd].
  destruct (deploy_instance_step (docker_answers m) (INSTANCE_NAME c))
    as (W4 & C4 & N4 & E4).
  rewrite and_then_cases.
  destruct (deploy_instance (docker_answers m) (INSTANCE_NAME c)) as [e4 s4].
  cbn [fst snd] in *.
  destruct E4 as [->| ->]; cbn [fst snd];
    rewrite !written_app, !cancelled_app, !npm_calls_app;
    rewrite W1, W2, W3, Wo, W4, C1, C2, C3, Ccol, C4, N1, N2, No, N4; simpl;
    rewrite ?app_nil_r.
  all: split_and!;
    [intros c' ->%list_elem_of_singleton; by split_and!
    |done
    |intros code [= <-]; first [by left | by right]].
Qed.

(** A deployment with the defaults, and the same one cancelled at the
    last question. *)
Example a_deployment_and_a_cancelled_one :
  let answers := ["acme"; ""; ""; ""; ""; ""; ""; ""; ""] in
  let deployed := main Acme.laptop (answers ++ [""]) in
  let stopped := main Acme.laptop (answers ++ ["n"]) in
  written deployed.1
  = [Config "acme" "acme_db" "My Company" "admin@acme.com"
       "admin@acme.com" "Super Admin" "q83vEjRnZ5mLw0Tk" "9000" "5432"
       "3q27wABAgMEBQYHCAkKCwwNDg8QERITF" "00ff" "q83vEjRnZ5mLw0Tk"]
  /\ deployed.2 = Exit 0%Z
  /\ cancelled stopped.1 = true
  /\ written stopped.1 = []
  /\ npm_calls stopped.1 = [true].
Proof. by vm_compute. Qed.

(** ** The statements above, at samples *)

Lemma prompt_stores_the_first_accepted_answer_witness :
  (forall s, validate_port s = Accepted -> quote_free s = true)
  /\ let r := prompt_with_default "Application port" "" "APP_PORT"
                (Some validate_port) ["abc"; ""; "  8080  "; "9090"] in
     exists refused,
       Forall (fun line => validate_port (supplied "" line) <> Accepted) refused
       /\ ((r.1.2 = EndOfInput
            /\ ["abc"; ""; "  8080  "; "9090"] = refused /\ r.2 = [])
           \/ exists line,
                ["abc"; ""; "  8080  "; "9090"] = refused ++ line :: r.2
                /\ validate_port (supplied "" line) = Accepted
                /\ r.1.2 = Stored (supplied "" line)).
Proof.
  split; [exact port_quote_free|].
  exact (proj1 (prompt_stores_the_first_accepted_answer
                  "Application port" "" "APP_PORT"
                  ["abc"; ""; "  8080  "; "9090"])
           validate_port port_quote_free).
Defined.

Lemma default_admin_email_accepted_witness :
  validate_instance_name None "my_app" = Accepted
  /\ (validate_email (default_admin_email "my_app") = Accepted
      <-> occurs "_" "my_app" = false).
Proof.
  split; [reflexivity|].
  exact (default_admin_email_accepted None "my_app" eq_refl).
Defined.

Lemma default_db_name_is_lower_case_witness :
  validate_instance_name None "My-App" = Accepted
  /\ exists base,
       default_db_name "My-App" = base +:+ "_db"
       /\ String.length base = String.length "My-App"
       /\ all_of (fun c => lower c || digit c || Ascii.eqb c "_") base = true.
Proof.
  split; [reflexivity|].
  exact (default_db_name_is_lower_case None "My-App" eq_refl).
Defined.

Lemma port_is_taken_when_listed_witness :
  all_of digit "8080" = true
  /\ is_port_available Acme.busy "8080"
     = negb (existsb (contains (":" +:+ "8080" +:+ " "))
                     (netstat_tuln Acme.busy))
       && negb (existsb (contains (":" +:+ "8080" +:+ "->"))
                        (docker_ps_ports Acme.busy))
       && negb (existsb (contains (":" +:+ "8080" +:+ " ")) (ss_tuln Acme.busy)).
Proof.
  split; [reflexivity|].
  exact (port_is_taken_when_listed Acme.busy "8080" eq_refl).
Defined.

Lemma ports_are_read_back_witness :
  validate_port (APP_PORT Acme.settings) = Accepted
  /\ validate_port (DB_PORT Acme.settings) = Accepted
  /\ read_back "APP_PORT" (dot_env Acme.settings "2024-05-01T10:00:00+00:00")
     = "9001"
  /\ read_back "DB_PORT" (dot_env Acme.settings "2024-05-01T10:00:00+00:00")
     = "5433".
Proof.
  split; [reflexivity|]. split; [reflexivity|].
  pose proof (ports_are_read_back Acme.settings "2024-05-01T10:00:00+00:00"
                eq_refl eq_refl) as (Happ & Hdb & _).
  exact (conj Happ Hdb).
Defined.

End Deployment.

(** * The development server *)

Section DevServer.
Import Deploy.

Lemma prefix_all_of f (t s : string) :
  String.prefix t s = true -> all_of f s = true -> all_of f t = true.
Proof.
  revert s. induction t as [|c t IH]; intros s; [done|].
  destruct s as [|a s]; [done|]. simpl.
  destruct (ascii_dec c a) as [->|]; [|done].
  intros Hpre [-> Hs]%andb_true_iff. by apply (IH s).
Qed.

Lemma rule_shape (path : string) :
  Ere.matches Vite.rule path = true ->
  exists segment,
    path = String "/" segment
    /\ all_of (fun c => alnum c || Ascii.eqb c "-") segment = true.
Proof.
  unfold Vite.rule. rewrite matches_class_then.
  destruct path as [|c segment]; [done|].
  intros [Hc Hs]%andb_true_iff. apply Ascii.eqb_eq in Hc as <-.
  rewrite matches_plus_class in Hs. apply andb_true_iff in Hs as [_ Hs].
  by exists segment.
Qed.

(** X23. On the paths the proxy rule applies to (a slash and one
    segment of letters, digits and hyphens), the test
    [path.startsWith(route + '/')] of [bypass] never holds: the request
    goes to the backend exactly when the host contains [.localhost],
    does not begin with [localhost:], and the path is not one of the
    application routes; otherwise [/index.html] is served. *)
Theorem one_segment_paths_are_served_or_proxied
    (headers_host : option string) (path : string) :
  Ere.matches Vite.rule path = true ->
  Vite.bypass headers_host (Some path)
  = if Vite.includes (default EmptyString headers_host) ".localhost"
       && negb (Vite.startsWith (default EmptyString headers_host) "localhost:")
       && negb (existsb (String.eqb path) Vite.appRoutes)
    then None else Some "/index.html".
Proof.
  intros (segment & -> & Hsegment)%rule_shape. unfold Vite.bypass.
  cbv zeta.
  change (default EmptyString (Some (String "/" segment)))
    with (String "/" segment).
  assert (existsb (fun route =>
                     Vite.startsWith (String "/" segment) (route +:+ "/"))
                  Vite.appRoutes = false) as ->; [|by rewrite orb_false_r].
  apply not_true_is_false. intros (route & Hin & Hpre)%existsb_exists.
  unfold Vite.startsWith in Hpre.
  assert (all_of (fun c => alnum c || Ascii.eqb c "-") (String "/" segment)
          = false) as Hslash by done.
  unfold Vite.appRoutes in Hin. simpl in Hin.
  repeat (destruct Hin as [<-|Hin];
          [simpl in Hpre;
           apply (prefix_all_of (fun c => alnum c || Ascii.eqb c "-")) in Hpre;
           [by vm_compute in Hpre|exact Hsegment]|]).
  done.
Qed.

Lemma one_segment_paths_are_served_or_proxied_witness :
  Ere.matches Vite.rule "/pricing" = true
  /\ Vite.bypass (Some "acme.localhost:9000") (Some "/pricing")
     = if Vite.includes "acme.localhost:9000" ".localhost"
          && negb (Vite.startsWith "acme.localhost:9000" "localhost:")
          && negb (existsb (String.eqb "/pricing") Vite.appRoutes)
       then None else Some "/index.html".
Proof.
  split; [reflexivity|].
  exact (one_segment_paths_are_served_or_proxied
           (Some "acme.localhost:9000") "/pricing" eq_refl).
Defined.

End DevServer.
